(** * The segmentation and subtitle engine of [services/video_processor.py]

    A shallow embedding of the pure core of [VideoProcessor]: the time
    formatter, the text segmenter, the start-point generator, the clip
    planner and the subtitle synchronizer, followed by the properties the
    specification states about them.

    Numbers.  A Python number is modelled by the rational it denotes.  On
    the subtitle path ([format_srt_time], [create_subtitles],
    [transcribe_segment]) every float operation that can round is followed
    by the rounding to binary64 ([round_b64]), as in CPython: the digits
    printed in a cue depend on it.  The start-point generator and the clip
    planner are modelled in exact arithmetic; what is stated about them
    are order and distance properties of real numbers.

    Strings.  A Python [str] is modelled by a [string] holding one [ascii]
    per code point (code points below 256; the accented letters of the
    Portuguese placeholders are the Latin-1 code points).

    Collaborators.  ffprobe, ffmpeg, Whisper, the [random] module and
    [math.exp] are not part of the repository: they enter as parameters. *)

From Stdlib Require Import ZArith QArith Qround Qabs Lqa Lia List String Ascii.
From Stdlib Require Import DecimalString.
From stdpp Require Import base option strings gmap.
Import ListNotations.

Local Open Scope Q_scope.

(* ------------------------------------------------------------------ *)
(** ** Python numbers *)

Module PyNum.

(** [2 ^ k] for any integer [k]. *)
Definition Qpow2 (k : Z) : Q :=
  if (0 <=? k)%Z then inject_Z (2 ^ k) else 1 # Z.to_pos (2 ^ (- k)).

(** The exponent [e] with [2 ^ e <= q < 2 ^ (e + 1)], for [q > 0]. *)
Definition floor_log2 (q : Q) : Z :=
  let e0 := (Z.log2 (Qnum q) - Z.log2 (Zpos (Qden q)))%Z in
  if Qle_bool (Qpow2 e0) q then e0 else (e0 - 1)%Z.

(** Nearest integer, ties to even. *)
Definition round_half_even (q : Q) : Z :=
  let f := Qfloor q in
  match Qcompare (q - inject_Z f) (1 # 2) with
  | Lt => f
  | Gt => (f + 1)%Z
  | Eq => if Z.even f then f else (f + 1)%Z
  end.

Definition round_b64_pos (q : Q) : Q :=
  let u := Z.max (floor_log2 q - 52) (-1074) in
  Qred (inject_Z (round_half_even (q / Qpow2 u)) * Qpow2 u).

(** IEEE 754 binary64 round-to-nearest-even of a rational: 53 bits of
    precision, gradual underflow below [2 ^ -1022].  Overflow to infinity
    is not modelled (no duration comes near [2 ^ 1024]). *)
Definition round_b64 (q : Q) : Q :=
  let q := Qred q in
  match Qnum q with
  | Z0 => 0
  | Zpos _ => round_b64_pos q
  | Zneg _ => Qred (- round_b64_pos (- q))
  end.

(** The float a decimal literal or a parsed decimal string denotes. *)
Definition py_float (q : Q) : Q := round_b64 q.

Definition fadd (a b : Q) : Q := round_b64 (a + b).
Definition fsub (a b : Q) : Q := round_b64 (a - b).
Definition fmul (a b : Q) : Q := round_b64 (a * b).
Definition fdiv (a b : Q) : Q := round_b64 (a / b).

Definition Qlt_bool (a b : Q) : bool := negb (Qle_bool b a).

(** [max(a, b)] and [min(a, b)] of two arguments: the first argument
    wins a tie. *)
Definition py_max (a b : Q) : Q := if Qlt_bool a b then b else a.
Definition py_min (a b : Q) : Q := if Qlt_bool b a then b else a.

(** [x // y] and [x % y] for [y > 0].  On floats with [x >= 0] both are
    computed without rounding error (fmod is exact). *)
Definition floor_div (x y : Q) : Q := inject_Z (Qfloor (x / y)).
Definition py_mod (x y : Q) : Q := x - y * floor_div x y.

(** [int(x)]: truncation toward zero. *)
Definition py_int (x : Q) : Z := Z.quot (Qnum x) (Zpos (Qden x)).

End PyNum.
Import PyNum.

(* ------------------------------------------------------------------ *)
(** ** Python strings *)

Module PyStr.

Definition chr (n : nat) : ascii := ascii_of_nat n.
Definition str1 (c : ascii) : string := String c EmptyString.

Definition nl : string := str1 (chr 10).
Definition dquote : ascii := chr 34.
Definition squote : ascii := chr 39.
Definition backslash : ascii := chr 92.

(** [str.isspace] on one code point below 256. *)
Definition is_space (c : ascii) : bool :=
  let n := nat_of_ascii c in
  ((9 <=? n) && (n <=? 13) || (28 <=? n) && (n <=? 32)
   || (n =? 133) || (n =? 160))%nat.

Fixpoint lstrip (s : string) : string :=
  match s with
  | String c r => if is_space c then lstrip r else s
  | EmptyString => EmptyString
  end.

Fixpoint rev_string (acc s : string) : string :=
  match s with
  | String c r => rev_string (String c acc) r
  | EmptyString => acc
  end.

Definition rstrip (s : string) : string :=
  rev_string EmptyString (lstrip (rev_string EmptyString s)).

(** [s.strip()] *)
Definition strip (s : string) : string := rstrip (lstrip s).

(** [s.replace(c, '')] for a one-character [c]. *)
Fixpoint remove_char (c : ascii) (s : string) : string :=
  match s with
  | String d r =>
      if Ascii.eqb c d then remove_char c r else String d (remove_char c r)
  | EmptyString => EmptyString
  end.

(** [sep.join(parts)] *)
Fixpoint join (sep : string) (parts : list string) : string :=
  match parts with
  | [] => EmptyString
  | [p] => p
  | p :: rest => p +:+ sep +:+ join sep rest
  end.

Definition flush_word (cur : string) (acc : list string) : list string :=
  match cur with
  | EmptyString => acc
  | _ => rev_string EmptyString cur :: acc
  end.

(** Scanner behind [s.split()]: [cur] is the current word, reversed. *)
Fixpoint split_ws (cur : string) (s : string) : list string :=
  match s with
  | String c r =>
      if is_space c then flush_word cur (split_ws EmptyString r)
      else split_ws (String c cur) r
  | EmptyString => flush_word cur []
  end.

(** [s.split()]: the maximal runs of non-space characters. *)
Definition split (s : string) : list string := split_ws EmptyString s.

(** Scanner behind [s.split(c)]: every occurrence of [c] ends a field. *)
Fixpoint split_on (c : ascii) (cur : string) (s : string) : list string :=
  match s with
  | String d r =>
      if Ascii.eqb c d
      then rev_string EmptyString cur :: split_on c EmptyString r
      else split_on c (String d cur) r
  | EmptyString => [rev_string EmptyString cur]
  end.

(** [s.split(c)] for a one-character separator. *)
Definition split_char (c : ascii) (s : string) : list string :=
  split_on c EmptyString s.

(** [needle in s] *)
Fixpoint contains (needle s : string) : bool :=
  String.prefix needle s
  || match s with
     | String _ r => contains needle r
     | EmptyString => false
     end.

(** [str(n)] / [f"{n}"] for an integer. *)
Definition str_of_Z (n : Z) : string := NilZero.string_of_int (Z.to_int n).

Fixpoint zeros (n : nat) : string :=
  match n with
  | O => EmptyString
  | S k => String "0" (zeros k)
  end.

(** [f"{n:0wd}"]: sign-aware zero padding to width [w]. *)
Definition zfill (w : nat) (n : Z) : string :=
  let digits := NilZero.string_of_uint (N.to_uint (Z.abs_N n)) in
  if (n <? 0)%Z
  then String "-" (zeros (w - 1 - String.length digits) +:+ digits)
  else zeros (w - String.length digits) +:+ digits.

(** The accented letters of the placeholders (Latin-1 code points). *)
Definition c_cedilla : string := str1 (chr 231).
Definition a_tilde : string := str1 (chr 227).
Definition a_acute : string := str1 (chr 225).

End PyStr.
Import PyStr.

(* ------------------------------------------------------------------ *)
(** ** Time formatter *)

(** [format_srt_time]: the only rounded operation is the product
    [(seconds % 1) * 1000]. *)
Definition format_srt_time (seconds : Q) : string :=
  let hours := py_int (floor_div seconds 3600) in
  let minutes := py_int (floor_div (py_mod seconds 3600) 60) in
  let secs := py_int (py_mod seconds 60) in
  let millisecs := py_int (fmul (py_mod seconds 1) 1000) in
  zfill 2 hours +:+ ":" +:+ zfill 2 minutes +:+ ":" +:+ zfill 2 secs
    +:+ "," +:+ zfill 3 millisecs.

(* ------------------------------------------------------------------ *)
(** ** Text segmenter *)

Definition space : string := " ".
Definition line_break : string := "\N".

(** The caption returned for an empty word list. *)
Definition empty_caption : string :=
  "Transcri" +:+ c_cedilla +:+ a_tilde +:+ "o\Nautom" +:+ a_acute +:+ "tica".

Definition max_chars : nat := 25.

(** State of the re-flow loop of [create_multi_line_subtitle]. *)
Record reflow_state := mk_reflow {
  lines : list string;
  current_line : list string;
  current_length : nat
}.

(** After the loop, and inside it: [if current_line: lines.append(...)]. *)
Definition flush_line (st : reflow_state) : list string :=
  match current_line st with
  | [] => lines st
  | _ => lines st ++ [join space (current_line st)]
  end.

(** One iteration of [for word in all_words]. *)
Definition reflow_step (st : reflow_state) (word : string) : reflow_state :=
  if ((current_length st + String.length word + 1 <=? max_chars)
      && (List.length (lines st) <? 2))%nat
  then mk_reflow (lines st) (current_line st ++ [word])
         (current_length st + String.length word + 1)
  else mk_reflow (flush_line st) [word] (String.length word).

(** [lines[-2] = lines[-2] + " " + lines[-1]; lines.pop()] *)
Fixpoint merge_last_two (ls : list string) : list string :=
  match ls with
  | [a; b] => [a +:+ space +:+ b]
  | a :: rest => a :: merge_last_two rest
  | [] => []
  end.

(** [while len(lines) > 3: ...]; every turn removes one line, so
    [length ls] turns are enough. *)
Fixpoint merge_to_three (fuel : nat) (ls : list string) : list string :=
  if (3 <? List.length ls)%nat
  then match fuel with
       | S f => merge_to_three f (merge_last_two ls)
       | O => ls
       end
  else ls.

(** The re-flow branch: greedy fill, flush, merge down to three lines. *)
Definition reflow (all_words : list string) : list string :=
  let st := fold_left reflow_step all_words (mk_reflow [] [] 0) in
  let ls := flush_line st in
  merge_to_three (List.length ls) ls.

Definition create_multi_line_subtitle (words : list string) : string :=
  match words with
  | [] => empty_caption
  | _ =>
    let text := join space words in
    if (String.length text <=? 20)%nat then text
    else if (String.length text <=? 40)%nat then
      let mid_point := (List.length words / 2)%nat in
      let line1 := join space (firstn mid_point words) in
      let line2 := join space (skipn mid_point words) in
      line1 +:+ line_break +:+ line2
    else
      let total_words := List.length words in
      let part1_end := (total_words / 3)%nat in
      let part2_end := (total_words * 2 / 3)%nat in
      let line1_words := firstn part1_end words in
      let line2_words := skipn part1_end (firstn part2_end words) in
      let line3_words := skipn part2_end words in
      let line1 := join space line1_words in
      let line2 := join space line2_words in
      let line3 := join space line3_words in
      if ((max_chars <? String.length line1) || (max_chars <? String.length line2)
          || (max_chars <? String.length line3))%nat
      then join line_break (reflow (line1_words ++ line2_words ++ line3_words))
      else line1 +:+ line_break +:+ line2 +:+ line_break +:+ line3
  end.

(** [char in ['.', '!', '?', '...']] for a single character. *)
Definition is_sentence_ending (c : ascii) : bool :=
  (Ascii.eqb c "." || Ascii.eqb c "!" || Ascii.eqb c "?")%char.

Definition nonempty (s : string) : bool :=
  match s with EmptyString => false | _ => true end.

(** First tier of [split_into_sentences]; [cur] is [current_sentence],
    reversed. *)
Fixpoint scan_sentences (cur : string) (text : string) : list string :=
  match text with
  | String c r =>
      if is_sentence_ending c then
        let clean := strip (rev_string EmptyString (String c cur)) in
        if nonempty clean then clean :: scan_sentences EmptyString r
        else scan_sentences EmptyString r
      else scan_sentences (String c cur) r
  | EmptyString =>
      let last := strip (rev_string EmptyString cur) in
      if nonempty last then [last] else []
  end.

(** [for i in range(0, len(words), group_size)]: slices of [size] words. *)
Fixpoint word_groups (fuel size : nat) (words : list string) : list string :=
  match fuel, words with
  | _, [] => []
  | O, _ => []
  | S f, _ => join space (firstn size words) :: word_groups f size (skipn size words)
  end.

Definition split_into_sentences (text : string) : list string :=
  let sentences := scan_sentences EmptyString text in
  let sentences :=
    if (List.length sentences <=? 1)%nat
    then List.filter nonempty (map strip (split_char "," text))
    else sentences in
  if (List.length sentences <=? 1)%nat then
    let words := split text in
    if (10 <? List.length words)%nat
    then let group_size := Nat.max 8 (List.length words / 3) in
         word_groups (List.length words) group_size words
    else [text]
  else sentences.

(* ------------------------------------------------------------------ *)
(** ** The per-run table of clip start times *)

(** [self._cut_start_times]: clip id to start time.  An absent attribute
    and an empty dict behave alike. *)
Definition start_times := gmap Z Q.

(** [get_video_info()['duration']]: the probed duration, or 300 when
    ffprobe fails ([get_video_info] catches its own errors). *)
Definition video_duration (probe : option Q) : Q :=
  match probe with Some d => d | None => 300 end.

(** [get_cut_start_time]: the value returned and the table afterwards.
    The difference [total_duration - 30] is exact in binary64 whenever it
    is positive, and has the sign of the exact difference otherwise. *)
Definition get_cut_start_time (probe : option Q) (store : gmap Z Q) (cut_id : Z)
  : Q * gmap Z Q :=
  match store !! cut_id with
  | Some start_time => (start_time, store)
  | None =>
      let total_duration := video_duration probe in
      let cut_duration := 30 in
      let available_duration := total_duration - cut_duration in
      if Qle_bool available_duration 0 then (0, store)
      else
        let start_time := inject_Z (cut_id - 1) * cut_duration in
        let start_time := py_min start_time available_duration in
        (start_time, <[cut_id := start_time]> store)
  end.

(* ------------------------------------------------------------------ *)
(** ** Subtitle synchronizer *)

(** One Whisper segment: [{'start': .., 'end': .., 'text': ..}]. *)
Record segment := mk_segment {
  seg_start : Q;
  seg_end : Q;
  seg_text : string
}.

(** What [create_subtitles] receives as [transcription_data]: [None], a
    plain string, or a dict with the keys ['text'] and ['segments']. *)
Inductive transcription :=
| TNone
| TPlain (text : string)
| TStructured (text : string) (segments : list segment).

(** The three [replace] calls: double quotes, single quotes and
    backslashes are deleted. *)
Definition clean_text (s : string) : string :=
  remove_char backslash (remove_char squote (remove_char dquote s)).

Definition arrow : string := " --> ".
Definition time_zero : string := "00:00:00,000".

(** One cue block: [f"{id}\n{start} --> {end}\n{text}\n\n"]. *)
Definition cue_block (subtitle_id : Z) (start_str end_str text : string) : string :=
  str_of_Z subtitle_id +:+ nl +:+ start_str +:+ arrow +:+ end_str +:+ nl
    +:+ text +:+ nl +:+ nl.

(** A cue from time zero to the end of the clip. *)
Definition full_clip_cue (cut_duration : Q) (text : string) : string :=
  cue_block 1 time_zero (format_srt_time cut_duration) text.

(** [f"Transcrição automática do corte {cut_id}"] *)
Definition auto_transcription : string :=
  "Transcri" +:+ c_cedilla +:+ a_tilde +:+ "o autom" +:+ a_acute +:+ "tica".

Definition default_text (cut_id : Z) : string :=
  auto_transcription +:+ " do corte " +:+ str_of_Z cut_id.

(** The duration of the cut file: ffprobe's answer when the file exists,
    30 otherwise. *)
Definition probed_cut_duration (cut_probe : option Q) : Q :=
  match cut_probe with Some d => d | None => 30 end.

(** Accumulators of the loop over the segments. *)
Record srt_state := mk_srt {
  srt_content : string;
  subtitle_id : Z;
  cut_times : gmap Z Q
}.

(** The timestamps of a segment relative to the start of the cut. *)
Definition relative_start (cut_start_time : Q) (seg : segment) : Q :=
  let original_start := seg_start seg in
  py_max 0 (fsub original_start cut_start_time).

Definition relative_end (cut_start_time cut_duration : Q) (seg : segment) : Q :=
  let original_end := seg_end seg in
  let relative_end := py_max 0 (fsub original_end cut_start_time) in
  py_min relative_end cut_duration.

(** [segment['text'].strip()] with the three characters deleted. *)
Definition segment_caption (seg : segment) : string :=
  clean_text (strip (seg_text seg)).

(** One iteration of [for segment in segments]. *)
Definition segment_step (probe : option Q) (cut_duration : Q) (cut_id : Z)
    (st : srt_state) (seg : segment) : srt_state :=
  let '(cut_start_time, store) := get_cut_start_time probe (cut_times st) cut_id in
  let relative_start := relative_start cut_start_time seg in
  let relative_end := relative_end cut_start_time cut_duration seg in
  let segment_text := segment_caption seg in
  if nonempty segment_text && Qlt_bool relative_start relative_end then
    let start_str := format_srt_time relative_start in
    let end_str := format_srt_time relative_end in
    let subtitle_text := create_multi_line_subtitle (split segment_text) in
    mk_srt (srt_content st +:+ cue_block (subtitle_id st) start_str end_str subtitle_text)
           (subtitle_id st + 1) store
  else mk_srt (srt_content st) (subtitle_id st) store.

(** The loop [for i, sentence in enumerate(sentences)] of the plain-text
    branch, from index [i]. *)
Fixpoint sentence_cues (time_per_sentence cut_duration : Q) (i : Z)
    (sentences : list string) : string :=
  match sentences with
  | [] => EmptyString
  | sentence :: rest =>
      let start_time := fmul (inject_Z i) time_per_sentence in
      let end_time := py_min (fmul (inject_Z (i + 1)) time_per_sentence) cut_duration in
      cue_block (i + 1) (format_srt_time start_time) (format_srt_time end_time)
                (create_multi_line_subtitle (split sentence))
        +:+ sentence_cues time_per_sentence cut_duration (i + 1) rest
  end.

(** The plain-text branch, applied to [str(transcription_data)]. *)
Definition plain_content (cut_duration : Q) (data : string) : string :=
  let text := strip data in
  let text := if nonempty text then text else auto_transcription in
  let text := clean_text text in
  let sentences := split_into_sentences text in
  match sentences with
  | [] => full_clip_cue cut_duration text
  | _ =>
      let time_per_sentence :=
        fdiv cut_duration (inject_Z (Z.of_nat (List.length sentences))) in
      let time_per_sentence := py_max 1 time_per_sentence in
      sentence_cues time_per_sentence cut_duration 0 sentences
  end.

(** [any('-->' in line for line in srt_content.split('\n'))] *)
Definition has_time_marker (content : string) : bool :=
  existsb (contains "-->") (split_char (chr 10) content).

(** The three closing checks of [create_subtitles]. *)
Definition finalize_srt (cut_duration : Q) (cut_id : Z) (content : string) : string :=
  let content :=
    if nonempty (strip content) then content
    else full_clip_cue cut_duration
           (default_text cut_id +:+ "\NLegendas embutidas no v" +:+ str1 (chr 237) +:+ "deo") in
  let content :=
    if (String.length (strip content) <? 20)%nat
    then full_clip_cue cut_duration
           ("Legenda autom" +:+ a_acute +:+ "tica\Ncorte " +:+ str_of_Z cut_id)
    else content in
  if has_time_marker content then content
  else full_clip_cue cut_duration
         (auto_transcription +:+ "\Ncorte " +:+ str_of_Z cut_id).

(** [create_subtitles]: the text written to the [.srt] file and the table
    of start times afterwards.  [probe] is ffprobe on the source video,
    [cut_probe] ffprobe on the cut file ([None]: no cut file).  The
    [except] branch is left out: with a transcription of one of the three
    shapes, only a failing ffprobe on an existing cut file reaches it. *)
Definition create_subtitles (probe cut_probe : option Q) (store : gmap Z Q)
    (transcription_data : transcription) (cut_id : Z) : string * gmap Z Q :=
  let transcription_data :=
    match transcription_data with
    | TNone => TPlain (default_text cut_id)
    | TPlain s => if nonempty (strip s) then TPlain s else TPlain (default_text cut_id)
    | d => d
    end in
  let cut_duration := probed_cut_duration cut_probe in
  let '(content, store) :=
    match transcription_data with
    | TStructured text [] => (full_clip_cue cut_duration text, store)
    | TStructured text segments =>
        let st := fold_left (segment_step probe cut_duration cut_id) segments
                    (mk_srt EmptyString 1 store) in
        (srt_content st, cut_times st)
    | TPlain s => (plain_content cut_duration s, store)
    | TNone => (EmptyString, store)
    end in
  (finalize_srt cut_duration cut_id content, store).

(* ------------------------------------------------------------------ *)
(** ** Per-clip transcription *)

(** [text.replace('  ', ' ')]: non-overlapping, left to right. *)
Fixpoint collapse_double_spaces (s : string) : string :=
  match s with
  | String a ((String b r) as t) =>
      if (Ascii.eqb a " " && Ascii.eqb b " ")%char
      then String " " (collapse_double_spaces r)
      else String a (collapse_double_spaces t)
  | _ => s
  end.

(** [text.replace('\n', ' ')] *)
Fixpoint newlines_to_spaces (s : string) : string :=
  match s with
  | String c r =>
      String (if Ascii.eqb c (chr 10) then " "%char else c) (newlines_to_spaces r)
  | EmptyString => EmptyString
  end.

(** [f"Transcrição do segmento {start_time}s - {end_time}s"]; [py_repr] is
    Python's conversion of a number to text. *)
Definition segment_placeholder (py_repr : Q -> string) (start_time end_time : Q)
  : string :=
  "Transcri" +:+ c_cedilla +:+ a_tilde +:+ "o do segmento "
    +:+ py_repr start_time +:+ "s - " +:+ py_repr end_time +:+ "s".

(** [transcribe_segment].  [whisper] is what ffmpeg followed by Whisper
    return for the extract [start_time, end_time): [None] when either
    raises, else the text and the segments, timed from the start of the
    extract. *)
Definition transcribe_segment (py_repr : Q -> string)
    (whisper : option (string * list segment)) (start_time end_time : Q)
  : string * list segment :=
  match whisper with
  | None => (segment_placeholder py_repr start_time end_time, [])
  | Some (raw_text, segments) =>
      let text := strip raw_text in
      if nonempty text then
        let text := strip (collapse_double_spaces (newlines_to_spaces text)) in
        let adjusted_segments :=
          map (fun seg => mk_segment (fadd (seg_start seg) start_time)
                                     (fadd (seg_end seg) start_time)
                                     (strip (seg_text seg))) segments in
        (text, adjusted_segments)
      else (segment_placeholder py_repr start_time end_time, [])
  end.

(* ------------------------------------------------------------------ *)
(** ** Start-point generator *)

(** The part of Python's [random] module the generator uses.  The state
    of the generator is global in Python; here it is passed along. *)
Record random_module := {
  rng : Type;
  rng_seed : Z -> rng;                 (* random.seed(n) *)
  rng_random : rng -> Q * rng;         (* random.random(), a draw in [0, 1) *)
  rng_below : nat -> rng -> nat * rng  (* the index random.choice picks among n items *)
}.

Section Generator.

Context (R : random_module).

(** [math.exp] *)
Variable py_exp : Q -> Q.

(** [random.uniform(a, b)] is [a + (b - a) * random()]. *)
Definition uniform (a b : Q) (g : rng R) : Q * rng R :=
  let '(u, g) := rng_random R g in (a + (b - a) * u, g).

Definition of_nat (n : nat) : Q := inject_Z (Z.of_nat n).

(** [list.sort()] / [sorted(...)] on numbers: a stable insertion sort. *)
Fixpoint insert_point (x : Q) (l : list Q) : list Q :=
  match l with
  | [] => [x]
  | y :: r => if Qle_bool x y then x :: l else y :: insert_point x r
  end.

Definition sort_points (l : list Q) : list Q := fold_right insert_point [] l.

(** The forward walk [for i in range(1, len(start_points))]: a point
    closer than [cut_duration] to its (already moved) predecessor is
    pushed to [predecessor + cut_duration]. *)
Fixpoint push_apart (cut_duration prev : Q) (rest : list Q) : list Q :=
  match rest with
  | [] => []
  | x :: r =>
      let x := if Qlt_bool (x - prev) cut_duration then prev + cut_duration else x in
      x :: push_apart cut_duration x r
  end.

Definition enforce_spacing (cut_duration : Q) (start_points : list Q) : list Q :=
  match start_points with
  | [] => []
  | x :: r => x :: push_apart cut_duration x r
  end.

(** Loop state of the strategies: the points appended so far and the
    generator. *)
Definition gen_state : Type := list Q * rng R.

Definition simple_step (section_size available_duration cut_duration : Q)
    (st : gen_state) (i : nat) : gen_state :=
  let '(start_points, g) := st in
  let section_start := of_nat i * section_size in
  let section_end := py_min (of_nat (i + 1) * section_size) available_duration in
  let '(start_point, g) :=
    if Qlt_bool section_start section_end then
      let '(random_offset, g) :=
        uniform 0 (py_min (section_end - section_start) (cut_duration * (1 # 2))) g in
      (section_start + random_offset, g)
    else (section_start, g) in
  (start_points ++ [py_max 0 start_point], g).

Definition _simple_variation (available_duration cut_duration : Q) (num_cuts : nat)
    (g : rng R) : gen_state :=
  let section_size := available_duration / of_nat num_cuts in
  let '(start_points, g) :=
    fold_left (simple_step section_size available_duration cut_duration)
              (seq 0 num_cuts) ([], g) in
  (enforce_spacing cut_duration (sort_points start_points), g).

Definition spread_out_step (section_size available_duration : Q)
    (st : gen_state) (i : nat) : gen_state :=
  let '(start_points, g) := st in
  let section_start := of_nat i * section_size in
  let section_end := py_min (of_nat (i + 1) * section_size) available_duration in
  let mid_point := (section_start + section_end) / 2 in
  let '(variation, g) :=
    uniform (- section_size * (3 # 10)) (section_size * (3 # 10)) g in
  let start_point := mid_point + variation in
  (start_points ++ [py_max section_start (py_min start_point section_end)], g).

Definition _spread_out_variation (available_duration cut_duration : Q)
    (num_cuts : nat) (g : rng R) : gen_state :=
  let section_size := available_duration / of_nat num_cuts in
  let '(start_points, g) :=
    fold_left (spread_out_step section_size available_duration)
              (seq 0 num_cuts) ([], g) in
  (sort_points start_points, g).

Definition linear_random_step (base_interval available_duration : Q)
    (st : gen_state) (i : nat) : gen_state :=
  let '(start_points, g) := st in
  let base_point := of_nat (i + 1) * base_interval in
  let '(r, g) := uniform (- (2 # 10)) (2 # 10) g in
  let variation := r * base_interval in
  let start_point := base_point + variation in
  (start_points ++ [py_max 0 (py_min start_point available_duration)], g).

Definition _linear_random_variation (available_duration cut_duration : Q)
    (num_cuts : nat) (g : rng R) : gen_state :=
  let base_interval := available_duration / of_nat (num_cuts + 1) in
  let '(start_points, g) :=
    fold_left (linear_random_step base_interval available_duration)
              (seq 0 num_cuts) ([], g) in
  (sort_points start_points, g).

Definition exponential_point (available_duration : Q) (num_cuts i : nat) : Q :=
  let progress :=
    if (1 <? num_cuts)%nat then of_nat i / of_nat (num_cuts - 1) else 0 in
  let exponential_factor := py_exp (- (2) * progress) in
  let start_point := available_duration * (1 - exponential_factor) in
  py_max 0 start_point.

Definition _exponential_variation (available_duration cut_duration : Q)
    (num_cuts : nat) (g : rng R) : gen_state :=
  (sort_points (map (exponential_point available_duration num_cuts) (seq 0 num_cuts)), g).

Definition cluster_point_step (cluster_start cluster_end cut_duration : Q)
    (cluster_cuts : nat) (st : gen_state) (j : nat) : gen_state :=
  let '(start_points, g) := st in
  let progress := of_nat j / of_nat (Nat.max 1 (cluster_cuts - 1)) in
  let start_point := cluster_start + (cluster_end - cluster_start) * progress in
  let '(variation, g) :=
    uniform (- cut_duration * (3 # 10)) (cut_duration * (3 # 10)) g in
  let start_point := start_point + variation in
  (start_points ++ [py_max cluster_start (py_min start_point cluster_end)], g).

Definition cluster_step (cluster_size available_duration cut_duration : Q)
    (cuts_per_cluster num_cuts : nat) (st : gen_state) (cluster : nat) : gen_state :=
  let cluster_start := of_nat cluster * cluster_size in
  let cluster_end := py_min (of_nat (cluster + 1) * cluster_size) available_duration in
  let cluster_cuts := Nat.min cuts_per_cluster (num_cuts - List.length (fst st)) in
  fold_left (cluster_point_step cluster_start cluster_end cut_duration cluster_cuts)
            (seq 0 cluster_cuts) st.

(** Reached from [_medium_variation] only with [num_cuts > 7], where
    [num_clusters] is 3; with [num_cuts < 2] Python would divide by
    zero. *)
Definition _clustered_variation (available_duration cut_duration : Q)
    (num_cuts : nat) (g : rng R) : gen_state :=
  let num_clusters := Nat.min 3 (num_cuts / 2) in
  let cluster_size := available_duration / of_nat num_clusters in
  let cuts_per_cluster := (num_cuts / num_clusters)%nat in
  let '(start_points, g) :=
    fold_left (cluster_step cluster_size available_duration cut_duration
                 cuts_per_cluster num_cuts)
              (seq 0 num_clusters) ([], g) in
  (sort_points start_points, g).

Inductive pattern := linear_random | exponential | clustered | spread_out.

Definition patterns : list pattern :=
  [linear_random; exponential; clustered; spread_out].

Definition _medium_variation (available_duration cut_duration : Q)
    (num_cuts : nat) (g : rng R) : gen_state :=
  let '(chosen, g) :=
    if (num_cuts <=? 3)%nat then (spread_out, g)
    else if (num_cuts <=? 7)%nat then (linear_random, g)
    else let '(k, g) := rng_below R (List.length patterns) g in
         (nth k patterns spread_out, g) in
  match chosen with
  | linear_random => _linear_random_variation available_duration cut_duration num_cuts g
  | exponential => _exponential_variation available_duration cut_duration num_cuts g
  | clustered => _clustered_variation available_duration cut_duration num_cuts g
  | spread_out => _spread_out_variation available_duration cut_duration num_cuts g
  end.

Definition zone_step (zone_duration available_duration cut_duration : Q)
    (cuts_per_zone num_cuts : nat) (st : gen_state) (zone : nat) : gen_state :=
  let '(start_points, g) := st in
  let zone_start := of_nat zone * zone_duration in
  let zone_end := py_min (of_nat (zone + 1) * zone_duration) available_duration in
  let zone_cuts := Nat.min cuts_per_zone (num_cuts - List.length start_points) in
  if (0 <? zone_cuts)%nat then
    let '(zone_points, g) :=
      _spread_out_variation (zone_end - zone_start) cut_duration zone_cuts g in
    (start_points ++ map (fun p => zone_start + p) zone_points, g)
  else (start_points, g).

(** [while len(start_points) < num_cuts]: rejection sampling.  Python
    loops until enough points are accepted; the model gives up ([None])
    after [fuel] draws. *)
Fixpoint backfill (fuel : nat) (available_duration cut_duration : Q)
    (num_cuts : nat) (start_points : list Q) (g : rng R) : option gen_state :=
  if (List.length start_points <? num_cuts)%nat then
    match fuel with
    | O => None
    | S fuel =>
        let '(random_point, g) := uniform 0 available_duration g in
        let too_close :=
          existsb (fun p => Qlt_bool (Qabs (random_point - p)) (cut_duration * (8 # 10)))
                  start_points in
        backfill fuel available_duration cut_duration num_cuts
                 (if too_close then start_points else start_points ++ [random_point]) g
    end
  else Some (start_points, g).

Definition _advanced_variation (fuel : nat) (available_duration cut_duration : Q)
    (num_cuts : nat) (g : rng R) : option gen_state :=
  let zones := 4%nat in
  let zone_duration := available_duration / of_nat zones in
  let cuts_per_zone := Nat.max 1 (num_cuts / zones) in
  let '(start_points, g) :=
    fold_left (zone_step zone_duration available_duration cut_duration
                 cuts_per_zone num_cuts)
              (seq 0 zones) ([], g) in
  match backfill fuel available_duration cut_duration num_cuts start_points g with
  | None => None
  | Some (start_points, g) =>
      Some (firstn num_cuts (enforce_spacing cut_duration (sort_points start_points)), g)
  end.

(** [generate_varied_start_points].  [processing_count] is
    [self.processing_count]; [g] is the state of the global generator on
    entry.  [None]: the rejection loop of the advanced tier did not
    finish within [fuel] draws. *)
Definition generate_varied_start_points (fuel : nat) (processing_count : Z)
    (total_duration cut_duration : Q) (num_cuts : nat) (g : rng R)
  : option gen_state :=
  if Qle_bool total_duration (cut_duration * 2) then
    Some (if (num_cuts =? 1)%nat then [0] else [0; total_duration - cut_duration], g)
  else
    let available_duration := total_duration - cut_duration in
    if Qle_bool available_duration 0 then Some ([0], g)
    else
      let g := rng_seed R (processing_count + 42) in
      if Qle_bool total_duration 300 then
        Some (_simple_variation available_duration cut_duration num_cuts g)
      else if Qle_bool total_duration 1800 then
        Some (_medium_variation available_duration cut_duration num_cuts g)
      else _advanced_variation fuel available_duration cut_duration num_cuts g.

End Generator.

(* ------------------------------------------------------------------ *)
(** ** Clip planner *)

(** One entry of the list [create_cuts] returns. *)
Record clip := mk_clip {
  clip_id : Z;
  clip_start : Q;
  clip_end : Q;
  clip_transcription : string;
  clip_srt : string
}.

(** The collaborators one run talks to. *)
Record collaborators := {
  (** ffprobe on the source video: its duration, [None] on failure *)
  probe : option Q;
  (** whether ffmpeg produces the cut file of clip [id] from [start] to
      [end]; when it does not, [create_simple_cut] raises *)
  cut_ok : Z -> Q -> Q -> bool;
  (** ffprobe on the cut file of clip [id] *)
  cut_probe : Z -> option Q;
  (** ffmpeg and Whisper on the extract from [start] to [end] *)
  whisper : Q -> Q -> option (string * list segment);
  (** conversion of a number to text *)
  py_repr : Q -> string
}.

(** The clip-count table at the head of [create_cuts], for a positive
    [duration]. *)
Definition choose_num_cuts (total_duration duration : Q) : nat :=
  if Qle_bool total_duration 5 then 1
  else if Qle_bool total_duration duration then 1
  else if Qle_bool total_duration (duration * 3) then 3
  else if Qle_bool total_duration (duration * 5) then 5
  else if Qle_bool total_duration (duration * 10) then 10
  else Nat.min 20 (Z.to_nat (py_int (floor_div total_duration duration))).

(** Loop state of [create_cuts]: the clips appended so far and
    [self._cut_start_times]. *)
Definition cuts_state : Type := list clip * gmap Z Q.

(** One iteration of [for i in range(num_cuts)].  An index past the end
    of [start_points] raises, which the loop catches, and so does a
    failing cut: the iteration is skipped. *)
Definition cut_step (C : collaborators) (total_duration duration : Q)
    (start_points : list Q) (st : cuts_state) (i : nat) : cuts_state :=
  let '(cuts, store) := st in
  let cut_id := (Z.of_nat i + 1)%Z in
  match nth_error start_points i with
  | None => (cuts, store)
  | Some start_time =>
      let end_time := py_min (start_time + duration) total_duration in
      let store := <[cut_id := start_time]> store in
      if Qlt_bool (end_time - start_time) 1 then (cuts, store)
      else if negb (cut_ok C cut_id start_time end_time) then (cuts, store)
      else
        let '(text, segments) :=
          transcribe_segment (py_repr C) (whisper C start_time end_time)
                             start_time end_time in
        let '(text, segments) :=
          if nonempty (strip text) then (text, segments)
          else (default_text cut_id, [mk_segment 0 30 (default_text cut_id)]) in
        let '(srt, store) :=
          create_subtitles (probe C) (cut_probe C cut_id) store
                           (TStructured text segments) cut_id in
        (cuts ++ [mk_clip cut_id start_time end_time text srt], store)
  end.

(** [create_cuts]: the clips returned and the table of start times, or
    [None] when the generator does not finish. *)
Definition create_cuts (R : random_module) (py_exp : Q -> Q) (C : collaborators)
    (fuel : nat) (processing_count : Z) (duration : Q) (store : gmap Z Q) (g : rng R)
  : option cuts_state :=
  let total_duration := video_duration (probe C) in
  let num_cuts := choose_num_cuts total_duration duration in
  match generate_varied_start_points R py_exp fuel processing_count
          total_duration duration num_cuts g with
  | None => None
  | Some (start_points, _) =>
      Some (fold_left (cut_step C total_duration duration start_points)
                      (seq 0 num_cuts) ([], store))
  end.

(* ------------------------------------------------------------------ *)
(** ** Concrete collaborators, used to run the model *)

(** A linear congruential generator standing in for Python's. *)
Definition lcg_next (s : Z) : Z := ((s * 1103515245 + 12345) mod 2147483648)%Z.

Definition lcg : random_module := {|
  rng := Z;
  rng_seed := fun n => (n mod 2147483648)%Z;
  rng_random := fun s => (lcg_next s # 2147483648, lcg_next s);
  rng_below := fun n s => (Z.to_nat (lcg_next s mod Z.of_nat n), lcg_next s)
|}.

(** A stand-in for [math.exp] with values in (0, 1] on [x <= 0]. *)
Definition exp_stub (x : Q) : Q := 1 / (1 - x).

(** Every collaborator succeeds; Whisper hears nothing. *)
Definition quiet (total : Q) : collaborators := {|
  probe := Some total;
  cut_ok := fun _ _ _ => true;
  cut_probe := fun _ => None;
  whisper := fun _ _ => Some (EmptyString, []);
  py_repr := fun _ => "?"
|}.

(* ------------------------------------------------------------------ *)
(** ** Vocabulary of the specification *)

(** A subtitle cue, as the specification describes it. *)
Record cue := mk_cue {
  cue_index : Z;
  cue_start : Q;
  cue_end : Q;
  cue_text : string
}.

(** The cue block of the [.srt] file for one cue. *)
Definition render_cue (c : cue) : string :=
  cue_block (cue_index c) (format_srt_time (cue_start c))
            (format_srt_time (cue_end c)) (cue_text c).

Fixpoint render_cues (cs : list cue) : string :=
  match cs with
  | [] => EmptyString
  | c :: r => render_cue c +:+ render_cues r
  end.

(** The emission rule in the specification's words: a segment yields a
    cue when its cleaned text is non-empty and its relative end lies
    after its relative start. *)
Definition emits_cue (clip_start clip_length : Q) (seg : segment) : bool :=
  nonempty (segment_caption seg)
  && Qlt_bool (relative_start clip_start seg) (relative_end clip_start clip_length seg).

(** The cues of a non-empty segment list in the specification's words:
    the emitting segments in order, numbered from [index]. *)
Fixpoint spec_cues (clip_start clip_length : Q) (index : Z) (segments : list segment)
  : list cue :=
  match segments with
  | [] => []
  | seg :: rest =>
      if emits_cue clip_start clip_length seg
      then mk_cue index (relative_start clip_start seg)
                  (relative_end clip_start clip_length seg)
                  (create_multi_line_subtitle (split (segment_caption seg)))
             :: spec_cues clip_start clip_length (index + 1) rest
      else spec_cues clip_start clip_length index rest
  end.

(** Ascending order, and consecutive points at least [c] apart. *)
Fixpoint ascending (l : list Q) : Prop :=
  match l with
  | x :: ((y :: _) as r) => x <= y /\ ascending r
  | _ => True
  end.

Fixpoint spaced (c : Q) (l : list Q) : Prop :=
  match l with
  | x :: ((y :: _) as r) => x + c <= y /\ spaced c r
  | _ => True
  end.


(** Id, start and end of a clip. *)
Definition clip_span (c : clip) : Z * Q * Q := (clip_id c, clip_start c, clip_end c).

(** What iteration [i] of [create_cuts] plans: nothing past the end of the
    start points, nothing for a clip shorter than one second or a failed
    cut, else the clip with id [i + 1]. *)
Definition planned_span (C : collaborators) (total_duration duration : Q)
    (start_points : list Q) (i : nat) : list (Z * Q * Q) :=
  match nth_error start_points i with
  | None => []
  | Some start_time =>
      let end_time := py_min (start_time + duration) total_duration in
      if Qlt_bool (end_time - start_time) 1 then []
      else if cut_ok C (Z.of_nat i + 1) start_time end_time
           then [((Z.of_nat i + 1)%Z, start_time, end_time)]
           else []
  end.

(** Draws of [random.random()] lie in the unit interval. *)
Definition unit_draws (R : random_module) : Prop :=
  forall g : rng R, 0 <= fst (rng_random R g) /\ fst (rng_random R g) < 1.

Definition nonneg (p : Q) : Prop := 0 <= p.

Definition in_range (lo hi p : Q) : Prop := lo <= p /\ p <= hi.

(** [len(line) > max_chars] *)
Definition too_long (line : string) : bool := (max_chars <? String.length line)%nat.

(** [c not in s] *)
Fixpoint lacks (c : ascii) (s : string) : bool :=
  match s with
  | String d r => negb (Ascii.eqb c d) && lacks c r
  | EmptyString => true
  end.

(** What the re-flow loop keeps true: the lines completed so far and the
    line being filled read, joined by spaces, as the words processed. *)
Definition reflow_invariant (st : reflow_state) (processed : list string) : Prop :=
  join space (flush_line st) = join space processed
  /\ (flush_line st = [] <-> processed = []).

(* ------------------------------------------------------------------ *)
(** ** Sample inputs *)




(** A generator that always draws 1/2. *)
Definition stuck : random_module := {|
  rng := unit;
  rng_seed := fun _ => tt;
  rng_random := fun g => (1 # 2, g);
  rng_below := fun _ g => (0%nat, g)
|}.

(** Collaborators whose second cut fails. *)
Definition fails_second (total : Q) : collaborators := {|
  probe := Some total;
  cut_ok := fun id _ _ => negb (id =? 2)%Z;
  cut_probe := fun _ => None;
  whisper := fun _ _ => Some (EmptyString, []);
  py_repr := fun _ => "?"%string
|}.


Definition uneven_words : list string :=
  ["aaaaaaaaaaaa"; "bbbbbbbbbbbbb"; "c"; "d"]%string.

(* ================================================================== *)
(** * Around the engine: the request handlers and the rest of the processor

    The validation of a request in [app.py], the processing counters,
    the fallback analysis, the cut of a clip and the test
    [create_final_video] applies to a subtitle file.  The file system and
    ffmpeg enter as parameters; a file is modelled by its content. *)

(* ------------------------------------------------------------------ *)
(** ** Request validation ([app.py]) *)

(** The clip length [handle_file_upload] and [handle_url_upload] pass on:
    [if duration not in [15, 30, 60]: duration = 30].  Membership is by
    numeric equality, so the float 30.0 of a JSON body stays. *)
Definition normalize_duration (duration : Q) : Q :=
  if Qeq_bool duration 15 || Qeq_bool duration 30 || Qeq_bool duration 60
  then duration else 30.

(** [str.lower] on one code point below 256: the letters A-Z and the
    accented capitals 192-222, the multiplication sign 215 apart, move up
    by 32. *)
Definition lower_char (c : ascii) : ascii :=
  let n := nat_of_ascii c in
  if ((65 <=? n) && (n <=? 90)
      || (192 <=? n) && (n <=? 222) && negb (n =? 215))%nat
  then ascii_of_nat (n + 32) else c.

Fixpoint lower (s : string) : string :=
  match s with
  | String c r => String (lower_char c) (lower r)
  | EmptyString => EmptyString
  end.

Definition demo_urls : list string :=
  ["demo"; "test"; "https://www.youtube.com/watch?v=demo"; "https://youtu.be/demo"]%string.

(** What [handle_url_upload] does with the [video_url] of the request:
    answer 400, run the demonstration processor, or download from
    YouTube. *)
Inductive url_route :=
| url_missing        (* 400: the URL is required *)
| demo_run
| youtube_download
| url_rejected.      (* 400: not a YouTube URL *)

Definition route_url (video_url : string) : url_route :=
  let video_url := strip video_url in
  if negb (nonempty video_url) then url_missing
  else
    let is_demo :=
      existsb (fun demo_url => contains demo_url (lower video_url)) demo_urls in
    if is_demo then demo_run
    else if negb (String.prefix "https://www.youtube.com/" video_url)
            && negb (String.prefix "https://youtu.be/" video_url)
    then url_rejected
    else youtube_download.

(** [filename.rsplit('.', 1)[1]]: what follows the last dot, [None]
    when there is no dot. *)
Fixpoint after_last_dot (s : string) : option string :=
  match s with
  | String c r =>
      match after_last_dot r with
      | Some t => Some t
      | None => if Ascii.eqb c "." then Some r else None
      end
  | EmptyString => None
  end.

Definition ALLOWED_EXTENSIONS : list string := ["mp4"; "mov"; "avi"; "mkv"]%string.

(** [allowed_file] *)
Definition allowed_file (filename : string) : bool :=
  contains "." filename
  && match after_last_dot filename with
     | Some ext => existsb (String.eqb (lower ext)) ALLOWED_EXTENSIONS
     | None => false
     end.

(** [s.endswith(suffix)] *)
Fixpoint ends_with (suffix s : string) : bool :=
  String.eqb s suffix
  || match s with
     | String _ r => ends_with suffix r
     | EmptyString => false
     end.

(** The extensions [handle_file_upload] lets through. *)
Definition allowed_extensions : list string :=
  ["mp4"; "mov"; "avi"; "mkv"; "webm"]%string.

(** Its test of the file name:
    [filename.lower().endswith(tuple('.' + ext for ext in allowed_extensions))]. *)
Definition upload_extension_ok (filename : string) : bool :=
  existsb (fun ext => ends_with ("." +:+ ext) (lower filename)) allowed_extensions.

(** The validation at the head of [handle_file_upload]. *)
Inductive upload_check :=
| no_file_selected     (* 400 *)
| unsupported_format   (* 400 *)
| upload_accepted.

Definition check_upload (filename : string) : upload_check :=
  if String.eqb filename EmptyString then no_file_selected
  else if negb (upload_extension_ok filename) then unsupported_format
  else upload_accepted.

(* ------------------------------------------------------------------ *)
(** ** Processing counters *)

(** [processing_counters.json] in the output folder: absent, not
    readable as JSON, or an object from video ids to counts. *)
Inductive counter_file :=
| no_file
| broken_file
| counters_file (counters : gmap string Z).

(** [_get_processing_count]; every error gives 0. *)
Definition _get_processing_count (file : counter_file) (video_id : string) : Z :=
  match file with
  | counters_file counters => default 0%Z (counters !! video_id)
  | no_file => 0%Z
  | broken_file => 0%Z
  end.

(** [_increment_processing_count]: the file afterwards, its write taken
    to succeed.  An error on reading is caught before anything is
    written. *)
Definition _increment_processing_count (file : counter_file) (video_id : string)
  : counter_file :=
  match file with
  | broken_file => broken_file
  | no_file => counters_file (<[video_id := (0 + 1)%Z]> ∅)
  | counters_file counters =>
      counters_file (<[video_id := (default 0 (counters !! video_id) + 1)%Z]> counters)
  end.

(* ------------------------------------------------------------------ *)
(** ** Fallback analysis *)






(* ------------------------------------------------------------------ *)
(** ** Cutting and the final video *)







(* ------------------------------------------------------------------ *)
(** ** More vocabulary *)

(** A text with nothing but white space. *)
Fixpoint blank (s : string) : bool :=
  match s with
  | String c r => is_space c && blank r
  | EmptyString => true
  end.

(** The cues of the plain-text branch, from index [i]. *)
Fixpoint plain_cues (time_per_sentence cut_duration : Q) (i : Z)
    (sentences : list string) : list cue :=
  match sentences with
  | [] => []
  | sentence :: rest =>
      mk_cue (i + 1) (fmul (inject_Z i) time_per_sentence)
             (py_min (fmul (inject_Z (i + 1)) time_per_sentence) cut_duration)
             (create_multi_line_subtitle (split sentence))
        :: plain_cues time_per_sentence cut_duration (i + 1) rest
  end.

(** A text without white space. *)
Fixpoint solid (s : string) : bool :=
  match s with
  | String c r => negb (is_space c) && solid r
  | EmptyString => true
  end.

(** The cue [create_subtitles] writes when its content is blank. *)
Definition embedded_cue (cut_duration : Q) (cut_id : Z) : string :=
  full_clip_cue cut_duration
    (default_text cut_id +:+ "\NLegendas embutidas no v" +:+ str1 (chr 237) +:+ "deo").

(* ================================================================== *)
(** * Properties *)

(* ------------------------------------------------------------------ *)
(** ** Numbers *)

Lemma Qlt_bool_iff a b : Qlt_bool a b = true <-> a < b.
Proof.
  unfold Qlt_bool. rewrite negb_true_iff.
  destruct (Qle_bool b a) eqn:E.
  - apply Qle_bool_iff in E. split; [discriminate | intro H; exfalso; lra].
  - split; [intros _ | reflexivity].
    apply Qnot_le_lt. intro H. apply Qle_bool_iff in H. congruence.
Qed.

Lemma Qlt_bool_false a b : Qlt_bool a b = false <-> b <= a.
Proof.
  unfold Qlt_bool. rewrite negb_false_iff. apply Qle_bool_iff.
Qed.

Lemma py_max_spec a b : a <= py_max a b /\ b <= py_max a b /\ (py_max a b = a \/ py_max a b = b).
Proof.
  unfold py_max. destruct (Qlt_bool a b) eqn:E.
  - apply Qlt_bool_iff in E. repeat split; try lra. now right.
  - apply Qlt_bool_false in E. repeat split; try lra. now left.
Qed.

Lemma py_min_spec a b : py_min a b <= a /\ py_min a b <= b /\ (py_min a b = a \/ py_min a b = b).
Proof.
  unfold py_min. destruct (Qlt_bool b a) eqn:E.
  - apply Qlt_bool_iff in E. repeat split; try lra. now right.
  - apply Qlt_bool_false in E. repeat split; try lra. now left.
Qed.

Lemma Qfloor_unique (q : Q) (z : Z) :
  inject_Z z <= q -> q < inject_Z (z + 1) -> Qfloor q = z.
Proof.
  intros Hlo Hhi.
  pose proof (Qfloor_le q) as H1. pose proof (Qlt_floor q) as H2.
  assert (A : (z < Qfloor q + 1)%Z).
  { rewrite Zlt_Qlt. lra. }
  assert (B : (Qfloor q < z + 1)%Z).
  { rewrite Zlt_Qlt. lra. }
  lia.
Qed.

Lemma Qfloor_div_int (q : Q) (k : Z) :
  (0 < k)%Z -> Qfloor (q / inject_Z k) = (Qfloor q / k)%Z.
Proof.
  intro Hk.
  pose proof (Qfloor_le q) as H1. pose proof (Qlt_floor q) as H2.
  pose proof (Z.div_mod (Qfloor q) k ltac:(lia)) as D.
  pose proof (Z.mod_pos_bound (Qfloor q) k Hk) as M.
  set (F := Qfloor q) in *. set (z := (F / k)%Z) in *. set (r := (F mod k)%Z) in *.
  assert (Hk' : 0 < inject_Z k) by (change 0 with (inject_Z 0); rewrite <- Zlt_Qlt; lia).
  assert (EF : inject_Z F == inject_Z k * inject_Z z + inject_Z r).
  { rewrite <- inject_Z_mult, <- inject_Z_plus. now rewrite <- D. }
  assert (R0 : 0 <= inject_Z r) by (change 0 with (inject_Z 0); rewrite <- Zle_Qle; lia).
  assert (R1 : inject_Z r + 1 <= inject_Z k).
  { change 1 with (inject_Z 1). rewrite <- inject_Z_plus, <- Zle_Qle. lia. }
  apply Qfloor_unique.
  - apply Qle_shift_div_l; [exact Hk'|]. rewrite inject_Z_plus in H2. lra.
  - apply Qlt_shift_div_r; [exact Hk'|]. rewrite !inject_Z_plus in *.
    change (inject_Z 1) with 1 in *. nra.
Qed.

Lemma py_int_inject (z : Z) : py_int (inject_Z z) = z.
Proof. unfold py_int. simpl. apply Z.quot_1_r. Qed.

Lemma py_int_floor (q : Q) : 0 <= q -> py_int q = Qfloor q.
Proof.
  intro H. unfold py_int, Qfloor. destruct q as [n d]. simpl.
  apply Z.quot_div_nonneg; [|lia].
  unfold Qle in H. simpl in H. lia.
Qed.


(* ------------------------------------------------------------------ *)
(** ** Rounding and the time formatter *)

Lemma round_b64_proper (p q : Q) : p == q -> round_b64 p = round_b64 q.
Proof. intro H. unfold round_b64. now rewrite (Qred_complete p q H). Qed.

Lemma Qpow2_pos (k : Z) : 0 < Qpow2 k.
Proof.
  unfold Qpow2. destruct (0 <=? k)%Z eqn:E.
  - apply Z.leb_le in E. change 0 with (inject_Z 0). rewrite <- Zlt_Qlt.
    now apply Z.pow_pos_nonneg.
  - reflexivity.
Qed.

Lemma round_half_even_nonneg (q : Q) : 0 <= q -> (0 <= round_half_even q)%Z.
Proof.
  intro H. unfold round_half_even.
  assert (F : (0 <= Qfloor q)%Z).
  { change 0%Z with (Qfloor 0). now apply Qfloor_resp_le. }
  destruct (Qcompare _ _); [destruct (Z.even _)|..]; lia.
Qed.

Lemma round_b64_nonneg (q : Q) : 0 <= q -> 0 <= round_b64 q.
Proof.
  intro H. unfold round_b64.
  assert (Hr : 0 <= Qred q) by now rewrite Qred_correct.
  destruct (Qred q) as [n d] eqn:E. simpl.
  destruct n as [|n|n].
  - lra.
  - unfold round_b64_pos. rewrite Qred_correct.
    apply Qmult_le_0_compat.
    + change 0 with (inject_Z 0). rewrite <- Zle_Qle.
      apply round_half_even_nonneg.
      apply Qle_shift_div_l; [apply Qpow2_pos|]. lra.
    + apply Qlt_le_weak, Qpow2_pos.
  - exfalso. unfold Qle in Hr. simpl in Hr. lia.
Qed.

Lemma Qfloor_sub_int (q : Q) (z : Z) : Qfloor (q - inject_Z z) = (Qfloor q - z)%Z.
Proof.
  pose proof (Qfloor_le q) as H1. pose proof (Qlt_floor q) as H2.
  apply Qfloor_unique.
  - unfold Z.sub. rewrite inject_Z_plus, inject_Z_opp. lra.
  - replace (Qfloor q - z + 1)%Z with ((Qfloor q + 1) + - z)%Z by lia.
    rewrite inject_Z_plus, inject_Z_opp. lra.
Qed.

Lemma format_srt_time_fields (seconds : Q) :
  0 <= seconds ->
  let whole := Qfloor seconds in
  format_srt_time seconds
  = zfill 2 (whole / 3600) +:+ ":" +:+ zfill 2 (whole mod 3600 / 60) +:+ ":"
    +:+ zfill 2 (whole mod 60) +:+ ","
    +:+ zfill 3 (Qfloor (fmul (seconds - inject_Z whole) 1000)).
Proof.
  intros H whole. unfold format_srt_time.
  assert (W : (0 <= whole)%Z).
  { change 0%Z with (Qfloor 0). now apply Qfloor_resp_le. }
  pose proof (Qfloor_le seconds) as H1. fold whole in H1.
  assert (Eh : py_int (floor_div seconds 3600) = (whole / 3600)%Z).
  { unfold floor_div. rewrite py_int_inject.
    change 3600 with (inject_Z 3600). now apply Qfloor_div_int. }
  assert (Em : py_int (floor_div (py_mod seconds 3600) 60) = (whole mod 3600 / 60)%Z).
  { unfold floor_div at 1. rewrite py_int_inject. unfold py_mod, floor_div.
    change 60 with (inject_Z 60) at 1. rewrite Qfloor_div_int by lia.
    change 3600 with (inject_Z 3600). rewrite Qfloor_div_int by lia.
    rewrite <- inject_Z_mult, Qfloor_sub_int. fold whole.
    f_equal. rewrite Z.mod_eq by lia. reflexivity. }
  assert (Es : py_int (py_mod seconds 60) = (whole mod 60)%Z).
  { unfold py_mod, floor_div. change 60 with (inject_Z 60).
    rewrite Qfloor_div_int by lia. fold whole. rewrite <- inject_Z_mult.
    rewrite py_int_floor.
    - rewrite Qfloor_sub_int. fold whole. rewrite Z.mod_eq by lia. reflexivity.
    - pose proof (Z.mul_div_le whole 60 ltac:(lia)) as M.
      rewrite Zle_Qle in M. lra. }
  assert (Ems : py_int (fmul (py_mod seconds 1) 1000)
                = Qfloor (fmul (seconds - inject_Z whole) 1000)).
  { assert (Q1 : py_mod seconds 1 == seconds - inject_Z whole).
    { unfold py_mod, floor_div. change 1 with (inject_Z 1) at 2.
      rewrite Qfloor_div_int by lia. rewrite Z.div_1_r. fold whole. lra. }
    unfold fmul.
    rewrite (round_b64_proper _ ((seconds - inject_Z whole) * 1000))
      by (now rewrite Q1).
    apply py_int_floor, round_b64_nonneg. nra. }
  now rewrite Eh, Em, Es, Ems.
Qed.

(** C8 (amended).  For [seconds >= 0] the hours, minutes and seconds
    printed are those of the whole seconds [floor(seconds)] by integer
    division, and the milliseconds are the integer part of the binary64
    product of the fractional part and 1000.  [format_srt_time(0)] is
    [00:00:00,000].  [format_srt_time(3661.234)] is [01:01:01,233]: the
    float nearest to 3661.234 lies below it, and the milliseconds are
    truncated; only the exact rational 3661.234 would print 234. *)
Theorem format_srt_time_truncates :
  (forall seconds : Q, 0 <= seconds ->
     let whole := Qfloor seconds in
     format_srt_time seconds
     = zfill 2 (whole / 3600) +:+ ":" +:+ zfill 2 (whole mod 3600 / 60) +:+ ":"
       +:+ zfill 2 (whole mod 60) +:+ ","
       +:+ zfill 3 (Qfloor (fmul (seconds - inject_Z whole) 1000)))
  /\ format_srt_time 0 = "00:00:00,000"%string
  /\ format_srt_time (py_float (3661234 # 1000)) = "01:01:01,233"%string
  /\ format_srt_time (3661234 # 1000) = "01:01:01,234"%string.
Proof.
  split; [|repeat split; vm_compute; reflexivity].
  intros seconds H. apply (format_srt_time_fields seconds H).
Qed.

Lemma format_srt_time_truncates_witness :
  0 <= 14645 # 4
  /\ let whole := Qfloor (14645 # 4) in
     format_srt_time (14645 # 4)
     = zfill 2 (whole / 3600) +:+ ":" +:+ zfill 2 (whole mod 3600 / 60) +:+ ":"
       +:+ zfill 2 (whole mod 60) +:+ ","
       +:+ zfill 3 (Qfloor (fmul ((14645 # 4) - inject_Z whole) 1000)).
Proof.
  assert (H : 0 <= 14645 # 4) by discriminate.
  split; [exact H|].
  exact (proj1 format_srt_time_truncates (14645 # 4) H).
Defined.

(** C8, counterexample.  The stamp of the float 3661.234 is not
    [01:01:01,234]. *)
Lemma stamp_of_3661_234_is_not_234 :
  format_srt_time (py_float (3661234 # 1000)) <> "01:01:01,234"%string.
Proof. vm_compute. intro H. discriminate H. Qed.


(* ------------------------------------------------------------------ *)
(** ** Subtitle synchronizer *)

(** *** Start-time table *)

Lemma get_cut_start_time_stored probe (store : gmap Z Q) cut_id v :
  store !! cut_id = Some v -> get_cut_start_time probe store cut_id = (v, store).
Proof. intro H. unfold get_cut_start_time. now rewrite H. Qed.

Lemma get_cut_start_time_stable probe (store : gmap Z Q) cut_id :
  get_cut_start_time probe (snd (get_cut_start_time probe store cut_id)) cut_id
  = get_cut_start_time probe store cut_id.
Proof.
  unfold get_cut_start_time at 2 3.
  destruct (store !! cut_id) as [v|] eqn:E; simpl.
  - now apply get_cut_start_time_stored.
  - destruct (Qle_bool (video_duration probe - 30) 0) eqn:A; simpl.
    + unfold get_cut_start_time. now rewrite E, A.
    + apply get_cut_start_time_stored, lookup_insert_eq.
Qed.

(** C9.  For a clip id with no stored start time, [get_cut_start_time]
    returns 0 and stores nothing when the video is not longer than 30 s;
    otherwise it returns [(cut_id - 1) * 30] capped at
    [total_duration - 30], stores it under the id, and every later lookup
    of the id returns the stored value, whatever the probe then says. *)
Theorem get_cut_start_time_fallback probe (store : gmap Z Q) (cut_id : Z) :
  store !! cut_id = None ->
  let total_duration := video_duration probe in
  let r := get_cut_start_time probe store cut_id in
  (total_duration - 30 <= 0 -> r = (0, store))
  /\ (0 < total_duration - 30 ->
      fst r = py_min (inject_Z (cut_id - 1) * 30) (total_duration - 30)
      /\ fst r <= inject_Z (cut_id - 1) * 30
      /\ fst r <= total_duration - 30
      /\ snd r = <[cut_id := fst r]> store
      /\ forall probe', get_cut_start_time probe' (snd r) cut_id = (fst r, snd r)).
Proof.
  intros E total_duration r. subst r total_duration.
  unfold get_cut_start_time. rewrite E.
  split; intro H.
  - apply Qle_bool_iff in H. now rewrite H.
  - destruct (Qle_bool (video_duration probe - 30) 0) eqn:A.
    { apply Qle_bool_iff in A. lra. }
    simpl.
    pose proof (py_min_spec (inject_Z (cut_id - 1) * 30) (video_duration probe - 30))
      as (M1 & M2 & _).
    repeat split; auto.
    intro probe'. now rewrite lookup_insert_eq.
Qed.

Lemma get_cut_start_time_fallback_witness :
  (∅ : gmap Z Q) !! 5%Z = None
  /\ 0 < video_duration (Some 100) - 30
  /\ fst (get_cut_start_time (Some 100) ∅ 5)
     = py_min (inject_Z (5 - 1) * 30) (video_duration (Some 100) - 30).
Proof.
  assert (H1 : (∅ : gmap Z Q) !! 5%Z = None) by reflexivity.
  assert (H2 : 0 < video_duration (Some 100) - 30) by reflexivity.
  split; [exact H1 | split; [exact H2|]].
  exact (proj1 (proj2 (get_cut_start_time_fallback (Some 100) ∅ 5 H1) H2)).
Defined.

(** *** Strings *)

Lemma append_cons (c : ascii) (a b : string) : String c a +:+ b = String c (a +:+ b).
Proof. reflexivity. Qed.

Lemma append_assoc (a b c : string) : (a +:+ b) +:+ c = a +:+ (b +:+ c).
Proof.
  induction a as [|x a IH]; [reflexivity|]. now rewrite !append_cons, IH.
Qed.

Lemma append_empty_r (a : string) : a +:+ EmptyString = a.
Proof.
  induction a as [|x a IH]; [reflexivity|]. now rewrite append_cons, IH.
Qed.

(** *** The loop over the segments *)

Lemma segment_step_eq probe clip_length cut_id clip_start (store s1 : gmap Z Q)
    acc index seg :
  get_cut_start_time probe store cut_id = (clip_start, s1) ->
  segment_step probe clip_length cut_id (mk_srt acc index store) seg
  = if emits_cue clip_start clip_length seg
    then mk_srt (acc +:+ render_cue
                   (mk_cue index (relative_start clip_start seg)
                      (relative_end clip_start clip_length seg)
                      (create_multi_line_subtitle (split (segment_caption seg)))))
                (index + 1) s1
    else mk_srt acc index s1.
Proof.
  intro G. unfold segment_step. cbn [cut_times srt_content subtitle_id].
  rewrite G. reflexivity.
Qed.

Lemma segment_loop_stable probe clip_length cut_id clip_start (store : gmap Z Q) :
  get_cut_start_time probe store cut_id = (clip_start, store) ->
  forall segments acc index,
    fold_left (segment_step probe clip_length cut_id) segments (mk_srt acc index store)
    = mk_srt (acc +:+ render_cues (spec_cues clip_start clip_length index segments))
             (index + Z.of_nat (List.length (spec_cues clip_start clip_length index segments)))
             store.
Proof.
  intros G segments. induction segments as [|seg rest IH]; intros acc index.
  - cbn [fold_left spec_cues render_cues List.length]. rewrite append_empty_r.
    f_equal. cbn. lia.
  - cbn [fold_left]. rewrite (segment_step_eq _ _ _ _ _ _ _ _ _ G).
    cbn [spec_cues].
    destruct (emits_cue clip_start clip_length seg).
    + rewrite IH. cbn [render_cues List.length]. rewrite append_assoc.
      f_equal. lia.
    + now rewrite IH.
Qed.

Lemma segment_loop probe clip_length cut_id (store : gmap Z Q) segments :
  segments <> [] ->
  let clip_start := fst (get_cut_start_time probe store cut_id) in
  fold_left (segment_step probe clip_length cut_id) segments (mk_srt EmptyString 1 store)
  = mk_srt (render_cues (spec_cues clip_start clip_length 1 segments))
           (1 + Z.of_nat (List.length (spec_cues clip_start clip_length 1 segments)))
           (snd (get_cut_start_time probe store cut_id)).
Proof.
  intros NE clip_start.
  pose proof (get_cut_start_time_stable probe store cut_id) as S.
  destruct (get_cut_start_time probe store cut_id) as [c s1] eqn:G.
  cbn [fst snd] in *. subst clip_start.
  destruct segments as [|seg rest]; [congruence|].
  cbn [fold_left]. rewrite (segment_step_eq _ _ _ _ _ _ _ _ _ G).
  cbn [spec_cues].
  destruct (emits_cue c clip_length seg).
  - rewrite (segment_loop_stable probe clip_length cut_id c s1 S).
    cbn [render_cues List.length]. f_equal; try reflexivity; lia.
  - now rewrite (segment_loop_stable probe clip_length cut_id c s1 S).
Qed.






(** *** Empty structured transcription *)


Lemma create_subtitles_empty_plain probe (store : gmap Z Q) :
  fst (create_subtitles probe None store (TPlain EmptyString) 1)
  = "1" +:+ nl +:+ "00:00:00,000 --> 00:00:30,000" +:+ nl
    +:+ auto_transcription +:+ "\Ndo corte 1" +:+ nl +:+ nl.
Proof. vm_compute. reflexivity. Qed.

(** *** The closing checks *)

Lemma rev_string_app (s : string) : forall acc,
  rev_string acc s = rev_string EmptyString s +:+ acc.
Proof.
  induction s as [|c r IH]; intro acc; [reflexivity|].
  cbn [rev_string]. rewrite (IH (String c acc)), (IH (String c EmptyString)).
  now rewrite append_assoc.
Qed.

Lemma split_on_first (c : ascii) (s : string) : forall cur,
  exists tail fields,
    split_on c cur s = (rev_string EmptyString cur +:+ tail) :: fields.
Proof.
  induction s as [|d r IH]; intro cur; cbn [split_on].
  - exists EmptyString, []. now rewrite append_empty_r.
  - destruct (Ascii.eqb c d).
    + exists EmptyString. eexists. now rewrite append_empty_r.
    + destruct (IH (String d cur)) as (tail & fields & E).
      exists (String d tail), fields. rewrite E. cbn [rev_string].
      rewrite (rev_string_app cur (String d EmptyString)).
      now rewrite append_assoc.
Qed.

Lemma split_on_prefix_field (c : ascii) (p : string) : forall cur rest,
  lacks c p = true ->
  exists tail fields,
    split_on c cur (p +:+ rest) = (rev_string EmptyString cur +:+ p +:+ tail) :: fields.
Proof.
  induction p as [|d p IH]; intros cur rest L.
  - apply split_on_first.
  - cbn [lacks] in L. apply andb_true_iff in L. destruct L as [Ld Lp].
    apply negb_true_iff in Ld.
    rewrite append_cons. cbn [split_on]. rewrite Ld.
    destruct (IH (String d cur) rest Lp) as (tail & fields & E).
    exists tail, fields. rewrite E. cbn [rev_string].
    rewrite (rev_string_app cur (String d EmptyString)).
    now rewrite append_assoc.
Qed.

Lemma prefix_empty (s : string) : String.prefix EmptyString s = true.
Proof. destruct s; reflexivity. Qed.

Lemma prefix_append (a : string) : forall n b,
  String.prefix n a = true -> String.prefix n (a +:+ b) = true.
Proof.
  induction a as [|y a IH]; intros n b H.
  - destruct n; [apply prefix_empty | discriminate].
  - destruct n as [|x n]; [reflexivity|].
    rewrite append_cons. cbn [String.prefix] in *.
    destruct (ascii_dec x y); [now apply IH | discriminate].
Qed.

Lemma contains_eq (n s : string) :
  contains n s
  = String.prefix n s
    || match s with String _ r => contains n r | EmptyString => false end.
Proof. destruct s; reflexivity. Qed.

Lemma contains_append (n a : string) : forall b,
  contains n a = true -> contains n (a +:+ b) = true.
Proof.
  induction a as [|y a IH]; intros b H; rewrite contains_eq in H;
    apply orb_true_iff in H.
  - destruct H as [H|H]; [|discriminate].
    rewrite contains_eq. now rewrite (prefix_append EmptyString n b H).
  - rewrite contains_eq. destruct H as [H|H].
    + now rewrite (prefix_append (String y a) n b H).
    + rewrite append_cons. rewrite (IH b H). apply orb_true_r.
Qed.

Lemma full_clip_cue_has_marker (cut_duration : Q) (text : string) :
  has_time_marker (full_clip_cue cut_duration text) = true.
Proof.
  unfold has_time_marker, split_char.
  change (full_clip_cue cut_duration text)
    with (String "1" (String (chr 10)
            ("00:00:00,000 --> "
             +:+ (format_srt_time cut_duration +:+ nl +:+ text +:+ nl +:+ nl)))).
  cbn [split_on].
  change (Ascii.eqb (chr 10) "1") with false.
  change (Ascii.eqb (chr 10) (chr 10)) with true. cbv iota.
  cbn [existsb].
  destruct (split_on_prefix_field (chr 10) "00:00:00,000 --> " EmptyString
              (format_srt_time cut_duration +:+ nl +:+ text +:+ nl +:+ nl)
              eq_refl) as (tail & fields & E).
  rewrite E. cbn [existsb].
  change (rev_string EmptyString EmptyString +:+ "00:00:00,000 --> " +:+ tail)
    with ("00:00:00,000 --> " +:+ tail).
  rewrite (contains_append "-->" "00:00:00,000 --> " tail eq_refl).
  apply orb_true_r.
Qed.

Lemma finalize_srt_has_marker cut_duration cut_id content :
  has_time_marker (finalize_srt cut_duration cut_id content) = true.
Proof.
  unfold finalize_srt. cbv zeta.
  match goal with
  | |- has_time_marker (if has_time_marker ?c then _ else _) = true =>
      destruct (has_time_marker c) eqn:E
  end; [exact E | apply full_clip_cue_has_marker].
Qed.

(** X1.  Whatever it is given, [create_subtitles] writes a text with a line
    holding the time-range marker; in particular the text is not empty. *)
Lemma create_subtitles_has_marker probe cut_probe (store : gmap Z Q) data cut_id :
  has_time_marker (fst (create_subtitles probe cut_probe store data cut_id)) = true
  /\ fst (create_subtitles probe cut_probe store data cut_id) <> EmptyString.
Proof.
  assert (M : has_time_marker
                (fst (create_subtitles probe cut_probe store data cut_id)) = true).
  { unfold create_subtitles.
    destruct (match match data with TNone => _ | TPlain _ => _ | TStructured _ _ => _ end
              with TNone => _ | TPlain _ => _ | TStructured _ _ => _ end)
      as [content store'].
    cbn [fst]. apply finalize_srt_has_marker. }
  split; [exact M|]. intro E. rewrite E in M. discriminate M.
Qed.

(** *** Shift and un-shift of the timestamps *)







(* ------------------------------------------------------------------ *)
(** ** Text segmenter *)

Lemma thirds_recompose {A} (words : list A) (a b : nat) :
  (a <= b)%nat ->
  firstn a words ++ skipn a (firstn b words) ++ skipn b words = words.
Proof.
  intro H. rewrite app_assoc.
  assert (E : firstn a words = firstn a (firstn b words)).
  { rewrite firstn_firstn. f_equal. lia. }
  rewrite E, firstn_skipn. apply firstn_skipn.
Qed.

Lemma merge_last_two_length (ls : list string) :
  (2 <= List.length ls)%nat ->
  List.length (merge_last_two ls) = (List.length ls - 1)%nat.
Proof.
  induction ls as [|a [|b [|c r]] IH]; cbn [List.length]; intro H; try lia.
  - reflexivity.
  - change (merge_last_two (a :: b :: c :: r)) with (a :: merge_last_two (b :: c :: r)).
    cbn [List.length] in *. rewrite IH; lia.
Qed.

Lemma merge_to_three_length (fuel : nat) : forall ls : list string,
  (List.length ls <= fuel + 3)%nat ->
  (List.length (merge_to_three fuel ls) <= 3)%nat.
Proof.
  induction fuel as [|f IH]; intros ls H.
  - unfold merge_to_three.
    destruct (3 <? List.length ls)%nat eqn:E; [apply Nat.ltb_lt in E|apply Nat.ltb_ge in E]; lia.
  - cbn [merge_to_three].
    destruct (3 <? List.length ls)%nat eqn:E; [apply Nat.ltb_lt in E|apply Nat.ltb_ge in E; lia].
    apply IH. rewrite merge_last_two_length; lia.
Qed.

Lemma merge_to_three_short (fuel : nat) (ls : list string) :
  (List.length ls <= 3)%nat -> merge_to_three fuel ls = ls.
Proof.
  intro H. destruct fuel; cbn [merge_to_three];
    destruct (3 <? List.length ls)%nat eqn:E; try reflexivity;
    apply Nat.ltb_lt in E; lia.
Qed.

Lemma join_cons (sep a : string) (l : list string) :
  l <> [] -> join sep (a :: l) = a +:+ sep +:+ join sep l.
Proof. destruct l; [congruence | reflexivity]. Qed.

Lemma join_snoc (sep x : string) (l : list string) :
  l <> [] -> join sep (l ++ [x]) = join sep l +:+ sep +:+ x.
Proof.
  induction l as [|a [|b r] IH]; intro NE; [congruence | reflexivity|].
  change ((a :: b :: r) ++ [x]) with (a :: ((b :: r) ++ [x])).
  rewrite join_cons by (destruct r; discriminate).
  rewrite IH by discriminate.
  rewrite (join_cons sep a (b :: r)) by discriminate.
  now rewrite !append_assoc.
Qed.

Lemma join_snoc_append (sep x y : string) (l : list string) :
  join sep (l ++ [x +:+ y]) = join sep (l ++ [x]) +:+ y.
Proof.
  destruct l as [|a r]; [reflexivity|].
  rewrite !join_snoc by discriminate. now rewrite !append_assoc.
Qed.

Lemma flush_line_snoc (ls cur : list string) (n : nat) (w : string) :
  flush_line (mk_reflow ls (cur ++ [w]) n) = ls ++ [join space (cur ++ [w])].
Proof. unfold flush_line. cbn [current_line lines]. now destruct cur. Qed.

Lemma reflow_step_invariant (st : reflow_state) (processed : list string) (w : string) :
  reflow_invariant st processed ->
  reflow_invariant (reflow_step st w) (processed ++ [w]).
Proof.
  intros [HJ HE]. unfold reflow_step.
  destruct (_ && _)%bool.
  - split.
    + rewrite flush_line_snoc.
      destruct st as [ls [|c cur] n]; unfold flush_line in *; cbn [current_line lines] in *.
      * cbn [app join]. destruct ls as [|l ls].
        -- assert (processed = []) as -> by now apply HE. reflexivity.
        -- assert (NE : processed <> []) by (intro X; apply HE in X; discriminate).
           rewrite !join_snoc by (discriminate || assumption). now rewrite HJ.
      * assert (NE : processed <> []).
        { intro X. apply HE in X. destruct ls; discriminate. }
        rewrite (join_snoc space w (c :: cur)) by discriminate.
        rewrite join_snoc_append, HJ.
        now rewrite (join_snoc space w processed NE).
    + rewrite flush_line_snoc. split; intro X.
      * destruct (lines st); discriminate.
      * destruct processed; discriminate.
  - split.
    + unfold flush_line at 1. cbn [current_line lines join].
      destruct (flush_line st) as [|l ls] eqn:F.
      * assert (processed = []) as -> by now apply HE. reflexivity.
      * assert (NE : processed <> []) by (intro X; apply HE in X; discriminate).
        rewrite !join_snoc by (discriminate || assumption). now rewrite HJ.
    + unfold flush_line at 1. cbn [current_line lines]. split; intro X.
      * destruct (flush_line st); discriminate.
      * destruct processed; discriminate.
Qed.

Lemma reflow_loop_invariant (words : list string) : forall st processed,
  reflow_invariant st processed ->
  reflow_invariant (fold_left reflow_step words st) (processed ++ words).
Proof.
  induction words as [|w ws IH]; intros st processed H.
  - now rewrite app_nil_r.
  - cbn [fold_left]. replace (processed ++ w :: ws) with ((processed ++ [w]) ++ ws)
      by now rewrite <- app_assoc.
    apply IH, reflow_step_invariant, H.
Qed.

Lemma merge_last_two_text (ls : list string) :
  (2 <= List.length ls)%nat ->
  join space (merge_last_two ls) = join space ls.
Proof.
  induction ls as [|a [|b [|c r]] IH]; cbn [List.length]; intro H; try lia.
  - reflexivity.
  - change (merge_last_two (a :: b :: c :: r)) with (a :: merge_last_two (b :: c :: r)).
    assert (NE : merge_last_two (b :: c :: r) <> []).
    { intro X. apply (f_equal (@List.length string)) in X.
      rewrite merge_last_two_length in X by (cbn [List.length]; lia).
      cbn [List.length] in X. lia. }
    rewrite join_cons by exact NE.
    rewrite IH by (cbn [List.length]; lia).
    now rewrite (join_cons space a (b :: c :: r)) by discriminate.
Qed.

Lemma merge_to_three_text (fuel : nat) : forall ls : list string,
  join space (merge_to_three fuel ls) = join space ls.
Proof.
  induction fuel as [|f IH]; intro ls; cbn [merge_to_three];
    destruct (3 <? List.length ls)%nat eqn:E; try reflexivity.
  apply Nat.ltb_lt in E. rewrite IH. apply merge_last_two_text. lia.
Qed.

(** Re-flowing moves the line breaks only: read with spaces for line
    breaks, the lines are the words in their order. *)
Lemma reflow_keeps_text (words : list string) :
  join space (reflow words) = join space words.
Proof.
  unfold reflow. rewrite merge_to_three_text.
  pose proof (reflow_loop_invariant words (mk_reflow [] [] 0) []) as H.
  cbn [app] in H. apply H. split; [reflexivity | tauto].
Qed.

Lemma reflow_length (words : list string) : (List.length (reflow words) <= 3)%nat.
Proof. unfold reflow. apply merge_to_three_length. lia. Qed.

Lemma create_multi_line_subtitle_eq (words : list string) :
  words <> [] ->
  create_multi_line_subtitle words =
    let text := join space words in
    let total_words := List.length words in
    let line1_words := firstn (total_words / 3) words in
    let line2_words := skipn (total_words / 3) (firstn (total_words * 2 / 3) words) in
    let line3_words := skipn (total_words * 2 / 3) words in
    let line1 := join space line1_words in
    let line2 := join space line2_words in
    let line3 := join space line3_words in
    if (String.length text <=? 20)%nat then text
    else if (String.length text <=? 40)%nat then
      join space (firstn (total_words / 2) words) +:+ line_break
        +:+ join space (skipn (total_words / 2) words)
    else if too_long line1 || too_long line2 || too_long line3
         then join line_break (reflow words)
         else line1 +:+ line_break +:+ line2 +:+ line_break +:+ line3.
Proof.
  intro NE. destruct words as [|w ws]; [congruence|].
  unfold create_multi_line_subtitle. cbv zeta.
  rewrite thirds_recompose by (apply Nat.Div0.div_le_mono; lia).
  reflexivity.
Qed.





(* ------------------------------------------------------------------ *)
(** ** Lists of points *)

(** *** Loops over [range(n)] *)

Lemma fold_seq_invariant {S : Type} (Inv : nat -> S -> Prop) (step : S -> nat -> S) :
  forall (n a : nat) (s0 : S),
    Inv a s0 ->
    (forall i s, (a <= i < a + n)%nat -> Inv i s -> Inv (Datatypes.S i) (step s i)) ->
    Inv (a + n)%nat (fold_left step (seq a n) s0).
Proof.
  induction n as [|n IH]; intros a s0 H0 Hstep.
  - now rewrite Nat.add_0_r.
  - cbn [seq fold_left]. replace (a + Datatypes.S n)%nat with (Datatypes.S a + n)%nat by lia.
    apply IH.
    + apply Hstep; [lia | exact H0].
    + intros i s Hi. apply Hstep. lia.
Qed.

(** *** Sorting *)

Lemma ascending_cons (x : Q) (l : list Q) :
  ascending (x :: l) <-> match l with [] => True | y :: _ => x <= y /\ ascending l end.
Proof. destruct l; simpl; tauto. Qed.

Lemma spaced_cons (c x : Q) (l : list Q) :
  spaced c (x :: l) <-> match l with [] => True | y :: _ => x + c <= y /\ spaced c l end.
Proof. destruct l; simpl; tauto. Qed.

Lemma insert_point_Forall (P : Q -> Prop) (x : Q) (l : list Q) :
  P x -> Forall P l -> Forall P (insert_point x l).
Proof.
  intros Hx Hl. induction Hl as [|y r Hy Hr IH]; cbn [insert_point].
  - now constructor.
  - destruct (Qle_bool x y); repeat constructor; auto.
Qed.

Lemma insert_point_length (x : Q) (l : list Q) :
  List.length (insert_point x l) = Datatypes.S (List.length l).
Proof.
  induction l as [|y r IH]; cbn [insert_point]; [reflexivity|].
  destruct (Qle_bool x y); cbn [List.length]; now rewrite ?IH.
Qed.

Lemma insert_point_ascending (x : Q) (l : list Q) :
  ascending l -> ascending (insert_point x l).
Proof.
  induction l as [|y r IH]; intro H; cbn [insert_point]; [exact I|].
  destruct (Qle_bool x y) eqn:E.
  - apply Qle_bool_iff in E. apply ascending_cons. split; assumption.
  - assert (Hyx : y <= x).
    { destruct (Qlt_le_dec y x) as [L|L]; [lra|]. apply Qle_bool_iff in L. congruence. }
    apply ascending_cons in H. apply ascending_cons.
    destruct r as [|z r'].
    + cbn [insert_point]. split; [exact Hyx | exact I].
    + destruct H as [Hyz Hr]. specialize (IH Hr). cbn [insert_point] in *.
      destruct (Qle_bool x z); split; auto.
Qed.

Lemma sort_points_Forall (P : Q -> Prop) (l : list Q) :
  Forall P l -> Forall P (sort_points l).
Proof.
  intro H. induction H as [|x r Hx Hr IH]; cbn [sort_points fold_right].
  - constructor.
  - apply insert_point_Forall; assumption.
Qed.

Lemma sort_points_length (l : list Q) : List.length (sort_points l) = List.length l.
Proof.
  induction l as [|x r IH]; [reflexivity|].
  cbn [sort_points fold_right]. rewrite insert_point_length. cbn [List.length].
  f_equal. exact IH.
Qed.

Lemma sort_points_ascending (l : list Q) : ascending (sort_points l).
Proof.
  induction l as [|x r IH]; [exact I|].
  cbn [sort_points fold_right]. now apply insert_point_ascending.
Qed.

(** *** Minimum spacing *)

Lemma push_apart_length (c prev : Q) (l : list Q) :
  List.length (push_apart c prev l) = List.length l.
Proof.
  revert prev. induction l as [|x r IH]; intro prev; [reflexivity|].
  cbn [push_apart List.length]. now rewrite IH.
Qed.

Lemma enforce_spacing_length (c : Q) (l : list Q) :
  List.length (enforce_spacing c l) = List.length l.
Proof. destruct l; [reflexivity|]. cbn [enforce_spacing List.length]. now rewrite push_apart_length. Qed.

Lemma push_apart_spaced (c : Q) (l : list Q) : forall prev,
  spaced c (prev :: push_apart c prev l).
Proof.
  induction l as [|x r IH]; intro prev; [exact I|].
  cbn [push_apart]. apply spaced_cons. split; [|apply IH].
  destruct (Qlt_bool (x - prev) c) eqn:E.
  - lra.
  - apply Qlt_bool_false in E. lra.
Qed.

Lemma enforce_spacing_spaced (c : Q) (l : list Q) : spaced c (enforce_spacing c l).
Proof. destruct l; [exact I|]. apply push_apart_spaced. Qed.

Lemma push_apart_lower (c lo : Q) (l : list Q) : forall prev,
  Forall (fun p => lo <= p) l -> Forall (fun p => lo <= p) (push_apart c prev l).
Proof.
  induction l as [|x r IH]; intros prev H; [constructor|].
  inversion H as [|? ? Hx Hr]; subst. cbn [push_apart].
  constructor; [|now apply IH].
  destruct (Qlt_bool (x - prev) c) eqn:E; [|exact Hx].
  apply Qlt_bool_iff in E. lra.
Qed.

Lemma enforce_spacing_lower (c lo : Q) (l : list Q) :
  Forall (fun p => lo <= p) l -> Forall (fun p => lo <= p) (enforce_spacing c l).
Proof.
  destruct l as [|x r]; intro H; [constructor|].
  inversion H; subst. constructor; [assumption|]. now apply push_apart_lower.
Qed.


Lemma spaced_firstn (c : Q) (n : nat) : forall l, spaced c l -> spaced c (firstn n l).
Proof.
  induction n as [|n IH]; intros l H; [exact I|].
  destruct l as [|x r]; [exact I|]. cbn [firstn].
  apply spaced_cons in H. apply spaced_cons.
  destruct r as [|y r']; [now destruct n|].
  destruct H as [H1 H2]. specialize (IH _ H2).
  destruct n as [|n']; [exact I|]. cbn [firstn] in *. split; assumption.
Qed.

Lemma of_nat_S (i : nat) : of_nat (Datatypes.S i) == of_nat i + 1.
Proof.
  unfold of_nat. rewrite Nat2Z.inj_succ. unfold Z.succ.
  rewrite inject_Z_plus. reflexivity.
Qed.

Lemma of_nat_0 : of_nat 0 == 0.
Proof. reflexivity. Qed.

Lemma of_nat_nonneg (i : nat) : 0 <= of_nat i.
Proof. unfold of_nat. change 0 with (inject_Z 0). rewrite <- Zle_Qle. lia. Qed.

Lemma of_nat_le (i j : nat) : (i <= j)%nat -> of_nat i <= of_nat j.
Proof. intro H. unfold of_nat. rewrite <- Zle_Qle. lia. Qed.

Lemma of_nat_pos (i : nat) : (0 < i)%nat -> 0 < of_nat i.
Proof. intro H. unfold of_nat. change 0 with (inject_Z 0). rewrite <- Zlt_Qlt. lia. Qed.

Lemma spaced_nth (c : Q) : forall (l : list Q) (i : nat) (p lo : Q),
  spaced c l ->
  match l with x :: _ => lo <= x | [] => True end ->
  nth_error l i = Some p -> lo + of_nat i * c <= p.
Proof.
  induction l as [|x r IH]; intros i p lo Hs Hl Hn.
  - destruct i; discriminate.
  - destruct i as [|i].
    + cbn [nth_error] in Hn. injection Hn as <-. rewrite of_nat_0. lra.
    + cbn [nth_error] in Hn. apply spaced_cons in Hs.
      destruct r as [|y r']; [destruct i; discriminate|].
      destruct Hs as [H1 H2].
      specialize (IH i p (lo + c) H2 ltac:(lra) Hn).
      rewrite of_nat_S. lra.
Qed.


(* ------------------------------------------------------------------ *)
(** ** Variation strategies *)

Lemma clamp_within (a b x : Q) :
  a <= b -> a <= py_max a (py_min x b) /\ py_max a (py_min x b) <= b.
Proof.
  intro H.
  destruct (py_max_spec a (py_min x b)) as (M1 & M2 & [M3|M3]);
  destruct (py_min_spec x b) as (N1 & N2 & N3); rewrite M3 in *; lra.
Qed.

Lemma section_bounds (A : Q) (n i : nat) :
  0 <= A -> (i < n)%nat ->
  let size := A / of_nat n in
  let lo := of_nat i * size in
  let hi := py_min (of_nat (i + 1) * size) A in
  0 <= lo /\ lo <= hi /\ hi <= A.
Proof.
  intros HA Hi size lo hi.
  assert (Hn : 0 < of_nat n) by (apply of_nat_pos; lia).
  assert (Hs : size * of_nat n == A) by (unfold size; field; lra).
  assert (Hs0 : 0 <= size).
  { unfold size. apply Qle_shift_div_l; lra. }
  pose proof (of_nat_nonneg i) as Hi0.
  assert (Hi1 : of_nat (i + 1) == of_nat i + 1).
  { rewrite Nat.add_1_r. apply of_nat_S. }
  assert (Hi2 : of_nat i + 1 <= of_nat n).
  { rewrite <- Hi1. apply of_nat_le. lia. }
  assert (L : lo <= A) by (unfold lo; nra).
  destruct (py_min_spec (of_nat (i + 1) * size) A) as (N1 & N2 & [N3|N3]);
    fold hi in N1, N2, N3.
  - repeat split; [unfold lo; nra | rewrite N3, Hi1; unfold lo; nra | exact N2].
  - repeat split; [unfold lo; nra | rewrite N3; exact L | exact N2].
Qed.

Section Strategies.

Context (R : random_module).
Variable py_exp : Q -> Q.

Lemma uniform_nonneg (b : Q) (g : rng R) :
  unit_draws R -> 0 <= b -> 0 <= fst (uniform R 0 b g).
Proof.
  intros U Hb. unfold uniform. specialize (U g).
  destruct (rng_random R g) as [u g']. cbn [fst] in *. nra.
Qed.

Lemma simple_step_fst section_size A c pts g i :
  exists x, fst (simple_step R section_size A c (pts, g) i) = pts ++ [py_max 0 x].
Proof.
  unfold simple_step.
  destruct (Qlt_bool _ _).
  - destruct (uniform R 0 _ g) as [o g']. eexists. reflexivity.
  - eexists. reflexivity.
Qed.

Lemma simple_points_props section_size A c n g :
  let pts := fst (fold_left (simple_step R section_size A c) (seq 0 n) ([], g)) in
  List.length pts = n /\ Forall nonneg pts.
Proof.
  apply (fold_seq_invariant
           (fun i (st : gen_state R) => List.length (fst st) = i /\ Forall nonneg (fst st))
           (simple_step R section_size A c) n 0%nat).
  - split; [reflexivity | constructor].
  - intros i [pts g0] _ [HL HF]. cbn [fst] in *.
    destruct (simple_step_fst section_size A c pts g0 i) as [x ->].
    rewrite length_app. cbn [List.length]. split; [lia|].
    apply Forall_app. split; [exact HF|]. repeat constructor.
    unfold nonneg. apply py_max_spec.
Qed.

Lemma simple_variation_props A c n g :
  let pts := fst (_simple_variation R A c n g) in
  List.length pts = n /\ spaced c pts /\ Forall nonneg pts.
Proof.
  unfold _simple_variation.
  pose proof (simple_points_props (A / of_nat n) A c n g) as [HL HF].
  destruct (fold_left _ _ _) as [pts g']. cbn [fst] in *.
  repeat split.
  - now rewrite enforce_spacing_length, sort_points_length.
  - apply enforce_spacing_spaced.
  - apply enforce_spacing_lower, sort_points_Forall, HF.
Qed.

Lemma spread_out_step_fst section_size A pts g i :
  exists x, fst (spread_out_step R section_size A (pts, g) i)
    = pts ++ [py_max (of_nat i * section_size)
                (py_min x (py_min (of_nat (i + 1) * section_size) A))].
Proof.
  unfold spread_out_step. destruct (uniform R _ _ g) as [v g']. eexists. reflexivity.
Qed.

Lemma spread_out_props A c n g :
  0 <= A ->
  let pts := fst (_spread_out_variation R A c n g) in
  List.length pts = n /\ ascending pts /\ Forall (in_range 0 A) pts.
Proof.
  intros HA. unfold _spread_out_variation.
  assert (H : let pts := fst (fold_left (spread_out_step R (A / of_nat n) A)
                                (seq 0 n) ([], g)) in
              List.length pts = n /\ Forall (in_range 0 A) pts).
  { apply (fold_seq_invariant
             (fun i (st : gen_state R) =>
                List.length (fst st) = i /\ Forall (in_range 0 A) (fst st))
             (spread_out_step R (A / of_nat n) A) n 0%nat).
    - split; [reflexivity | constructor].
    - intros i [pts g0] Hi [HL HF]. cbn [fst] in *.
      destruct (spread_out_step_fst (A / of_nat n) A pts g0 i) as [x ->].
      rewrite length_app. cbn [List.length]. split; [lia|].
      apply Forall_app. split; [exact HF|]. repeat constructor.
      + destruct (section_bounds A n i HA ltac:(lia)) as (B1 & B2 & B3).
        destruct (clamp_within _ _ x B2) as [C1 C2]. lra.
      + destruct (section_bounds A n i HA ltac:(lia)) as (B1 & B2 & B3).
        destruct (clamp_within _ _ x B2) as [C1 C2]. lra. }
  cbv zeta in H. destruct (fold_left _ _ _) as [pts g']. cbn [fst] in *.
  destruct H as [HL HF]. repeat split.
  - now rewrite sort_points_length.
  - apply sort_points_ascending.
  - apply sort_points_Forall, HF.
Qed.

Lemma linear_random_step_fst base A pts g i :
  exists x, fst (linear_random_step R base A (pts, g) i)
    = pts ++ [py_max 0 (py_min x A)].
Proof.
  unfold linear_random_step. destruct (uniform R _ _ g) as [v g']. eexists. reflexivity.
Qed.




Lemma cluster_point_step_fst cs ce c k pts g j :
  exists x, fst (cluster_point_step R cs ce c k (pts, g) j)
    = pts ++ [py_max cs (py_min x ce)].
Proof.
  unfold cluster_point_step. destruct (uniform R _ _ g) as [v g']. eexists. reflexivity.
Qed.




Lemma zone_step_props A c per n (st : gen_state R) zone :
  0 <= A -> (zone < 4)%nat ->
  Forall (in_range 0 A) (fst st) ->
  Forall (in_range 0 A) (fst (zone_step R (A / of_nat 4) A c per n st zone)).
Proof.
  intros HA Hz HF. unfold zone_step. destruct st as [pts g]. cbn [fst] in *.
  destruct (0 <? _)%nat; [|exact HF].
  destruct (section_bounds A 4 zone HA Hz) as (B1 & B2 & B3). cbv zeta in *.
  set (zs := of_nat zone * (A / of_nat 4)) in *.
  set (ze := py_min (of_nat (zone + 1) * (A / of_nat 4)) A) in *.
  pose proof (spread_out_props (ze - zs) c
                (Nat.min per (n - List.length pts)) g ltac:(lra)) as (_ & _ & HS).
  cbv zeta in HS. destruct (_spread_out_variation R _ _ _ g) as [zp g']. cbn [fst] in *.
  apply Forall_app. split; [exact HF|].
  apply List.Forall_map. eapply List.Forall_impl; [|exact HS].
  intros p [P1 P2]. split; lra.
Qed.

Lemma backfill_props A c n : forall fuel pts g pts' g',
  unit_draws R -> 0 <= A ->
  Forall nonneg pts ->
  backfill R fuel A c n pts g = Some (pts', g') ->
  Forall nonneg pts' /\ (n <= List.length pts')%nat.
Proof.
  induction fuel as [|fuel IH]; intros pts g pts' g' U HA HF HB.
  - cbn [backfill] in HB.
    destruct (List.length pts <? n)%nat eqn:E; [discriminate|].
    injection HB as <- <-. apply Nat.ltb_ge in E. split; assumption.
  - cbn [backfill] in HB.
    destruct (List.length pts <? n)%nat eqn:E.
    + pose proof (uniform_nonneg A g U HA) as Hu.
      destruct (uniform R 0 A g) as [p g1]. cbn [fst] in Hu.
      apply IH in HB; auto.
      destruct (existsb _ pts); [exact HF|].
      apply Forall_app. split; [exact HF|]. repeat constructor. exact Hu.
    + injection HB as <- <-. apply Nat.ltb_ge in E. split; assumption.
Qed.

Lemma advanced_variation_props fuel A c n g pts g' :
  unit_draws R -> 0 <= A ->
  _advanced_variation R fuel A c n g = Some (pts, g') ->
  List.length pts = n /\ spaced c pts /\ Forall nonneg pts.
Proof.
  intros U HA H. unfold _advanced_variation in H.
  assert (HZ : Forall (in_range 0 A)
                 (fst (fold_left (zone_step R (A / of_nat 4) A c (Nat.max 1 (n / 4)) n)
                         (seq 0 4) ([], g)))).
  { replace 4%nat with (0 + 4)%nat at 4 by lia.
    apply (fold_seq_invariant (fun _ (s : gen_state R) => Forall (in_range 0 A) (fst s))).
    - constructor.
    - intros i st Hi HF. apply zone_step_props; auto. lia. }
  destruct (fold_left _ _ _) as [zpts g1]. cbn [fst] in HZ.
  destruct (backfill R fuel A c n zpts g1) as [[bp g2]|] eqn:HB; [|discriminate].
  injection H as <- <-.
  apply backfill_props in HB; auto.
  2:{ eapply List.Forall_impl; [|exact HZ]. intros p [P1 _]. exact P1. }
  destruct HB as [HF HL]. repeat split.
  - rewrite firstn_length_le; [reflexivity|].
    now rewrite enforce_spacing_length, sort_points_length.
  - apply spaced_firstn, enforce_spacing_spaced.
  - apply Forall_take, enforce_spacing_lower, sort_points_Forall, HF.
Qed.

Lemma spread_out_length A c n g :
  List.length (fst (_spread_out_variation R A c n g)) = n.
Proof.
  unfold _spread_out_variation.
  assert (H : List.length (fst (fold_left (spread_out_step R (A / of_nat n) A)
                                  (seq 0 n) ([], g))) = n).
  { apply (fold_seq_invariant
             (fun i (st : gen_state R) => List.length (fst st) = i)
             (spread_out_step R (A / of_nat n) A) n 0%nat); [reflexivity|].
    intros i [pts g0] _ HL. cbn [fst] in *.
    destruct (spread_out_step_fst (A / of_nat n) A pts g0 i) as [x ->].
    rewrite length_app. cbn [List.length]. lia. }
  destruct (fold_left _ _ _) as [pts g']. cbn [fst] in *.
  now rewrite sort_points_length.
Qed.

Lemma zone_step_length zd A c per n (st : gen_state R) zone :
  List.length (fst (zone_step R zd A c per n st zone))
  = (List.length (fst st) + Nat.min per (n - List.length (fst st)))%nat.
Proof.
  unfold zone_step. destruct st as [pts g]. cbn [fst].
  set (k := Nat.min per (n - List.length pts)).
  destruct (0 <? k)%nat eqn:E.
  - pose proof (spread_out_length
                  (py_min (of_nat (zone + 1) * zd) A - of_nat zone * zd) c k g) as L.
    destruct (_spread_out_variation R _ c k g) as [zp g']. cbn [fst] in *.
    now rewrite length_app, length_map, L.
  - apply Nat.ltb_ge in E. cbn [fst]. lia.
Qed.

Lemma zones_length zd A c per n g :
  List.length (fst (fold_left (zone_step R zd A c per n) (seq 0 4) ([], g)))
  = Nat.min n (4 * per).
Proof.
  assert (H : List.length (fst (fold_left (zone_step R zd A c per n) (seq 0 4) ([], g)))
              = Nat.min n ((0 + 4) * per)).
  { apply (fold_seq_invariant
             (fun i (st : gen_state R) => List.length (fst st) = Nat.min n (i * per))
             (zone_step R zd A c per n) 4 0%nat).
    - cbn. lia.
    - intros i st _ HL. rewrite zone_step_length, HL. lia. }
  exact H.
Qed.

(** With at most four cuts, or a multiple of four, the zones already
    supply every point and the rejection loop draws nothing. *)
Lemma advanced_variation_returns fuel A c n g :
  (n <= 4 \/ n mod 4 = 0)%nat ->
  exists r, _advanced_variation R fuel A c n g = Some r.
Proof.
  intro Hn. unfold _advanced_variation.
  pose proof (zones_length (A / of_nat 4) A c (Nat.max 1 (n / 4)) n g) as L.
  destruct (fold_left _ _ _) as [zpts g1]. cbn [fst] in L.
  assert (E : List.length zpts = n).
  { rewrite L. destruct Hn as [Hn|Hn].
    - lia.
    - pose proof (Nat.div_mod_eq n 4). lia. }
  assert (F : (List.length zpts <? n)%nat = false) by (apply Nat.ltb_ge; lia).
  destruct fuel; cbn [backfill]; rewrite F; eexists; reflexivity.
Qed.

Lemma backfill_starves A c n fuel : forall pts (g : rng R),
  (List.length pts < n)%nat ->
  (forall g0 : rng R,
     existsb (fun p => Qlt_bool (Qabs (fst (uniform R 0 A g0) - p)) (c * (8 # 10))) pts
     = true) ->
  backfill R fuel A c n pts g = None.
Proof.
  induction fuel as [|fuel IH]; intros pts g HL Hclose.
  - cbn [backfill]. apply Nat.ltb_lt in HL. now rewrite HL.
  - cbn [backfill]. pose proof HL as HL'. apply Nat.ltb_lt in HL'. rewrite HL'.
    pose proof (Hclose g) as Hg. destruct (uniform R 0 A g) as [x g1].
    cbn [fst] in Hg. rewrite Hg. now apply IH.
Qed.

End Strategies.


(* ------------------------------------------------------------------ *)
(** ** Start-point generator *)

Lemma Qle_bool_false (a b : Q) : Qle_bool a b = false <-> b < a.
Proof.
  split; intro H.
  - apply Qnot_le_lt. intro L. apply Qle_bool_iff in L. congruence.
  - destruct (Qle_bool a b) eqn:E; [|reflexivity]. apply Qle_bool_iff in E. lra.
Qed.

Lemma generate_tiers R py_exp fuel pc total cut n (g : rng R) :
  0 < cut -> cut * 2 < total ->
  generate_varied_start_points R py_exp fuel pc total cut n g
  = let seeded := rng_seed R (pc + 42) in
    if Qle_bool total 300
    then Some (_simple_variation R (total - cut) cut n seeded)
    else if Qle_bool total 1800
         then Some (_medium_variation R py_exp (total - cut) cut n seeded)
         else _advanced_variation R fuel (total - cut) cut n seeded.
Proof.
  intros Hc Ht. unfold generate_varied_start_points.
  assert (E1 : Qle_bool total (cut * 2) = false) by (apply Qle_bool_false; lra).
  assert (E2 : Qle_bool (total - cut) 0 = false) by (apply Qle_bool_false; lra).
  now rewrite E1, E2.
Qed.

(** C2.  The points returned do not depend on the state of the random
    generator on entry, so they are a function of the durations, the
    number of cuts and the processing count alone; and whenever the video
    is longer than two clips the plan is the tier's strategy run from the
    generator seeded with [processing_count + 42]. *)
Theorem start_points_deterministic R py_exp fuel pc total cut n :
  (forall g1 g2 : rng R,
     option_map fst (generate_varied_start_points R py_exp fuel pc total cut n g1)
     = option_map fst (generate_varied_start_points R py_exp fuel pc total cut n g2))
  /\ (0 < cut -> cut * 2 < total ->
      forall g : rng R,
        generate_varied_start_points R py_exp fuel pc total cut n g
        = let seeded := rng_seed R (pc + 42) in
          if Qle_bool total 300
          then Some (_simple_variation R (total - cut) cut n seeded)
          else if Qle_bool total 1800
               then Some (_medium_variation R py_exp (total - cut) cut n seeded)
               else _advanced_variation R fuel (total - cut) cut n seeded).
Proof.
  split.
  - intros g1 g2. unfold generate_varied_start_points.
    destruct (Qle_bool total (cut * 2)); [reflexivity|].
    destruct (Qle_bool (total - cut) 0); reflexivity.
  - intros Hc Ht g. now apply generate_tiers.
Qed.

Lemma lcg_unit_draws : unit_draws lcg.
Proof.
  intro g. cbn [lcg rng_random fst]. unfold lcg_next.
  pose proof (Z.mod_pos_bound (g * 1103515245 + 12345) 2147483648 ltac:(lia)) as B.
  unfold Qle, Qlt. cbn [Qnum Qden]. lia.
Qed.


Lemma start_points_deterministic_witness :
  0 < 30 /\ 30 * 2 < 100
  /\ generate_varied_start_points lcg exp_stub 0 7 100 30 5 0%Z
     = let seeded := rng_seed lcg (7 + 42) in
       if Qle_bool 100 300
       then Some (_simple_variation lcg (100 - 30) 30 5 seeded)
       else if Qle_bool 100 1800
            then Some (_medium_variation lcg exp_stub (100 - 30) 30 5 seeded)
            else _advanced_variation lcg 0 (100 - 30) 30 5 seeded.
Proof.
  assert (H1 : 0 < 30) by reflexivity.
  assert (H2 : 30 * 2 < 100) by reflexivity.
  split; [exact H1 | split; [exact H2|]].
  exact (proj2 (start_points_deterministic lcg exp_stub 0 7 100 30 5) H1 H2 0%Z).
Defined.

Lemma generate_returns R py_exp fuel pc total cut n (g : rng R) :
  (total <= 1800 \/ (n <= 4)%nat \/ (n mod 4 = 0)%nat) ->
  exists pts g', generate_varied_start_points R py_exp fuel pc total cut n g
                 = Some (pts, g').
Proof.
  intro H. unfold generate_varied_start_points.
  destruct (Qle_bool total (cut * 2)); [eexists; eexists; reflexivity|].
  destruct (Qle_bool (total - cut) 0); [eexists; eexists; reflexivity|].
  destruct (Qle_bool total 300).
  { destruct (_simple_variation _ _ _ _ _) as [pts g']. now exists pts, g'. }
  destruct (Qle_bool total 1800) eqn:E.
  { destruct (_medium_variation _ _ _ _ _ _) as [pts g']. now exists pts, g'. }
  apply Qle_bool_false in E.
  destruct H as [H|H]; [lra|].
  destruct (advanced_variation_returns R fuel (total - cut) cut n
              (rng_seed R (pc + 42)) H) as [[pts g'] Hr].
  now exists pts, g'.
Qed.



(** The rejection loop of the advanced tier need not finish: with 500 s
    clips in a 2000 s video no candidate for the fifth point is far enough
    from the four zone points, here for the generator that always draws
    1/2. *)
Lemma advanced_tier_can_starve (fuel : nat) :
  generate_varied_start_points stuck exp_stub fuel 0 2000 500 5 tt = None.
Proof.
  rewrite generate_tiers by reflexivity. cbv zeta.
  change (Qle_bool 2000 300) with false. change (Qle_bool 2000 1800) with false.
  cbv iota. unfold _advanced_variation.
  destruct (fold_left _ _ _) as [zpts g1] eqn:E.
  assert (Z : zpts = fst (fold_left
                (zone_step stuck ((2000 - 500) / of_nat 4) (2000 - 500) 500
                   (Nat.max 1 (5 / 4)) 5) (seq 0 4) ([], rng_seed stuck (0 + 42))))
    by now rewrite E.
  rewrite (backfill_starves stuck (2000 - 500) 500 5 fuel zpts g1); [reflexivity| |].
  - rewrite Z. vm_compute. lia.
  - intros []. rewrite Z. vm_compute. reflexivity.
Qed.



(* ------------------------------------------------------------------ *)
(** ** Clip planner *)

Lemma cut_step_span C total d pts (cuts : list clip) (store : gmap Z Q) i :
  map clip_span (fst (cut_step C total d pts (cuts, store) i))
  = map clip_span cuts ++ planned_span C total d pts i.
Proof.
  unfold cut_step, planned_span.
  destruct (nth_error pts i) as [s|]; [|now rewrite app_nil_r].
  destruct (Qlt_bool _ 1); [now rewrite app_nil_r|].
  destruct (cut_ok C _ s _); cbn [negb]; [|now rewrite app_nil_r].
  destruct (transcribe_segment _ _ _ _) as [text segs].
  destruct (if nonempty (strip text) then _ else _) as [text' segs'].
  destruct (create_subtitles _ _ _ _ _) as [srt store'].
  cbn [fst]. now rewrite map_app.
Qed.

Lemma cut_loop_span C total d pts : forall n a (st : cuts_state),
  map clip_span (fst (fold_left (cut_step C total d pts) (seq a n) st))
  = map clip_span (fst st) ++ flat_map (planned_span C total d pts) (seq a n).
Proof.
  induction n as [|n IH]; intros a [cuts store].
  - cbn. now rewrite app_nil_r.
  - cbn [seq fold_left flat_map]. rewrite IH.
    destruct (cut_step C total d pts (cuts, store) a) as [cuts' store'] eqn:E.
    pose proof (cut_step_span C total d pts cuts store a) as S.
    rewrite E in S. cbn [fst] in *. rewrite S. now rewrite app_assoc.
Qed.

Lemma planned_span_length C total d pts i :
  (List.length (planned_span C total d pts i) <= 1)%nat.
Proof.
  unfold planned_span. destruct (nth_error pts i); [|cbn; lia].
  destruct (Qlt_bool _ _); [cbn; lia|]. destruct (cut_ok _ _ _ _); cbn; lia.
Qed.

Lemma planned_span_in C total d pts i (id : Z) (s e : Q) :
  In (id, s, e) (planned_span C total d pts i) ->
  nth_error pts i = Some s /\ id = (Z.of_nat i + 1)%Z
  /\ e = py_min (s + d) total /\ 1 <= e - s /\ cut_ok C id s e = true.
Proof.
  unfold planned_span. destruct (nth_error pts i) as [s0|]; [|intros []].
  destruct (Qlt_bool _ 1) eqn:L; [intros []|].
  destruct (cut_ok C _ s0 _) eqn:K; [|intros []].
  intros [H|[]]. injection H as <- <- <-.
  apply Qlt_bool_false in L. auto.
Qed.



Lemma ids_after_a_failed_cut :
  option_map (fun r => map clip_span (fst r))
    (create_cuts lcg exp_stub (fails_second 100) 0 0 30 ∅ 0%Z)
  = option_map (fun r => map clip_span (fst r))
      (create_cuts lcg exp_stub (quiet 100) 0 0 30 ∅ 0%Z)
    ≫= (fun l => Some (List.filter (fun t => negb (fst (fst t) =? 2)%Z) l))
  /\ option_map (fun r => map clip_id (fst r))
       (create_cuts lcg exp_stub (fails_second 100) 0 0 30 ∅ 0%Z)
     = Some [1; 3; 4]%Z.
Proof. split; vm_compute; reflexivity. Qed.

(** The clip-count table. *)
Lemma choose_num_cuts_table (total d : Q) :
  0 < d ->
  (total <= 5 \/ total <= d -> choose_num_cuts total d = 1%nat)
  /\ (5 < total -> d < total -> total <= d * 3 -> choose_num_cuts total d = 3%nat)
  /\ (5 < total -> d * 3 < total -> total <= d * 5 -> choose_num_cuts total d = 5%nat)
  /\ (5 < total -> d * 5 < total -> total <= d * 10 -> choose_num_cuts total d = 10%nat)
  /\ (5 < total -> d * 10 < total ->
      choose_num_cuts total d = Nat.min 20 (Z.to_nat (Qfloor (total / d)))).
Proof.
  intro Hd. unfold choose_num_cuts.
  repeat split.
  - intros [H|H].
    + apply Qle_bool_iff in H. now rewrite H.
    + destruct (Qle_bool total 5); [reflexivity|].
      apply Qle_bool_iff in H. now rewrite H.
  - intros H5 H1 H3.
    apply Qle_bool_false in H5, H1. apply Qle_bool_iff in H3. now rewrite H5, H1, H3.
  - intros H5 H3 H.
    assert (H1 : d < total) by lra.
    apply Qle_bool_false in H5, H1, H3. apply Qle_bool_iff in H.
    now rewrite H5, H1, H3, H.
  - intros H5 H3' H.
    assert (H1 : d < total) by lra. assert (H3 : d * 3 < total) by lra.
    apply Qle_bool_false in H5, H1, H3, H3'. apply Qle_bool_iff in H.
    now rewrite H5, H1, H3, H3', H.
  - intros H5 H10.
    assert (H1 : d < total) by lra. assert (H3 : d * 3 < total) by lra.
    assert (H5' : d * 5 < total) by lra.
    apply Qle_bool_false in H5, H1, H3, H5', H10.
    rewrite H5, H1, H3, H5', H10. unfold floor_div. now rewrite py_int_inject.
Qed.



Lemma create_cuts_plan R py_exp C fuel pc d (store : gmap Z Q) (g : rng R) pts g' :
  generate_varied_start_points R py_exp fuel pc (video_duration (probe C)) d
    (choose_num_cuts (video_duration (probe C)) d) g = Some (pts, g') ->
  exists cuts store',
    create_cuts R py_exp C fuel pc d store g = Some (cuts, store')
    /\ map clip_span cuts
       = flat_map (planned_span C (video_duration (probe C)) d pts)
           (seq 0 (choose_num_cuts (video_duration (probe C)) d)).
Proof.
  intro G. unfold create_cuts. rewrite G.
  destruct (fold_left _ _ _) as [cuts store'] eqn:E.
  exists cuts, store'. split; [reflexivity|].
  pose proof (cut_loop_span C (video_duration (probe C)) d pts
                (choose_num_cuts (video_duration (probe C)) d) 0%nat ([], store)) as S.
  rewrite E in S. exact S.
Qed.





(* ------------------------------------------------------------------ *)
(** ** The plan of one run *)

Lemma choose_num_cuts_pos (total d : Q) : 0 < d -> (1 <= choose_num_cuts total d)%nat.
Proof.
  intro Hd. unfold choose_num_cuts.
  destruct (Qle_bool total 5); [lia|].
  destruct (Qle_bool total d); [lia|].
  destruct (Qle_bool total (d * 3)); [lia|].
  destruct (Qle_bool total (d * 5)); [lia|].
  destruct (Qle_bool total (d * 10)) eqn:E; [lia|].
  apply Qle_bool_false in E.
  unfold floor_div. rewrite py_int_inject.
  assert (G : (Qfloor 10 <= Qfloor (total / d))%Z).
  { apply Qfloor_resp_le. apply Qle_shift_div_l; [exact Hd|]. lra. }
  change (Qfloor 10) with 10%Z in G. lia.
Qed.



(** In the tiers that run the spacing walk the points are a full clip
    length apart. *)
Lemma generate_points_spaced R py_exp fuel pc total cut n (g : rng R) pts g' :
  0 < cut -> unit_draws R -> cut * 2 < total -> total <= 300 \/ 1800 < total ->
  generate_varied_start_points R py_exp fuel pc total cut n g = Some (pts, g') ->
  spaced cut pts.
Proof.
  intros Hc U Long T H.
  rewrite generate_tiers in H by assumption. cbv zeta in H.
  assert (HA : 0 <= total - cut) by lra.
  destruct (Qle_bool total 300) eqn:E300.
  - injection H as H.
    pose proof (simple_variation_props R (total - cut) cut n (rng_seed R (pc + 42)))
      as (_ & S & _).
    rewrite H in S. exact S.
  - apply Qle_bool_false in E300.
    destruct (Qle_bool total 1800) eqn:E1800.
    + apply Qle_bool_iff in E1800. lra.
    + apply advanced_variation_props in H; auto. tauto.
Qed.

Lemma spaced_pair (c : Q) : forall (l : list Q) (i j : nat) (a b : Q),
  0 <= c -> spaced c l -> (i < j)%nat ->
  nth_error l i = Some a -> nth_error l j = Some b -> a + c <= b.
Proof.
  induction l as [|x r IH]; intros i j a b Hc Hs Hij Ha Hb.
  - destruct i; discriminate.
  - destruct j as [|j]; [lia|]. cbn [nth_error] in Hb.
    destruct i as [|i].
    + cbn [nth_error] in Ha. injection Ha as <-.
      destruct r as [|y r']; [destruct j; discriminate|].
      destruct Hs as [Hxy Hs].
      pose proof (spaced_nth c (y :: r') j b (x + c) Hs Hxy Hb) as P.
      pose proof (of_nat_nonneg j) as Pj.
      assert (0 <= of_nat j * c) by (apply Qmult_le_0_compat; assumption).
      lra.
    + cbn [nth_error] in Ha. apply (IH i j a b); auto; [|lia].
      destruct r; [exact I | apply Hs].
Qed.

(** The clips of a run, read off the plan. *)
Lemma create_cuts_clips R py_exp C fuel pc d (store : gmap Z Q) (g : rng R) cuts store' :
  create_cuts R py_exp C fuel pc d store g = Some (cuts, store') ->
  exists pts g',
    generate_varied_start_points R py_exp fuel pc (video_duration (probe C)) d
      (choose_num_cuts (video_duration (probe C)) d) g = Some (pts, g')
    /\ forall c, In c cuts ->
         exists i, (i < choose_num_cuts (video_duration (probe C)) d)%nat
           /\ nth_error pts i = Some (clip_start c)
           /\ clip_id c = (Z.of_nat i + 1)%Z
           /\ clip_end c = py_min (clip_start c + d) (video_duration (probe C))
           /\ 1 <= clip_end c - clip_start c.
Proof.
  intro H.
  destruct (generate_varied_start_points R py_exp fuel pc (video_duration (probe C)) d
              (choose_num_cuts (video_duration (probe C)) d) g) as [[pts g']|] eqn:G.
  - exists pts, g'. split; [reflexivity|].
    destruct (create_cuts_plan R py_exp C fuel pc d store g pts g' G)
      as (cuts0 & store0 & H0 & S).
    rewrite H in H0. injection H0 as <- <-.
    intros c Hc. apply (in_map clip_span) in Hc. rewrite S in Hc.
    apply in_flat_map in Hc. destruct Hc as (i & Hi & Hp).
    apply in_seq in Hi.
    unfold clip_span in Hp. apply planned_span_in in Hp.
    destruct Hp as (N & I & En & L & _). exists i. repeat split; auto. lia.
  - unfold create_cuts in H. rewrite G in H. discriminate.
Qed.



(** X3.  In a video longer than two clips, of at most five minutes or more
    than thirty, the clips of a run do not overlap: a clip with a lower
    id ends before a clip with a higher id starts. *)
Theorem create_cuts_clips_disjoint R py_exp C fuel pc d (store : gmap Z Q) (g : rng R)
    cuts store' :
  0 < d -> unit_draws R ->
  d * 2 < video_duration (probe C) ->
  video_duration (probe C) <= 300 \/ 1800 < video_duration (probe C) ->
  create_cuts R py_exp C fuel pc d store g = Some (cuts, store') ->
  forall c c', In c cuts -> In c' cuts -> (clip_id c < clip_id c')%Z ->
    clip_end c <= clip_start c'.
Proof.
  intros Hd U Long T H c c' Hc Hc' Lt.
  destruct (create_cuts_clips R py_exp C fuel pc d store g cuts store' H)
    as (pts & g' & G & P).
  destruct (P c Hc) as (i & _ & N & I & En & _).
  destruct (P c' Hc') as (j & _ & N' & I' & _ & _).
  pose proof (generate_points_spaced R py_exp fuel pc _ d _ g pts g' Hd U Long T G) as S.
  assert (Hij : (i < j)%nat) by lia.
  assert (Hd0 : 0 <= d) by lra.
  pose proof (spaced_pair d pts i j _ _ Hd0 S Hij N N') as X.
  destruct (py_min_spec (clip_start c + d) (video_duration (probe C))) as (M1 & _ & _).
  rewrite <- En in M1. lra.
Qed.

Lemma create_cuts_clips_disjoint_witness :
  0 < 30 /\ unit_draws lcg /\ 30 * 2 < video_duration (probe (quiet 100))
  /\ exists cuts store',
       create_cuts lcg exp_stub (quiet 100) 0 0 30 ∅ 0%Z = Some (cuts, store')
       /\ (2 <= List.length cuts)%nat
       /\ forall c c', In c cuts -> In c' cuts -> (clip_id c < clip_id c')%Z ->
            clip_end c <= clip_start c'.
Proof.
  assert (H1 : 0 < 30) by reflexivity.
  assert (H2 : 30 * 2 < video_duration (probe (quiet 100))) by reflexivity.
  assert (H3 : video_duration (probe (quiet 100)) <= 300) by discriminate.
  split; [exact H1|]. split; [exact lcg_unit_draws|]. split; [exact H2|].
  destruct (create_cuts lcg exp_stub (quiet 100) 0 0 30 ∅ 0%Z) as [[cuts store']|] eqn:G.
  - exists cuts, store'. split; [reflexivity|]. split.
    + destruct cuts as [|c1 [|c2 r]]; [vm_compute in G; discriminate G
                                      | vm_compute in G; discriminate G |].
      cbn [List.length]. lia.
    + exact (create_cuts_clips_disjoint lcg exp_stub (quiet 100) 0 0 30 ∅ 0%Z cuts store'
               H1 lcg_unit_draws H2 (or_introl H3) G).
  - vm_compute in G. discriminate G.
Defined.

Lemma normalize_duration_values (q : Q) :
  normalize_duration q == 15 \/ normalize_duration q == 30 \/ normalize_duration q == 60.
Proof.
  unfold normalize_duration.
  destruct (Qeq_bool q 15) eqn:A; [left; now apply Qeq_bool_iff|].
  destruct (Qeq_bool q 30) eqn:B; [right; left; now apply Qeq_bool_iff|].
  destruct (Qeq_bool q 60) eqn:D; [right; right; now apply Qeq_bool_iff|].
  right; left. reflexivity.
Qed.

(** X4.  With a clip length the request handlers let through (15, 30 or 60
    seconds) the planner always returns, however long the video: past
    thirty minutes it plans twenty clips, five per zone, and the
    rejection loop of the generator is never entered. *)
Theorem create_cuts_returns R py_exp C fuel pc requested (store : gmap Z Q) (g : rng R) :
  exists cuts store',
    create_cuts R py_exp C fuel pc (normalize_duration requested) store g
    = Some (cuts, store').
Proof.
  set (d := normalize_duration requested).
  assert (Hd : 0 < d /\ d <= 60).
  { destruct (normalize_duration_values requested) as [E|[E|E]]; fold d in E;
      rewrite E; split; (reflexivity || discriminate). }
  destruct Hd as [Hd Hd'].
  set (total := video_duration (probe C)).
  assert (Hn : total <= 1800 \/ (choose_num_cuts total d <= 4)%nat
               \/ (choose_num_cuts total d mod 4 = 0)%nat).
  { destruct (Qlt_le_dec 1800 total) as [L|L]; [|left; exact L].
    right; right.
    destruct (choose_num_cuts_table total d Hd) as (_ & _ & _ & _ & T).
    rewrite T by lra.
    assert (F : (Qfloor 30 <= Qfloor (total / d))%Z).
    { apply Qfloor_resp_le. apply Qle_shift_div_l; [exact Hd|]. lra. }
    change (Qfloor 30) with 30%Z in F.
    replace (Nat.min 20 (Z.to_nat (Qfloor (total / d)))) with 20%nat by lia.
    reflexivity. }
  destruct (generate_returns R py_exp fuel pc total d (choose_num_cuts total d) g Hn)
    as (pts & g' & G).
  destruct (create_cuts_plan R py_exp C fuel pc d store g pts g' G)
    as (cuts & store' & H & _).
  now exists cuts, store'.
Qed.

(** *** The table of start times after a run *)

Lemma create_subtitles_table probe cut_probe (store : gmap Z Q) data cut_id :
  snd (create_subtitles probe cut_probe store data cut_id) = store
  \/ snd (create_subtitles probe cut_probe store data cut_id)
     = snd (get_cut_start_time probe store cut_id).
Proof.
  unfold create_subtitles.
  destruct data as [|s|text segments].
  - left. reflexivity.
  - left. destruct (nonempty (strip s)); reflexivity.
  - destruct segments as [|seg rest]; [left; reflexivity|]. right.
    rewrite segment_loop by discriminate. reflexivity.
Qed.

Lemma create_subtitles_keeps_entry probe cut_probe (store : gmap Z Q) data cut_id v :
  store !! cut_id = Some v ->
  snd (create_subtitles probe cut_probe store data cut_id) = store.
Proof.
  intro H.
  destruct (create_subtitles_table probe cut_probe store data cut_id) as [E|E];
    [exact E|].
  rewrite E. now rewrite (get_cut_start_time_stored _ _ _ _ H).
Qed.

Lemma cut_step_table C total d pts (cuts : list clip) (store : gmap Z Q) i :
  snd (cut_step C total d pts (cuts, store) i)
  = match nth_error pts i with
    | Some s => <[(Z.of_nat i + 1)%Z := s]> store
    | None => store
    end.
Proof.
  unfold cut_step. destruct (nth_error pts i) as [s|]; [|reflexivity].
  destruct (Qlt_bool _ 1); [reflexivity|].
  destruct (cut_ok C _ s _); cbn [negb]; [|reflexivity].
  destruct (transcribe_segment _ _ _ _) as [text segs].
  destruct (if nonempty (strip text) then _ else _) as [text' segs'].
  pose proof (create_subtitles_keeps_entry (probe C) (cut_probe C (Z.of_nat i + 1))
                (<[(Z.of_nat i + 1)%Z := s]> store) (TStructured text' segs')
                (Z.of_nat i + 1) s (lookup_insert_eq _ _ _)) as K.
  destruct (create_subtitles _ _ _ _ _) as [srt store']. exact K.
Qed.

Lemma cut_loop_table C total d pts : forall n a (st : cuts_state) (k : Z),
  snd (fold_left (cut_step C total d pts) (seq a n) st) !! k
  = if decide (Z.of_nat a + 1 <= k <= Z.of_nat a + Z.of_nat n)%Z
    then match nth_error pts (Z.to_nat (k - 1)) with
         | Some s => Some s
         | None => snd st !! k
         end
    else snd st !! k.
Proof.
  induction n as [|n IH]; intros a [cuts store] k.
  - cbn [seq fold_left snd]. now rewrite decide_False by lia.
  - cbn [seq fold_left]. rewrite IH.
    pose proof (cut_step_table C total d pts cuts store a) as T.
    destruct (cut_step C total d pts (cuts, store) a) as [cuts1 store1].
    cbn [snd] in *. subst store1.
    destruct (Z.eq_dec k (Z.of_nat a + 1)%Z) as [->|Ne].
    + replace (Z.to_nat (Z.of_nat a + 1 - 1)) with a by lia.
      rewrite decide_False by lia. rewrite decide_True by lia.
      destruct (nth_error pts a) as [s|]; [apply lookup_insert_eq | reflexivity].
    + assert (X : match nth_error pts a with
                  | Some s => <[(Z.of_nat a + 1)%Z := s]> store
                  | None => store
                  end !! k = store !! k).
      { destruct (nth_error pts a); [now apply lookup_insert_ne | reflexivity]. }
      rewrite X.
      destruct (decide (Z.of_nat (S a) + 1 <= k <= Z.of_nat (S a) + Z.of_nat n)%Z).
      * now rewrite decide_True by lia.
      * now rewrite decide_False by lia.
Qed.

(** X5.  After a run the table of start times holds the start point of every
    planned position, whether its clip was returned or dropped, and every
    other id keeps the entry it had; so [get_cut_start_time] answers with
    the planned start and never with its fallback. *)
Theorem create_cuts_table R py_exp C fuel pc d (store : gmap Z Q) (g : rng R)
    pts g' cuts store' :
  let total := video_duration (probe C) in
  let num_cuts := choose_num_cuts total d in
  generate_varied_start_points R py_exp fuel pc total d num_cuts g = Some (pts, g') ->
  create_cuts R py_exp C fuel pc d store g = Some (cuts, store') ->
  (forall i s, (i < num_cuts)%nat -> nth_error pts i = Some s ->
     store' !! (Z.of_nat i + 1)%Z = Some s
     /\ get_cut_start_time (probe C) store' (Z.of_nat i + 1) = (s, store'))
  /\ (forall c, In c cuts ->
        get_cut_start_time (probe C) store' (clip_id c) = (clip_start c, store'))
  /\ (forall k, (k < 1 \/ Z.of_nat (List.length pts) < k \/ Z.of_nat num_cuts < k)%Z ->
        store' !! k = store !! k).
Proof.
  intros total num_cuts G H.
  assert (T : forall k, store' !! k
     = if decide (Z.of_nat 0 + 1 <= k <= Z.of_nat 0 + Z.of_nat num_cuts)%Z
       then match nth_error pts (Z.to_nat (k - 1)) with
            | Some s => Some s
            | None => store !! k
            end
       else store !! k).
  { intro k. unfold create_cuts in H. fold total num_cuts in H. rewrite G in H.
    injection H as H.
    pose proof (cut_loop_table C total d pts num_cuts 0 ([], store) k) as X.
    rewrite H in X. exact X. }
  assert (A : forall i s, (i < num_cuts)%nat -> nth_error pts i = Some s ->
                store' !! (Z.of_nat i + 1)%Z = Some s).
  { intros i s Hi N. rewrite T.
    rewrite decide_True by lia.
    replace (Z.to_nat (Z.of_nat i + 1 - 1)) with i by lia. now rewrite N. }
  split; [|split].
  - intros i s Hi N. split; [now apply A|].
    apply get_cut_start_time_stored. now apply A.
  - intros c Hc.
    destruct (create_cuts_clips R py_exp C fuel pc d store g cuts store' H)
      as (pts0 & g0 & G0 & P).
    fold total num_cuts in G0, P. rewrite G in G0. injection G0 as <- <-.
    destruct (P c Hc) as (i & Hi & N & I & _).
    rewrite I. apply get_cut_start_time_stored. now apply A.
  - intros k Hk. rewrite T.
    destruct (decide (Z.of_nat 0 + 1 <= k <= Z.of_nat 0 + Z.of_nat num_cuts)%Z) as [E|E];
      [|reflexivity].
    destruct (nth_error pts (Z.to_nat (k - 1))) as [s|] eqn:N; [|reflexivity].
    assert (L : (Z.to_nat (k - 1) < List.length pts)%nat)
      by (apply nth_error_Some; congruence).
    lia.
Qed.

Lemma create_cuts_table_witness :
  exists pts g' cuts store',
    generate_varied_start_points lcg exp_stub 0 0 (video_duration (probe (quiet 100))) 30
      (choose_num_cuts (video_duration (probe (quiet 100))) 30) 0%Z = Some (pts, g')
    /\ create_cuts lcg exp_stub (quiet 100) 0 0 30 ∅ 0%Z = Some (cuts, store')
    /\ forall c, In c cuts ->
         get_cut_start_time (probe (quiet 100)) store' (clip_id c)
         = (clip_start c, store').
Proof.
  destruct (generate_varied_start_points lcg exp_stub 0 0
              (video_duration (probe (quiet 100))) 30
              (choose_num_cuts (video_duration (probe (quiet 100))) 30) 0%Z)
    as [[pts g']|] eqn:G.
  - destruct (create_cuts lcg exp_stub (quiet 100) 0 0 30 ∅ 0%Z)
      as [[cuts store']|] eqn:H.
    + exists pts, g', cuts, store'. split; [reflexivity|]. split; [reflexivity|].
      exact (proj1 (proj2 (create_cuts_table lcg exp_stub (quiet 100) 0 0 30 ∅ 0%Z
                             pts g' cuts store' G H))).
    + vm_compute in H. discriminate H.
  - vm_compute in G. discriminate G.
Defined.


(* ------------------------------------------------------------------ *)
(** ** How many points the medium tier returns *)

Section PointCounts.

Context (R : random_module).
Variable py_exp : Q -> Q.

Lemma cluster_step_length size A c per n (st : gen_state R) cluster :
  List.length (fst (cluster_step R size A c per n st cluster))
  = (List.length (fst st) + Nat.min per (n - List.length (fst st)))%nat.
Proof.
  unfold cluster_step.
  set (k := Nat.min per (n - List.length (fst st))).
  set (cs := of_nat cluster * size).
  set (ce := py_min (of_nat (cluster + 1) * size) A).
  assert (H : forall m, List.length (fst (fold_left (cluster_point_step R cs ce c k)
                                            (seq 0 m) st))
                        = (List.length (fst st) + (0 + m))%nat).
  { intro m.
    apply (fold_seq_invariant
             (fun i (s : gen_state R) =>
                List.length (fst s) = (List.length (fst st) + i)%nat)
             (cluster_point_step R cs ce c k) m 0%nat); [lia|].
    intros j [pts g0] _ HL. cbn [fst] in *.
    destruct (cluster_point_step_fst R cs ce c k pts g0 j) as [x ->].
    rewrite length_app. cbn [List.length]. lia. }
  rewrite H. lia.
Qed.

Lemma clustered_length A c n g :
  List.length (fst (_clustered_variation R A c n g))
  = (Nat.min 3 (n / 2) * (n / Nat.min 3 (n / 2)))%nat.
Proof.
  unfold _clustered_variation.
  set (K := Nat.min 3 (n / 2)).
  set (per := (n / K)%nat).
  assert (H : forall m, (m <= K)%nat ->
            List.length (fst (fold_left (cluster_step R (A / of_nat K) A c per n)
                                (seq 0 m) ([], g))) = (m * per)%nat).
  { intros m Hm.
    assert (X : (0 + m <= K)%nat ->
                List.length (fst (fold_left (cluster_step R (A / of_nat K) A c per n)
                                    (seq 0 m) ([], g))) = ((0 + m) * per)%nat).
    { apply (fold_seq_invariant
               (fun i (s : gen_state R) =>
                  (i <= K)%nat -> List.length (fst s) = (i * per)%nat)
               (cluster_step R (A / of_nat K) A c per n) m 0%nat).
      - reflexivity.
      - intros i s Hi HL HS. rewrite cluster_step_length. rewrite HL by lia.
        assert (P : (K * per <= n)%nat).
        { unfold per. destruct K; [lia|]. apply Nat.Div0.mul_div_le. }
        assert (Q' : (S i * per <= K * per)%nat) by (apply Nat.mul_le_mono_r; lia).
        cbn [Nat.mul] in *. lia. }
    apply X. lia. }
  specialize (H K (Nat.le_refl K)).
  destruct (fold_left _ _ _) as [pts g']. cbn [fst] in *.
  now rewrite sort_points_length.
Qed.

Lemma linear_random_length A c n g :
  List.length (fst (_linear_random_variation R A c n g)) = n.
Proof.
  unfold _linear_random_variation.
  assert (H : List.length (fst (fold_left (linear_random_step R (A / of_nat (n + 1)) A)
                                  (seq 0 n) ([], g))) = n).
  { apply (fold_seq_invariant
             (fun i (st : gen_state R) => List.length (fst st) = i)
             (linear_random_step R (A / of_nat (n + 1)) A) n 0%nat); [reflexivity|].
    intros i [pts g0] _ HL. cbn [fst] in *.
    destruct (linear_random_step_fst R (A / of_nat (n + 1)) A pts g0 i) as [x ->].
    rewrite length_app. cbn [List.length]. lia. }
  destruct (fold_left _ _ _) as [pts g']. cbn [fst] in *.
  now rewrite sort_points_length.
Qed.

(** X6.  The medium tier returns as many points as it is asked for, except
    when more than seven are asked for and the pattern drawn is the
    clustered one: three clusters of [num_cuts // 3] points each make
    [3 * (num_cuts // 3)] points, one or two short when three does not
    divide [num_cuts]. *)
Theorem medium_variation_count A c n g :
  List.length (fst (_medium_variation R py_exp A c n g))
  = if ((7 <? n) && (fst (rng_below R (List.length patterns) g) =? 2))%nat
    then (3 * (n / 3))%nat else n.
Proof.
  unfold _medium_variation.
  destruct (n <=? 3)%nat eqn:E3.
  - apply Nat.leb_le in E3.
    replace (7 <? n)%nat with false by (symmetry; apply Nat.ltb_ge; lia).
    apply spread_out_length.
  - apply Nat.leb_gt in E3.
    destruct (n <=? 7)%nat eqn:E7.
    + apply Nat.leb_le in E7.
      replace (7 <? n)%nat with false by (symmetry; apply Nat.ltb_ge; lia).
      apply linear_random_length.
    + apply Nat.leb_gt in E7.
      replace (7 <? n)%nat with true by (symmetry; apply Nat.ltb_lt; lia).
      cbn [andb].
      destruct (rng_below R (List.length patterns) g) as [k g1]. cbn [fst].
      destruct k as [|[|[|[|k]]]]; cbn [nth patterns Nat.eqb].
      * apply linear_random_length.
      * unfold _exponential_variation. cbn [fst].
        now rewrite sort_points_length, length_map, length_seq.
      * rewrite clustered_length.
        assert (H : (3 <= n / 2)%nat)
          by (apply Nat.div_le_lower_bound; lia).
        now replace (Nat.min 3 (n / 2)) with 3%nat by lia.
      * apply spread_out_length.
      * destruct k; apply spread_out_length.
Qed.

End PointCounts.


(* ------------------------------------------------------------------ *)
(** ** White space *)

Lemma blank_append (a b : string) : blank (a +:+ b) = blank a && blank b.
Proof.
  induction a as [|c a IH]; [reflexivity|].
  rewrite append_cons. cbn [blank]. rewrite IH. now rewrite andb_assoc.
Qed.

Lemma rev_string_append (a b : string) :
  rev_string EmptyString (a +:+ b)
  = rev_string EmptyString b +:+ rev_string EmptyString a.
Proof.
  induction a as [|c a IH].
  - cbn [rev_string]. now rewrite append_empty_r.
  - rewrite append_cons. cbn [rev_string].
    rewrite (rev_string_app (a +:+ b)), (rev_string_app a), IH.
    now rewrite append_assoc.
Qed.

Lemma rev_string_involutive (s : string) :
  rev_string EmptyString (rev_string EmptyString s) = s.
Proof.
  induction s as [|c s IH]; [reflexivity|].
  cbn [rev_string]. rewrite (rev_string_app s), rev_string_append, IH.
  reflexivity.
Qed.

Lemma blank_rev (s : string) : blank (rev_string EmptyString s) = blank s.
Proof.
  induction s as [|c s IH]; [reflexivity|].
  cbn [rev_string]. rewrite (rev_string_app s), blank_append, IH.
  cbn [blank]. rewrite andb_true_r. apply andb_comm.
Qed.

Lemma blank_lstrip (s : string) : blank (lstrip s) = blank s.
Proof.
  induction s as [|c s IH]; [reflexivity|].
  cbn [lstrip blank]. destruct (is_space c) eqn:E; [exact IH|].
  cbn [blank]. now rewrite E.
Qed.

Lemma nonempty_lstrip (s : string) : nonempty (lstrip s) = negb (blank s).
Proof.
  induction s as [|c s IH]; [reflexivity|].
  cbn [lstrip blank]. destruct (is_space c); [exact IH | reflexivity].
Qed.

Lemma nonempty_rev (s : string) : nonempty (rev_string EmptyString s) = nonempty s.
Proof.
  destruct s as [|c s]; [reflexivity|].
  cbn [rev_string]. rewrite (rev_string_app s).
  destruct (rev_string EmptyString s); reflexivity.
Qed.

Lemma blank_rstrip (s : string) : blank (rstrip s) = blank s.
Proof. unfold rstrip. now rewrite blank_rev, blank_lstrip, blank_rev. Qed.

Lemma nonempty_rstrip (s : string) : nonempty (rstrip s) = negb (blank s).
Proof. unfold rstrip. now rewrite nonempty_rev, nonempty_lstrip, blank_rev. Qed.

Lemma blank_strip (s : string) : blank (strip s) = blank s.
Proof. unfold strip. now rewrite blank_rstrip, blank_lstrip. Qed.

(** [s.strip()] is empty exactly when [s] is all white space. *)
Lemma nonempty_strip (s : string) : nonempty (strip s) = negb (blank s).
Proof. unfold strip. now rewrite nonempty_rstrip, blank_lstrip. Qed.

Lemma blank_newlines_to_spaces (s : string) : blank (newlines_to_spaces s) = blank s.
Proof.
  induction s as [|c s IH]; [reflexivity|].
  cbn [newlines_to_spaces blank]. rewrite IH.
  destruct (Ascii.eqb c (chr 10)) eqn:E; [|reflexivity].
  apply Ascii.eqb_eq in E. subst c. reflexivity.
Qed.

Lemma collapse_double_spaces_eq (a : ascii) (t : string) :
  collapse_double_spaces (String a t)
  = match t with
    | String b r =>
        if (Ascii.eqb a " " && Ascii.eqb b " ")%char
        then String " " (collapse_double_spaces r)
        else String a (collapse_double_spaces t)
    | EmptyString => String a EmptyString
    end.
Proof. destruct t; reflexivity. Qed.

Lemma blank_collapse_double_spaces (s : string) :
  blank (collapse_double_spaces s) = blank s
  /\ forall a, blank (collapse_double_spaces (String a s)) = blank (String a s).
Proof.
  induction s as [|b r [IH1 IH2]].
  - split; [reflexivity | intro a; reflexivity].
  - split; [apply IH2|]. intro a.
    rewrite collapse_double_spaces_eq.
    destruct (Ascii.eqb a " " && Ascii.eqb b " ")%char eqn:E.
    + apply andb_true_iff in E. destruct E as [Ea Eb].
      apply Ascii.eqb_eq in Ea, Eb. subst a b.
      destruct r as [|c r'].
      * reflexivity.
      * cbn [blank]. cbn [blank] in IH1.
        change (is_space " ") with true. cbn [andb].
        destruct IH1 as []. reflexivity.
    + cbn [blank]. rewrite IH2. reflexivity.
Qed.

(* ------------------------------------------------------------------ *)
(** ** The transcription of a clip *)

Lemma segment_placeholder_ink py_repr start_time end_time :
  blank (segment_placeholder py_repr start_time end_time) = false.
Proof. reflexivity. Qed.

Lemma transcribe_segment_ink py_repr raw start_time end_time :
  blank (fst (transcribe_segment py_repr raw start_time end_time)) = false.
Proof.
  unfold transcribe_segment.
  destruct raw as [[raw_text segments]|]; [|apply segment_placeholder_ink].
  destruct (nonempty (strip raw_text)) eqn:E; [|apply segment_placeholder_ink].
  cbn [fst]. rewrite blank_strip.
  rewrite (proj1 (blank_collapse_double_spaces _)), blank_newlines_to_spaces.
  rewrite nonempty_strip in E. rewrite blank_strip.
  now apply negb_true_iff in E.
Qed.

Lemma create_subtitles_reads_one_entry probe cut_probe (store store' : gmap Z Q)
    data cut_id :
  store !! cut_id = store' !! cut_id ->
  fst (create_subtitles probe cut_probe store data cut_id)
  = fst (create_subtitles probe cut_probe store' data cut_id).
Proof.
  intro H. unfold create_subtitles.
  destruct data as [|s|text segs]; [reflexivity | |].
  { destruct (nonempty (strip s)); reflexivity. }
  destruct segs as [|seg rest]; [reflexivity|].
  rewrite !segment_loop by discriminate. cbn [srt_content fst].
  unfold get_cut_start_time. rewrite H. destruct (store' !! cut_id); [reflexivity|].
  destruct (Qle_bool _ 0); reflexivity.
Qed.

(** What one iteration appends, when it appends. *)
Lemma cut_step_clip C total d pts (cuts : list clip) (store : gmap Z Q) i :
  fst (cut_step C total d pts (cuts, store) i) = cuts
  \/ exists s,
       nth_error pts i = Some s
       /\ let e := py_min (s + d) total in
          let t := transcribe_segment (py_repr C) (whisper C s e) s e in
          fst (cut_step C total d pts (cuts, store) i)
          = cuts ++ [mk_clip (Z.of_nat i + 1) s e (fst t)
                       (fst (create_subtitles (probe C) (cut_probe C (Z.of_nat i + 1))
                               {[ (Z.of_nat i + 1)%Z := s ]}
                               (TStructured (fst t) (snd t)) (Z.of_nat i + 1)))].
Proof.
  unfold cut_step. destruct (nth_error pts i) as [s|]; [|now left].
  destruct (Qlt_bool _ 1); [now left|].
  destruct (cut_ok C _ s _); cbn [negb]; [|now left].
  right. exists s. split; [reflexivity|]. cbv zeta.
  pose proof (transcribe_segment_ink (py_repr C)
                (whisper C s (py_min (s + d) total)) s (py_min (s + d) total)) as K.
  destruct (transcribe_segment _ _ _ _) as [text segs]. cbn [fst snd] in *.
  rewrite nonempty_strip, K. cbn [negb].
  pose proof (create_subtitles_reads_one_entry (probe C) (cut_probe C (Z.of_nat i + 1))
                (<[(Z.of_nat i + 1)%Z := s]> store) {[ (Z.of_nat i + 1)%Z := s ]}
                (TStructured text segs) (Z.of_nat i + 1)) as R.
  rewrite lookup_insert_eq, lookup_singleton_eq in R. specialize (R eq_refl).
  destruct (create_subtitles _ _ (<[_ := _]> store) _ _) as [srt store1].
  cbn [fst] in *. now rewrite R.
Qed.

Lemma cut_loop_clips C total d pts (P : clip -> Prop) :
  (forall i s,
     nth_error pts i = Some s ->
     let e := py_min (s + d) total in
     let t := transcribe_segment (py_repr C) (whisper C s e) s e in
     P (mk_clip (Z.of_nat i + 1) s e (fst t)
          (fst (create_subtitles (probe C) (cut_probe C (Z.of_nat i + 1))
                  {[ (Z.of_nat i + 1)%Z := s ]}
                  (TStructured (fst t) (snd t)) (Z.of_nat i + 1))))) ->
  forall n a (st : cuts_state),
    Forall P (fst st) ->
    Forall P (fst (fold_left (cut_step C total d pts) (seq a n) st)).
Proof.
  intros HP. induction n as [|n IH]; intros a [cuts store] H; [exact H|].
  cbn [seq fold_left]. apply IH.
  destruct (cut_step_clip C total d pts cuts store a) as [E|(s & N & E)].
  - destruct (cut_step C total d pts (cuts, store) a). cbn [fst] in *. now subst.
  - cbv zeta in E.
    destruct (cut_step C total d pts (cuts, store) a). cbn [fst] in *. subst.
    apply Forall_app. split; [exact H|]. constructor; [|constructor].
    apply (HP a s N).
Qed.

(** X7.  Every clip a run returns carries the text [transcribe_segment] gave
    for its span, which is never blank, so the default text of
    [create_cuts] is never used; and its subtitles are those
    [create_subtitles] writes from that transcription and the clip's own
    start time, whatever else the table of start times holds. *)
Theorem create_cuts_transcriptions R py_exp C fuel pc d (store : gmap Z Q) (g : rng R)
    cuts store' :
  create_cuts R py_exp C fuel pc d store g = Some (cuts, store') ->
  forall c, In c cuts ->
    let t := transcribe_segment (py_repr C) (whisper C (clip_start c) (clip_end c))
               (clip_start c) (clip_end c) in
    clip_transcription c = fst t
    /\ blank (clip_transcription c) = false
    /\ clip_srt c
       = fst (create_subtitles (probe C) (cut_probe C (clip_id c))
                {[ clip_id c := clip_start c ]}
                (TStructured (fst t) (snd t)) (clip_id c)).
Proof.
  intros H. unfold create_cuts in H.
  destruct (generate_varied_start_points _ _ _ _ _ _ _ _) as [[pts g']|];
    [|discriminate].
  injection H as H.
  pose proof (cut_loop_clips C (video_duration (probe C)) d pts
    (fun c =>
       let t := transcribe_segment (py_repr C) (whisper C (clip_start c) (clip_end c))
                  (clip_start c) (clip_end c) in
       clip_transcription c = fst t
       /\ blank (clip_transcription c) = false
       /\ clip_srt c
          = fst (create_subtitles (probe C) (cut_probe C (clip_id c))
                   {[ clip_id c := clip_start c ]}
                   (TStructured (fst t) (snd t)) (clip_id c)))) as L.
  cbv zeta in L.
  assert (F : Forall (fun c =>
       clip_transcription c
       = fst (transcribe_segment (py_repr C) (whisper C (clip_start c) (clip_end c))
                (clip_start c) (clip_end c))
       /\ blank (clip_transcription c) = false
       /\ clip_srt c
          = fst (create_subtitles (probe C) (cut_probe C (clip_id c))
                   {[ clip_id c := clip_start c ]}
                   (TStructured
                      (fst (transcribe_segment (py_repr C)
                              (whisper C (clip_start c) (clip_end c))
                              (clip_start c) (clip_end c)))
                      (snd (transcribe_segment (py_repr C)
                              (whisper C (clip_start c) (clip_end c))
                              (clip_start c) (clip_end c)))) (clip_id c))) cuts).
  { replace cuts with (fst (fold_left
               (cut_step C (video_duration (probe C)) d pts)
               (seq 0 (choose_num_cuts (video_duration (probe C)) d)) ([], store)))
      by now rewrite H.
    apply (L (fun i s _ => conj eq_refl (conj (transcribe_segment_ink _ _ _ _) eq_refl))).
    constructor. }
  rewrite List.Forall_forall in F. intros c Hc. cbv zeta. exact (F c Hc).
Qed.

Lemma create_cuts_transcriptions_witness :
  exists cuts store',
    create_cuts lcg exp_stub (quiet 100) 0 0 30 ∅ 0%Z = Some (cuts, store')
    /\ cuts <> []
    /\ forall c, In c cuts -> blank (clip_transcription c) = false.
Proof.
  destruct (create_cuts lcg exp_stub (quiet 100) 0 0 30 ∅ 0%Z) as [[cuts store']|] eqn:G.
  - exists cuts, store'. split; [reflexivity|]. split.
    + intro E. rewrite E in G. vm_compute in G. discriminate G.
    + intros c Hc.
      exact (proj1 (proj2 (create_cuts_transcriptions lcg exp_stub (quiet 100) 0 0 30
                             ∅ 0%Z cuts store' G c Hc))).
  - vm_compute in G. discriminate G.
Defined.


(* ------------------------------------------------------------------ *)
(** ** The subtitle file and the final video *)

Lemma length_append (a b : string) :
  String.length (a +:+ b) = (String.length a + String.length b)%nat.
Proof.
  induction a as [|c a IH]; [reflexivity|].
  rewrite append_cons. cbn [String.length]. now rewrite IH.
Qed.

Lemma lstrip_keeps (a : string) (x : ascii) (b : string) :
  is_space x = false ->
  exists a', lstrip (a +:+ String x b) = a' +:+ String x b.
Proof.
  intro Hx. induction a as [|c a [a' IH]].
  - exists EmptyString. change (EmptyString +:+ String x b) with (String x b).
    cbn [lstrip]. now rewrite Hx.
  - rewrite append_cons. cbn [lstrip]. destruct (is_space c).
    + exists a'. exact IH.
    + exists (String c a). now rewrite append_cons.
Qed.

(** Stripping keeps everything between the first character, when it is
    not white space, and a later character that is not white space. *)
Lemma strip_keeps (c x : ascii) (p r : string) :
  is_space c = false -> is_space x = false ->
  exists k, strip (String c p +:+ String x r) = String c p +:+ String x k.
Proof.
  intros Hc Hx. unfold strip.
  rewrite append_cons. cbn [lstrip]. rewrite Hc. rewrite <- append_cons.
  set (P := String c p). unfold rstrip.
  assert (E1 : rev_string EmptyString (P +:+ String x r)
               = rev_string EmptyString r +:+ String x (rev_string EmptyString P)).
  { rewrite rev_string_append.
    change (rev_string EmptyString (String x r)) with (rev_string (String x EmptyString) r).
    rewrite (rev_string_app r (String x EmptyString)). now rewrite append_assoc. }
  rewrite E1.
  destruct (lstrip_keeps (rev_string EmptyString r) x (rev_string EmptyString P) Hx)
    as [a' E].
  rewrite E. rewrite rev_string_append.
  change (rev_string EmptyString (String x (rev_string EmptyString P)))
    with (rev_string (String x EmptyString) (rev_string EmptyString P)).
  rewrite (rev_string_app (rev_string EmptyString P)).
  rewrite rev_string_involutive.
  exists (rev_string EmptyString a'). now rewrite append_assoc.
Qed.

Lemma full_clip_cue_long (cut_duration : Q) (text : string) :
  (18 <= String.length (strip (full_clip_cue cut_duration text)))%nat.
Proof.
  change (full_clip_cue cut_duration text)
    with (String "1" (String (chr 10) "00:00:00,000 --")
          +:+ String ">" (" " +:+ format_srt_time cut_duration +:+ nl +:+ text
                              +:+ nl +:+ nl)).
  destruct (strip_keeps "1" ">" (String (chr 10) "00:00:00,000 --")
              (" " +:+ format_srt_time cut_duration +:+ nl +:+ text +:+ nl +:+ nl)
              eq_refl eq_refl) as [k E].
  rewrite E, length_append. cbn [String.length]. lia.
Qed.



(* ------------------------------------------------------------------ *)
(** ** The plain-text branch *)

Lemma word_groups_nonempty (fuel size : nat) (words : list string) :
  words <> [] -> (0 < fuel)%nat -> word_groups fuel size words <> [].
Proof.
  intros NE Hf. destruct fuel as [|f]; [lia|].
  destruct words; [congruence | discriminate].
Qed.

Lemma split_into_sentences_nonempty (text : string) : split_into_sentences text <> [].
Proof.
  unfold split_into_sentences. cbv zeta.
  set (s2 := if (List.length (scan_sentences EmptyString text) <=? 1)%nat
             then List.filter nonempty (map strip (split_char "," text))
             else scan_sentences EmptyString text).
  destruct (List.length s2 <=? 1)%nat eqn:E.
  - destruct (10 <? List.length (split text))%nat eqn:W; [|discriminate].
    apply Nat.ltb_lt in W. apply word_groups_nonempty; [|lia].
    intro Z. rewrite Z in W. cbn in W. lia.
  - apply Nat.leb_gt in E. intro Z. rewrite Z in E. cbn in E. lia.
Qed.

Lemma sentence_cues_render tps cut_duration sentences : forall i,
  sentence_cues tps cut_duration i sentences
  = render_cues (plain_cues tps cut_duration i sentences).
Proof.
  induction sentences as [|s rest IH]; intro i; [reflexivity|].
  cbn [sentence_cues plain_cues render_cues]. now rewrite IH.
Qed.

Lemma plain_cues_facts tps cut_duration sentences : forall i,
  List.length (plain_cues tps cut_duration i sentences) = List.length sentences
  /\ map cue_index (plain_cues tps cut_duration i sentences)
     = map (fun k => (i + 1 + Z.of_nat k)%Z) (seq 0 (List.length sentences))
  /\ Forall (fun c => cue_end c <= cut_duration)
       (plain_cues tps cut_duration i sentences).
Proof.
  induction sentences as [|s rest IH]; intro i.
  - repeat split. constructor.
  - destruct (IH (i + 1)%Z) as (L & I & F).
    cbn [plain_cues List.length map seq cue_index]. repeat split.
    + now rewrite L.
    + f_equal; [lia|]. rewrite I. rewrite <- seq_shift, map_map.
      apply map_ext. intro k. lia.
    + constructor; [|exact F]. cbn [cue_end].
      destruct (py_min_spec (fmul (inject_Z (i + 1)) tps) cut_duration) as (_ & M & _).
      exact M.
Qed.

Lemma plain_content_render (cut_duration : Q) (data : string) :
  exists c cs, plain_content cut_duration data = render_cues (c :: cs).
Proof.
  unfold plain_content. cbv zeta.
  set (text := clean_text (if nonempty (strip data) then strip data
                           else auto_transcription)).
  pose proof (split_into_sentences_nonempty text) as NE.
  destruct (split_into_sentences text) as [|s rest] eqn:E; [congruence|].
  rewrite sentence_cues_render. cbn [plain_cues]. eexists. eexists. reflexivity.
Qed.

(** X9.  For a plain-text transcription [split_into_sentences] never gives
    an empty list, so the full-clip cue of that branch is never written:
    the content is one cue per sentence, numbered from 1 in order, none
    ending after the clip does. *)
Theorem plain_content_cues (cut_duration : Q) (data : string) :
  let text := clean_text (if nonempty (strip data) then strip data
                          else auto_transcription) in
  let sentences := split_into_sentences text in
  let time_per_sentence :=
    py_max 1 (fdiv cut_duration (inject_Z (Z.of_nat (List.length sentences)))) in
  let cues := plain_cues time_per_sentence cut_duration 0 sentences in
  sentences <> []
  /\ plain_content cut_duration data = render_cues cues
  /\ List.length cues = List.length sentences
  /\ map cue_index cues
     = map (fun k => (1 + Z.of_nat k)%Z) (seq 0 (List.length sentences))
  /\ Forall (fun c => cue_end c <= cut_duration) cues.
Proof.
  cbv zeta. unfold plain_content. cbv zeta.
  set (text := clean_text (if nonempty (strip data) then strip data
                           else auto_transcription)).
  pose proof (split_into_sentences_nonempty text) as NE.
  destruct (split_into_sentences text) as [|s rest] eqn:E; [congruence|].
  set (tps := py_max 1 (fdiv cut_duration
                          (inject_Z (Z.of_nat (List.length (s :: rest)))))).
  destruct (plain_cues_facts tps cut_duration (s :: rest) 0) as (L & I & F).
  split; [discriminate|]. split; [apply sentence_cues_render|].
  split; [exact L|]. split; [exact I | exact F].
Qed.


(* ------------------------------------------------------------------ *)
(** ** The closing checks of [create_subtitles] *)

(** *** Characters of the numbers printed *)

Lemma solid_append (a b : string) : solid (a +:+ b) = solid a && solid b.
Proof.
  induction a as [|c a IH]; [reflexivity|].
  rewrite append_cons. cbn [solid]. rewrite IH. now rewrite andb_assoc.
Qed.

Lemma solid_uint (d : Decimal.uint) : solid (NilEmpty.string_of_uint d) = true.
Proof. induction d; cbn [NilEmpty.string_of_uint solid]; try rewrite IHd; reflexivity. Qed.

Lemma solid_uint0 (d : Decimal.uint) : solid (NilZero.string_of_uint d) = true.
Proof. destruct d; try reflexivity; apply (solid_uint (_ d)). Qed.

Lemma nonempty_uint0 (d : Decimal.uint) : nonempty (NilZero.string_of_uint d) = true.
Proof. destruct d; reflexivity. Qed.

Lemma solid_str_of_Z (n : Z) : solid (str_of_Z n) = true /\ nonempty (str_of_Z n) = true.
Proof.
  unfold str_of_Z, NilZero.string_of_int.
  destruct (Z.to_int n) as [d|d].
  - split; [apply solid_uint0 | apply nonempty_uint0].
  - split; [cbn [solid]; now rewrite solid_uint0 | reflexivity].
Qed.

Lemma solid_zeros (n : nat) : solid (zeros n) = true.
Proof. induction n as [|n IH]; [reflexivity|]. cbn [zeros solid]. now rewrite IH. Qed.

Lemma length_zeros (n : nat) : String.length (zeros n) = n.
Proof. induction n as [|n IH]; [reflexivity|]. cbn [zeros String.length]. now rewrite IH. Qed.

Lemma zfill_facts (w : nat) (n : Z) :
  solid (zfill w n) = true /\ (w <= String.length (zfill w n))%nat.
Proof.
  unfold zfill. cbv zeta.
  set (digits := NilZero.string_of_uint (N.to_uint (Z.abs_N n))).
  assert (S : solid digits = true) by apply solid_uint0.
  assert (L : (1 <= String.length digits)%nat).
  { pose proof (nonempty_uint0 (N.to_uint (Z.abs_N n))) as NE. fold digits in NE.
    destruct digits; [discriminate | cbn [String.length]; lia]. }
  destruct (n <? 0)%Z.
  - split.
    + cbn [solid]. rewrite solid_append, solid_zeros, S. reflexivity.
    + cbn [String.length]. rewrite length_append, length_zeros. lia.
  - split.
    + now rewrite solid_append, solid_zeros, S.
    + rewrite length_append, length_zeros. lia.
Qed.

(** A stamp has at least twelve characters, none of them white space. *)
Lemma format_srt_time_facts (seconds : Q) :
  solid (format_srt_time seconds) = true
  /\ (12 <= String.length (format_srt_time seconds))%nat.
Proof.
  unfold format_srt_time. cbv zeta.
  set (h := py_int (floor_div seconds 3600)).
  set (m := py_int (floor_div (py_mod seconds 3600) 60)).
  set (s := py_int (py_mod seconds 60)).
  set (ms := py_int (fmul (py_mod seconds 1) 1000)).
  destruct (zfill_facts 2 h) as [S1 L1]. destruct (zfill_facts 2 m) as [S2 L2].
  destruct (zfill_facts 2 s) as [S3 L3]. destruct (zfill_facts 3 ms) as [S4 L4].
  split.
  - rewrite !solid_append, S1, S2, S3, S4. reflexivity.
  - rewrite !length_append. cbn [String.length]. lia.
Qed.

Lemma solid_head (s : string) :
  solid s = true -> nonempty s = true ->
  exists c r, s = String c r /\ is_space c = false.
Proof.
  destruct s as [|c r]; [discriminate|]. cbn [solid]. intros H _.
  apply andb_true_iff in H. destruct H as [H _]. apply negb_true_iff in H.
  now exists c, r.
Qed.

Lemma format_srt_time_head (seconds : Q) :
  exists c r, format_srt_time seconds = String c r /\ is_space c = false.
Proof.
  destruct (format_srt_time_facts seconds) as [S L].
  apply solid_head; [exact S|].
  destruct (format_srt_time seconds); [cbn in L; lia | reflexivity].
Qed.

(** *** A text that holds the marker has a line that holds it *)

Lemma prefix_cons (x y : ascii) (n s : string) :
  String.prefix (String x n) (String y s) = Ascii.eqb x y && String.prefix n s.
Proof.
  cbn [String.prefix]. destruct (ascii_dec x y) as [->|Ne].
  - now rewrite Ascii.eqb_refl.
  - apply Ascii.eqb_neq in Ne. now rewrite Ne.
Qed.

Lemma prefix_lacks (c : ascii) (r : string) : forall a n,
  lacks c n = true -> String.prefix n (a +:+ String c r) = true ->
  String.prefix n a = true.
Proof.
  induction a as [|y a IH]; intros n L H.
  - destruct n as [|x n]; [reflexivity|].
    change (EmptyString +:+ String c r) with (String c r) in H.
    rewrite prefix_cons in H. apply andb_true_iff in H. destruct H as [H _].
    cbn [lacks] in L. apply andb_true_iff in L. destruct L as [L _].
    apply negb_true_iff in L. apply Ascii.eqb_eq in H. subst x.
    now rewrite Ascii.eqb_refl in L.
  - destruct n as [|x n]; [reflexivity|].
    rewrite append_cons, prefix_cons in H. rewrite prefix_cons.
    apply andb_true_iff in H. destruct H as [H1 H2]. rewrite H1. cbn [andb].
    cbn [lacks] in L. apply andb_true_iff in L. destruct L as [_ L].
    now apply IH.
Qed.

Lemma contains_lacks (c : ascii) (n r : string) : forall a,
  lacks c n = true -> contains n (a +:+ String c r) = true ->
  contains n a = true \/ contains n r = true.
Proof.
  induction a as [|y a IH]; intros L H.
  - change (EmptyString +:+ String c r) with (String c r) in H.
    rewrite contains_eq in H. apply orb_true_iff in H. destruct H as [H|H].
    + left. rewrite contains_eq.
      now rewrite (prefix_lacks c r EmptyString n L H).
    + now right.
  - rewrite append_cons, contains_eq in H. apply orb_true_iff in H.
    destruct H as [H|H].
    + left. rewrite contains_eq.
      rewrite <- append_cons in H. now rewrite (prefix_lacks c r (String y a) n L H).
    + destruct (IH L H) as [X|X]; [left | now right].
      rewrite contains_eq, X. apply orb_true_r.
Qed.

Lemma split_on_contains (c : ascii) (n : string) :
  lacks c n = true ->
  forall s cur,
    contains n (rev_string EmptyString cur +:+ s) = true ->
    existsb (contains n) (split_on c cur s) = true.
Proof.
  intros L. induction s as [|d s IH]; intros cur H.
  - rewrite append_empty_r in H. cbn [split_on existsb]. now rewrite H.
  - cbn [split_on]. destruct (Ascii.eqb c d) eqn:E.
    + apply Ascii.eqb_eq in E. subst d. cbn [existsb].
      destruct (contains_lacks c n s _ L H) as [X|X]; [now rewrite X|].
      rewrite (IH EmptyString X). apply orb_true_r.
    + apply IH. cbn [rev_string]. rewrite (rev_string_app cur).
      now rewrite append_assoc.
Qed.

Lemma has_time_marker_contains (content : string) :
  contains "-->" content = true -> has_time_marker content = true.
Proof.
  intro H. unfold has_time_marker, split_char.
  apply split_on_contains; [reflexivity | exact H].
Qed.

Lemma contains_middle (n : string) : forall a b, contains n (a +:+ n +:+ b) = true.
Proof.
  assert (P : forall m b, String.prefix m (m +:+ b) = true).
  { induction m as [|x m IH]; intro b; [apply prefix_empty|].
    rewrite append_cons, prefix_cons, Ascii.eqb_refl. apply IH. }
  induction a as [|y a IH]; intro b.
  - change (EmptyString +:+ n +:+ b) with (n +:+ b). rewrite contains_eq, P. reflexivity.
  - rewrite append_cons, contains_eq, IH. apply orb_true_r.
Qed.

(** *** Content that passes the checks *)

Lemma finalize_srt_keeps cut_duration cut_id content :
  nonempty (strip content) = true ->
  (20 <= String.length (strip content))%nat ->
  has_time_marker content = true ->
  finalize_srt cut_duration cut_id content = content.
Proof.
  intros H1 H2 H3. unfold finalize_srt. cbv zeta. rewrite H1.
  assert (E : (String.length (strip content) <? 20)%nat = false)
    by now apply Nat.ltb_ge.
  now rewrite E, H3.
Qed.

Lemma finalize_srt_blank cut_duration cut_id content :
  blank content = true ->
  finalize_srt cut_duration cut_id content
  = finalize_srt cut_duration cut_id (embedded_cue cut_duration cut_id).
Proof.
  intro H. unfold finalize_srt. cbv zeta.
  rewrite (nonempty_strip content), H. cbn [negb].
  fold (embedded_cue cut_duration cut_id).
  assert (E : nonempty (strip (embedded_cue cut_duration cut_id)) = true).
  { pose proof (full_clip_cue_long cut_duration
                  (default_text cut_id +:+ "\NLegendas embutidas no v"
                     +:+ str1 (chr 237) +:+ "deo")) as L.
    fold (embedded_cue cut_duration cut_id) in L.
    destruct (strip (embedded_cue cut_duration cut_id)); [cbn in L; lia | reflexivity]. }
  now rewrite E.
Qed.

(** A text that begins with a cue block, its index and second stamp
    free of white space and its first stamp twelve characters long or
    more, passes the three checks. *)
Lemma cue_block_passes cut_duration cut_id (index start_str end_str text rest : string) :
  solid index = true -> nonempty index = true ->
  (12 <= String.length start_str)%nat ->
  solid end_str = true -> nonempty end_str = true ->
  let content :=
    (index +:+ nl +:+ start_str +:+ arrow +:+ end_str +:+ nl +:+ text +:+ nl +:+ nl)
      +:+ rest in
  finalize_srt cut_duration cut_id content = content.
Proof.
  intros S1 N1 L S2 N2 content.
  destruct (solid_head index S1 N1) as (c & p & Ei & Hc).
  destruct (solid_head end_str S2 N2) as (x & r & Ee & Hx).
  assert (E : content
              = String c (p +:+ nl +:+ start_str +:+ arrow)
                  +:+ String x (r +:+ nl +:+ text +:+ nl +:+ nl +:+ rest)).
  { unfold content. rewrite Ei, Ee.
    rewrite !append_cons, !append_assoc, !append_cons, !append_assoc. reflexivity. }
  destruct (strip_keeps c x (p +:+ nl +:+ start_str +:+ arrow)
              (r +:+ nl +:+ text +:+ nl +:+ nl +:+ rest) Hc Hx) as [k K].
  rewrite <- E in K.
  apply finalize_srt_keeps.
  - rewrite K. reflexivity.
  - rewrite K. rewrite length_append. cbn [String.length].
    rewrite !length_append. change (String.length nl) with 1%nat.
    change (String.length arrow) with 5%nat. lia.
  - apply has_time_marker_contains. unfold content.
    replace ((index +:+ nl +:+ start_str +:+ arrow +:+ end_str +:+ nl +:+ text
                +:+ nl +:+ nl) +:+ rest)
      with ((index +:+ nl +:+ start_str +:+ " ") +:+ "-->"
              +:+ (" " +:+ end_str +:+ nl +:+ text +:+ nl +:+ nl +:+ rest)).
    + apply contains_middle.
    + unfold arrow. rewrite !append_assoc. reflexivity.
Qed.

Lemma finalize_srt_cues cut_duration cut_id (c : cue) (cs : list cue) :
  finalize_srt cut_duration cut_id (render_cues (c :: cs)) = render_cues (c :: cs).
Proof.
  cbn [render_cues]. unfold render_cue, cue_block.
  destruct (solid_str_of_Z (cue_index c)) as [S1 N1].
  destruct (format_srt_time_facts (cue_start c)) as [_ L].
  destruct (format_srt_time_facts (cue_end c)) as [S2 L2].
  apply cue_block_passes; auto.
  destruct (format_srt_time (cue_end c)); [cbn in L2; lia | reflexivity].
Qed.

Lemma finalize_srt_full_clip cut_duration cut_id (length_shown : Q) (text : string) :
  finalize_srt cut_duration cut_id (full_clip_cue length_shown text)
  = full_clip_cue length_shown text.
Proof.
  destruct (format_srt_time_facts length_shown) as [S2 L2].
  assert (N2 : nonempty (format_srt_time length_shown) = true)
    by (destruct (format_srt_time length_shown); [cbn in L2; lia | reflexivity]).
  assert (L1 : (12 <= String.length time_zero)%nat) by (cbn; lia).
  pose proof (cue_block_passes cut_duration cut_id (str_of_Z 1) time_zero
                (format_srt_time length_shown) text EmptyString
                (proj1 (solid_str_of_Z 1)) (proj2 (solid_str_of_Z 1)) L1 S2 N2) as H.
  cbv zeta in H. rewrite append_empty_r in H. exact H.
Qed.

Lemma render_cues_empty (cs : list cue) : render_cues cs = EmptyString -> cs = [].
Proof.
  destruct cs as [|c cs]; [reflexivity|]. cbn [render_cues]. unfold render_cue, cue_block.
  destruct (solid_str_of_Z (cue_index c)) as [_ N].
  destruct (str_of_Z (cue_index c)); [discriminate|].
  rewrite append_cons. discriminate.
Qed.

(** X10.  What [create_subtitles] writes, case by case.  The closing checks
    change the content only when the loop over the segments produced no
    cue, and then to the cue with the default text and the line
    [Legendas embutidas no video]; the two other replacement captions
    are never written. *)
Theorem create_subtitles_content probe cut_probe (store : gmap Z Q) data cut_id :
  let cut_duration := probed_cut_duration cut_probe in
  fst (create_subtitles probe cut_probe store data cut_id)
  = match data with
    | TNone => plain_content cut_duration (default_text cut_id)
    | TPlain s =>
        plain_content cut_duration (if blank s then default_text cut_id else s)
    | TStructured text [] => full_clip_cue cut_duration text
    | TStructured text segments =>
        match spec_cues (fst (get_cut_start_time probe store cut_id)) cut_duration 1
                segments with
        | [] => embedded_cue cut_duration cut_id
        | cues => render_cues cues
        end
    end.
Proof.
  cbv zeta.
  assert (P : forall s,
            finalize_srt (probed_cut_duration cut_probe) cut_id
              (plain_content (probed_cut_duration cut_probe) s)
            = plain_content (probed_cut_duration cut_probe) s).
  { intro s.
    destruct (plain_content_render (probed_cut_duration cut_probe) s) as (c & cs & E).
    rewrite E. apply finalize_srt_cues. }
  unfold create_subtitles. destruct data as [|s|text segs].
  - cbn [fst]. apply P.
  - rewrite (nonempty_strip s). destruct (blank s); cbn [negb fst]; apply P.
  - destruct segs as [|seg rest].
    + cbn [fst]. apply finalize_srt_full_clip.
    + rewrite segment_loop by discriminate. cbn [srt_content fst].
      destruct (spec_cues _ _ 1 (seg :: rest)) as [|c cs].
      * cbn [render_cues]. rewrite finalize_srt_blank by reflexivity.
        apply finalize_srt_full_clip.
      * apply finalize_srt_cues.
Qed.


(* ------------------------------------------------------------------ *)
(** ** Processing counters *)

(** X11.  Counting a run and reading the count back: the count of the video
    goes up by one, the counts of the other videos stay, and a counter
    file that cannot be read is left as it is, so that every count read
    from it stays 0. *)
Theorem processing_count_round_trip (file : counter_file) (video_id other : string) :
  (file <> broken_file ->
   _get_processing_count (_increment_processing_count file video_id) video_id
   = (_get_processing_count file video_id + 1)%Z)
  /\ (other <> video_id ->
      _get_processing_count (_increment_processing_count file video_id) other
      = _get_processing_count file other)
  /\ (file = broken_file ->
      _increment_processing_count file video_id = broken_file
      /\ _get_processing_count (_increment_processing_count file video_id) video_id
         = 0%Z).
Proof.
  split; [|split].
  - intro H. destruct file as [| |counters]; [|congruence|].
    + cbn [_increment_processing_count _get_processing_count].
      now rewrite lookup_insert_eq.
    + cbn [_increment_processing_count _get_processing_count].
      now rewrite lookup_insert_eq.
  - intro H. destruct file as [| |counters]; [|reflexivity|].
    + cbn [_increment_processing_count _get_processing_count].
      rewrite lookup_insert_ne by congruence. now rewrite lookup_empty.
    + cbn [_increment_processing_count _get_processing_count].
      now rewrite lookup_insert_ne by congruence.
  - intros ->. split; reflexivity.
Qed.

Lemma processing_count_round_trip_witness :
  _get_processing_count (_increment_processing_count no_file "a.mp4_1") "a.mp4_1"
  = (_get_processing_count no_file "a.mp4_1" + 1)%Z
  /\ _get_processing_count (_increment_processing_count no_file "a.mp4_1") "b.mp4_2"
     = _get_processing_count no_file "b.mp4_2"
  /\ _get_processing_count (_increment_processing_count broken_file "a.mp4_1") "a.mp4_1"
     = 0%Z.
Proof.
  assert (H1 : no_file <> broken_file) by discriminate.
  assert (H2 : "b.mp4_2"%string <> "a.mp4_1"%string) by discriminate.
  split; [exact (proj1 (processing_count_round_trip no_file "a.mp4_1" "b.mp4_2") H1)|].
  split; [exact (proj1 (proj2 (processing_count_round_trip no_file "a.mp4_1" "b.mp4_2"))
                   H2)|].
  exact (proj2 (proj2 (proj2 (processing_count_round_trip broken_file "a.mp4_1" "b.mp4_2"))
                        eq_refl)).
Defined.

(* ------------------------------------------------------------------ *)
(** ** Fallback analysis *)






(* ------------------------------------------------------------------ *)
(** ** Cuts made by [create_simple_cut] *)




(* ------------------------------------------------------------------ *)
(** ** Routing of a URL request *)

Lemma prefix_inv (n : string) : forall s,
  String.prefix n s = true -> exists q, s = n +:+ q.
Proof.
  induction n as [|x n IH]; intros s H.
  - exists s. reflexivity.
  - destruct s as [|y s]; [discriminate|].
    rewrite prefix_cons in H. apply andb_true_iff in H. destruct H as [H1 H2].
    apply Ascii.eqb_eq in H1. subst y.
    destruct (IH s H2) as [q ->]. exists q. now rewrite append_cons.
Qed.

Lemma contains_inv (n : string) : forall s,
  contains n s = true -> exists p q, s = p +:+ n +:+ q.
Proof.
  induction s as [|y s IH]; intro H; rewrite contains_eq in H;
    apply orb_true_iff in H.
  - destruct H as [H|H]; [|discriminate].
    destruct (prefix_inv n _ H) as [q E]. exists EmptyString, q. exact E.
  - destruct H as [H|H].
    + destruct (prefix_inv n _ H) as [q E]. exists EmptyString, q. exact E.
    + destruct (IH H) as (p & q & ->). exists (String y p), q.
      now rewrite append_cons.
Qed.

(** A text that holds [a + n + b] holds [n]. *)
Lemma contains_part (a n b s : string) :
  contains (a +:+ n +:+ b) s = true -> contains n s = true.
Proof.
  intro H. destruct (contains_inv _ _ H) as (p & q & ->).
  replace (p +:+ (a +:+ n +:+ b) +:+ q) with ((p +:+ a) +:+ n +:+ (b +:+ q))
    by now rewrite !append_assoc.
  apply contains_middle.
Qed.

(** X14.  The route of a URL request.  A missing or blank URL is refused; a
    URL whose lower-case form holds [demo] or [test] anywhere runs the
    demonstration, also when it is a YouTube address (the two addresses
    in the list of demonstration URLs add nothing); any other URL is
    downloaded when it starts with one of the two YouTube prefixes and
    refused otherwise. *)
Theorem route_url_cases (video_url : string) :
  let url := strip video_url in
  route_url video_url
  = if blank video_url then url_missing
    else if contains "demo" (lower url) || contains "test" (lower url) then demo_run
    else if String.prefix "https://www.youtube.com/" url
            || String.prefix "https://youtu.be/" url
    then youtube_download
    else url_rejected.
Proof.
  cbv zeta. unfold route_url. cbv zeta.
  rewrite nonempty_strip, negb_involutive.
  destruct (blank video_url); [reflexivity|].
  unfold demo_urls. cbn [existsb]. rewrite orb_false_r.
  set (u := lower (strip video_url)).
  assert (E : contains "demo" u || (contains "test" u
                || (contains "https://www.youtube.com/watch?v=demo" u
                    || contains "https://youtu.be/demo" u))
              = contains "demo" u || contains "test" u).
  { destruct (contains "demo" u) eqn:D; [reflexivity|]. cbn [orb].
    destruct (contains "test" u); [reflexivity|]. cbn [orb].
    destruct (contains "https://www.youtube.com/watch?v=demo" u) eqn:A.
    - pose proof (contains_part "https://www.youtube.com/watch?v=" "demo"
                    EmptyString u A). congruence.
    - destruct (contains "https://youtu.be/demo" u) eqn:B; [|reflexivity].
      pose proof (contains_part "https://youtu.be/" "demo" EmptyString u B).
      congruence. }
  rewrite E. destruct (contains "demo" u || contains "test" u); [reflexivity|].
  destruct (String.prefix "https://www.youtube.com/" (strip video_url));
    destruct (String.prefix "https://youtu.be/" (strip video_url)); reflexivity.
Qed.


(* ------------------------------------------------------------------ *)
(** ** Where the cues lie in the clip *)



(* ------------------------------------------------------------------ *)
(** ** Whole numbers in binary64 *)

Lemma round_half_even_whole (q : Q) (k : Z) : q == inject_Z k -> round_half_even q = k.
Proof.
  intro H. unfold round_half_even. cbv zeta.
  assert (F : Qfloor q = k) by (rewrite H; apply Qfloor_Z).
  rewrite F.
  assert (L : q - inject_Z k < 1 # 2) by (rewrite H; unfold Qminus; rewrite Qplus_opp_r; reflexivity).
  assert (C : (q - inject_Z k ?= 1 # 2) = Lt) by (apply Qlt_alt; exact L).
  now rewrite C.
Qed.

Lemma Qpow2_neg (u : Z) :
  (u <= 0)%Z -> Qpow2 u * inject_Z (2 ^ (- u)) == 1.
Proof.
  intro H. unfold Qpow2.
  destruct (0 <=? u)%Z eqn:E.
  - apply Z.leb_le in E. assert (u = 0%Z) by lia. subst u. reflexivity.
  - assert (P : (0 < 2 ^ (- u))%Z) by (apply Z.pow_pos_nonneg; lia).
    rewrite (Qmake_Qdiv 1 (Z.to_pos (2 ^ (- u)))).
    rewrite Z2Pos.id by exact P.
    field. intro X. unfold Qeq in X. cbn [inject_Z Qnum Qden] in X. lia.
Qed.

Lemma floor_log2_whole (p : positive) : floor_log2 (inject_Z (Zpos p)) = Z.log2 (Zpos p).
Proof.
  unfold floor_log2. cbn [Qnum Qden inject_Z]. change (Z.log2 1) with 0%Z.
  rewrite Z.sub_0_r.
  assert (E : Qle_bool (Qpow2 (Z.log2 (Z.pos p))) (inject_Z (Z.pos p)) = true).
  { apply Qle_bool_iff. unfold Qpow2.
    assert (L : (0 <= Z.log2 (Z.pos p))%Z) by apply Z.log2_nonneg.
    apply Z.leb_le in L. rewrite L. rewrite <- Zle_Qle.
    apply Z.log2_spec. lia. }
  now rewrite E.
Qed.

Lemma Qred_whole (i : Z) : Qred (inject_Z i) = inject_Z i.
Proof.
  unfold Qred, inject_Z.
  pose proof (Z.ggcd_gcd i 1) as G. pose proof (Z.ggcd_correct_divisors i 1) as D.
  destruct (Z.ggcd i 1) as [g [a b]]. cbn [fst snd] in *.
  rewrite Z.gcd_1_r in G. subst g. destruct D as [Da Db].
  assert (Ea : a = i) by lia. assert (Eb : b = 1%Z) by lia.
  rewrite Ea, Eb. reflexivity.
Qed.

(** A whole number below [2 ^ 53] is a binary64 number. *)
Lemma round_b64_whole (i : Z) :
  (0 <= i < 2 ^ 53)%Z -> round_b64 (inject_Z i) = inject_Z i.
Proof.
  intros [H0 H1]. unfold round_b64. cbv zeta.
  rewrite Qred_whole. cbn [inject_Z Qnum].
  destruct i as [|p|p]; [reflexivity| |lia].
  unfold round_b64_pos. cbv zeta.
  change (Z.pos p # 1) with (inject_Z (Z.pos p)).
  rewrite floor_log2_whole.
  assert (L : (0 <= Z.log2 (Z.pos p) < 53)%Z).
  { split; [apply Z.log2_nonneg|]. apply Z.log2_lt_pow2; lia. }
  set (u := Z.max (Z.log2 (Z.pos p) - 52) (-1074)).
  assert (U : (u <= 0)%Z) by (unfold u; lia).
  pose proof (Qpow2_neg u U) as K. pose proof (Qpow2_pos u) as Pp.
  assert (D : inject_Z (Z.pos p) / Qpow2 u == inject_Z (Z.pos p * 2 ^ (- u))).
  { rewrite inject_Z_mult. rewrite <- (Qmult_1_r (inject_Z (Z.pos p) / Qpow2 u)).
    rewrite <- K. field. lra. }
  rewrite (round_half_even_whole _ _ D).
  rewrite <- (Qred_whole (Z.pos p)).
  apply Qred_complete.
  rewrite inject_Z_mult, <- Qmult_assoc, (Qmult_comm (inject_Z (2 ^ (- u)))), K.
  ring.
Qed.

(* ------------------------------------------------------------------ *)
(** ** Plain-text cues that start after the clip ends *)

Lemma plain_cues_nth tps cut_duration sentences : forall (i : Z) (k : nat) (c : cue),
  nth_error (plain_cues tps cut_duration i sentences) k = Some c ->
  cue_start c = fmul (inject_Z (i + Z.of_nat k)) tps
  /\ cue_end c = py_min (fmul (inject_Z (i + Z.of_nat k + 1)) tps) cut_duration.
Proof.
  induction sentences as [|s rest IH]; intros i k c H.
  - destruct k; discriminate.
  - destruct k as [|k]; cbn [plain_cues nth_error] in H.
    + injection H as <-. cbn [cue_start cue_end].
      now replace (i + Z.of_nat 0)%Z with i by lia.
    + destruct (IH (i + 1)%Z k c H) as [A B].
      replace (i + Z.of_nat (S k))%Z with (i + 1 + Z.of_nat k)%Z by lia.
      now split.
Qed.

Lemma fmul_one (i : Z) : (0 <= i < 2 ^ 53)%Z -> fmul (inject_Z i) 1 = inject_Z i.
Proof.
  intro H. unfold fmul.
  rewrite (round_b64_proper (inject_Z i * 1) (inject_Z i)) by ring.
  now apply round_b64_whole.
Qed.

(** X16.  With more sentences than the clip has seconds the time per sentence
    is held at one second, cue [k + 1] starts at second [k] and ends at
    the clip's end at the latest; so every cue past the clip's length
    starts after it ends. *)
Theorem plain_cues_past_the_end (cut_duration : Q) (data : string) :
  let text := clean_text (if nonempty (strip data) then strip data
                          else auto_transcription) in
  let sentences := split_into_sentences text in
  let time_per_sentence :=
    py_max 1 (fdiv cut_duration (inject_Z (Z.of_nat (List.length sentences)))) in
  let cues := plain_cues time_per_sentence cut_duration 0 sentences in
  fdiv cut_duration (inject_Z (Z.of_nat (List.length sentences))) <= 1 ->
  (Z.of_nat (List.length sentences) < 2 ^ 53)%Z ->
  plain_content cut_duration data = render_cues cues
  /\ forall k c, nth_error cues k = Some c ->
       cue_start c = inject_Z (Z.of_nat k)
       /\ cue_end c = py_min (inject_Z (Z.of_nat k + 1)) cut_duration
       /\ (cut_duration < inject_Z (Z.of_nat k) -> cue_end c < cue_start c).
Proof.
  cbv zeta. intros H1 H2. split.
  - unfold plain_content. cbv zeta.
    pose proof (split_into_sentences_nonempty
                  (clean_text (if nonempty (strip data) then strip data
                               else auto_transcription))) as NE.
    destruct (split_into_sentences _) as [|s rest]; [congruence|].
    apply sentence_cues_render.
  - intros k c Hk.
    assert (T : py_max 1 (fdiv cut_duration
                  (inject_Z (Z.of_nat (List.length (split_into_sentences
                     (clean_text (if nonempty (strip data) then strip data
                                  else auto_transcription))))))) = 1).
    { unfold py_max.
      assert (E : Qlt_bool 1 (fdiv cut_duration
                    (inject_Z (Z.of_nat (List.length (split_into_sentences
                       (clean_text (if nonempty (strip data) then strip data
                                    else auto_transcription))))))) = false)
        by now apply Qlt_bool_false.
      now rewrite E. }
    rewrite T in Hk.
    assert (Lk : (k < List.length (split_into_sentences
                       (clean_text (if nonempty (strip data) then strip data
                                    else auto_transcription))))%nat).
    { assert (X : (k < List.length (plain_cues 1 cut_duration 0
                          (split_into_sentences
                             (clean_text (if nonempty (strip data) then strip data
                                          else auto_transcription)))))%nat)
        by (apply nth_error_Some; congruence).
      now rewrite (proj1 (plain_cues_facts _ _ _ _)) in X. }
    destruct (plain_cues_nth _ _ _ _ _ _ Hk) as [A B].
    rewrite Z.add_0_l in A, B.
    rewrite fmul_one in A by lia. rewrite fmul_one in B by lia.
    split; [exact A|]. split; [exact B|].
    intro L. rewrite A, B.
    destruct (py_min_spec (inject_Z (Z.of_nat k + 1)) cut_duration) as (_ & M & _).
    lra.
Qed.

Lemma plain_cues_past_the_end_witness :
  exists c,
    nth_error (plain_cues (py_max 1 (fdiv 1 (inject_Z (Z.of_nat (List.length
                 (split_into_sentences (clean_text
                    (if nonempty (strip "a. b. c.") then strip "a. b. c."
                     else auto_transcription))))))))
                 1 0
                 (split_into_sentences (clean_text
                    (if nonempty (strip "a. b. c.") then strip "a. b. c."
                     else auto_transcription)))) 2 = Some c
    /\ cue_end c < cue_start c.
Proof.
  destruct (nth_error (plain_cues (py_max 1 (fdiv 1 (inject_Z (Z.of_nat (List.length
                 (split_into_sentences (clean_text
                    (if nonempty (strip "a. b. c.") then strip "a. b. c."
                     else auto_transcription))))))))
                 1 0
                 (split_into_sentences (clean_text
                    (if nonempty (strip "a. b. c.") then strip "a. b. c."
                     else auto_transcription)))) 2) as [c|] eqn:G.
  - exists c. split; [reflexivity|].
    assert (H1 : fdiv 1 (inject_Z (Z.of_nat (List.length
                 (split_into_sentences (clean_text
                    (if nonempty (strip "a. b. c.") then strip "a. b. c."
                     else auto_transcription)))))) <= 1)
      by (vm_compute; discriminate).
    assert (H2 : (Z.of_nat (List.length
                 (split_into_sentences (clean_text
                    (if nonempty (strip "a. b. c.") then strip "a. b. c."
                     else auto_transcription)))) < 2 ^ 53)%Z)
      by (vm_compute; reflexivity).
    assert (H3 : 1 < inject_Z (Z.of_nat 2)) by reflexivity.
    exact (proj2 (proj2 (proj2 (plain_cues_past_the_end 1 "a. b. c." H1 H2) 2%nat c G)) H3).
  - vm_compute in G. discriminate G.
Defined.


(* ------------------------------------------------------------------ *)
(** ** The words of a caption *)

Lemma nonempty_append (a b : string) : nonempty a = true -> nonempty (a +:+ b) = true.
Proof. destruct a; [discriminate|]. now rewrite append_cons. Qed.

Lemma join_nonempty (sep : string) (l : list string) :
  l <> [] -> Forall (fun w => nonempty w = true) l -> nonempty (join sep l) = true.
Proof.
  intros NE F. destruct l as [|a r]; [congruence|].
  apply Forall_cons in F. destruct F as [Ha _].
  destruct r; [exact Ha|]. rewrite join_cons by discriminate.
  now apply nonempty_append.
Qed.

Lemma join_app (sep : string) (a b : list string) :
  a <> [] -> b <> [] -> join sep (a ++ b) = join sep a +:+ sep +:+ join sep b.
Proof.
  intros Ha Hb. induction a as [|x [|y r] IH]; [congruence| |].
  - cbn [app]. now rewrite join_cons.
  - change ((x :: y :: r) ++ b) with (x :: ((y :: r) ++ b)).
    rewrite join_cons by (destruct r; discriminate).
    rewrite IH by discriminate.
    rewrite (join_cons sep x (y :: r)) by discriminate.
    now rewrite !append_assoc.
Qed.

Lemma filter_all (ls : list string) :
  Forall (fun l => nonempty l = true) ls -> List.filter nonempty ls = ls.
Proof.
  induction ls as [|l ls IH]; intro F; [reflexivity|].
  apply Forall_cons in F. destruct F as [Hl F]. cbn [List.filter].
  now rewrite Hl, IH.
Qed.

(** Lines made of groups of words, the empty lines left out, read as
    the words of the groups. *)
Lemma join_groups (groups : list (list string)) :
  Forall (fun w => nonempty w = true) (concat groups) ->
  join space (List.filter nonempty (map (join space) groups))
  = join space (concat groups).
Proof.
  induction groups as [|g gs IH]; intro F; [reflexivity|].
  cbn [concat] in F. apply Forall_app in F. destruct F as [Fg Fs].
  specialize (IH Fs). cbn [map List.filter concat].
  destruct g as [|w g'].
  - cbn [join nonempty app]. exact IH.
  - rewrite (join_nonempty space (w :: g')) by (discriminate || assumption).
    destruct (concat gs) as [|v vs] eqn:C.
    + rewrite app_nil_r.
      destruct (List.filter nonempty (map (join space) gs)) as [|l ls] eqn:E;
        [reflexivity|].
      exfalso.
      assert (In l (List.filter nonempty (map (join space) gs)))
        by (rewrite E; now left).
      apply filter_In in H. destruct H as [Hin Hne].
      apply in_map_iff in Hin. destruct Hin as (g0 & <- & Hg0).
      assert (g0 = []).
      { destruct g0 as [|x r]; [reflexivity|].
        assert (X : In x (concat gs)) by (apply in_concat; exists (x :: r); split;
                                            [exact Hg0 | now left]).
        rewrite C in X. destruct X. }
      subst g0. discriminate.
    + destruct (List.filter nonempty (map (join space) gs)) as [|l ls] eqn:E.
      * assert (X : nonempty (join space (v :: vs)) = true)
          by (apply join_nonempty; [discriminate | exact Fs]).
        rewrite <- IH in X. discriminate.
      * rewrite join_cons by discriminate. rewrite IH.
        now rewrite (join_app space (w :: g') (v :: vs)) by discriminate.
Qed.

Lemma reflow_step_solid (st : reflow_state) (w : string) :
  nonempty w = true ->
  Forall (fun l => nonempty l = true) (lines st) ->
  Forall (fun l => nonempty l = true) (current_line st) ->
  Forall (fun l => nonempty l = true) (lines (reflow_step st w))
  /\ Forall (fun l => nonempty l = true) (current_line (reflow_step st w)).
Proof.
  intros Hw HL HC. unfold reflow_step.
  destruct (_ && _)%bool; cbn [lines current_line].
  - split; [exact HL|]. apply Forall_app. split; [exact HC|]. now constructor.
  - split; [|now constructor].
    unfold flush_line. destruct (current_line st) as [|c cur] eqn:E; [exact HL|].
    apply Forall_app. split; [exact HL|]. constructor; [|constructor].
    apply join_nonempty; [discriminate | exact HC].
Qed.

Lemma reflow_loop_solid (words : list string) : forall st,
  Forall (fun w => nonempty w = true) words ->
  Forall (fun l => nonempty l = true) (lines st) ->
  Forall (fun l => nonempty l = true) (current_line st) ->
  Forall (fun l => nonempty l = true) (flush_line (fold_left reflow_step words st)).
Proof.
  induction words as [|w ws IH]; intros st F HL HC.
  - cbn [fold_left]. unfold flush_line.
    destruct (current_line st) as [|c cur] eqn:E; [exact HL|].
    apply Forall_app. split; [exact HL|]. constructor; [|constructor].
    apply join_nonempty; [discriminate | exact HC].
  - apply Forall_cons in F. destruct F as [Hw F]. cbn [fold_left].
    destruct (reflow_step_solid st w Hw HL HC) as [HL' HC'].
    now apply IH.
Qed.

Lemma merge_last_two_solid (ls : list string) :
  Forall (fun l => nonempty l = true) ls ->
  Forall (fun l => nonempty l = true) (merge_last_two ls).
Proof.
  induction ls as [|a [|b [|c r]] IH]; intro F; try exact F.
  - cbn [merge_last_two]. constructor; [|constructor].
    apply Forall_cons in F. destruct F as [Ha _]. now apply nonempty_append.
  - change (merge_last_two (a :: b :: c :: r)) with (a :: merge_last_two (b :: c :: r)).
    apply Forall_cons in F. destruct F as [Ha F]. constructor; [exact Ha|].
    now apply IH.
Qed.

Lemma merge_to_three_solid (fuel : nat) : forall ls : list string,
  Forall (fun l => nonempty l = true) ls ->
  Forall (fun l => nonempty l = true) (merge_to_three fuel ls).
Proof.
  induction fuel as [|f IH]; intros ls F; cbn [merge_to_three];
    destruct (3 <? List.length ls)%nat; try exact F.
  apply IH. now apply merge_last_two_solid.
Qed.

Lemma reflow_solid (words : list string) :
  Forall (fun w => nonempty w = true) words ->
  Forall (fun l => nonempty l = true) (reflow words).
Proof.
  intro F. unfold reflow. cbv zeta. apply merge_to_three_solid.
  apply reflow_loop_solid; [exact F | constructor | constructor].
Qed.

Lemma reflow_lines (words : list string) :
  words <> [] -> (1 <= List.length (reflow words))%nat.
Proof.
  intro NE. pose proof (reflow_keeps_text words) as K.
  destruct (reflow words) as [|l ls] eqn:E; [|cbn [List.length]; lia].
  exfalso. cbn [join] in K.
  destruct words as [|w [|v r]]; [congruence| |].
  - cbn [join] in K. subst w. unfold reflow in E. cbv in E. discriminate.
  - rewrite join_cons in K by discriminate.
    destruct w; rewrite ?append_cons in K; discriminate.
Qed.

(** X17.  A caption is at most three lines; read line by line, the empty
    lines left out, it holds the words it was made from, in their order
    and none twice.  With three words or more no line is empty. *)
Theorem create_multi_line_subtitle_keeps_words (words : list string) :
  words <> [] -> Forall (fun w => nonempty w = true) words ->
  exists ls,
    create_multi_line_subtitle words = join line_break ls
    /\ (1 <= List.length ls <= 3)%nat
    /\ join space (List.filter nonempty ls) = join space words
    /\ ((3 <= List.length words)%nat -> Forall (fun l => nonempty l = true) ls).
Proof.
  intros NE F. rewrite (create_multi_line_subtitle_eq words NE). cbv zeta.
  set (t := List.length words).
  destruct (String.length (join space words) <=? 20)%nat.
  { exists [join space words]. split; [reflexivity|]. split; [cbn; lia|]. split.
    - pose proof (join_groups [words]) as G. cbn [map concat] in G.
      rewrite app_nil_r in G. now apply G.
    - intros _. constructor; [|constructor]. now apply join_nonempty. }
  destruct (String.length (join space words) <=? 40)%nat.
  { exists [join space (firstn (t / 2) words); join space (skipn (t / 2) words)].
    split; [reflexivity|]. split; [cbn; lia|]. split.
    - pose proof (join_groups [firstn (t / 2) words; skipn (t / 2) words]) as G.
      cbn [map concat] in G. rewrite app_nil_r, firstn_skipn in G. now apply G.
    - intro H3.
      assert (L1 : List.length (firstn (t / 2) words) = (t / 2)%nat)
        by (apply firstn_length_le; unfold t; apply Nat.Div0.div_le_upper_bound; lia).
      assert (L2 : List.length (skipn (t / 2) words) = (t - t / 2)%nat)
        by (rewrite length_skipn; reflexivity).
      assert (D : (1 <= t / 2 /\ t / 2 < t)%nat).
      { split; [apply Nat.div_le_lower_bound; unfold t; lia|].
        apply Nat.div_lt; unfold t; lia. }
      constructor; [|constructor; [|constructor]]; apply join_nonempty.
      + intro X. rewrite X in L1. cbn [List.length] in L1. lia.
      + now apply Forall_take.
      + intro X. rewrite X in L2. cbn [List.length] in L2. lia.
      + now apply Forall_drop. }
  destruct (too_long _ || too_long _ || too_long _).
  { exists (reflow words). split; [reflexivity|].
    split; [split; [now apply reflow_lines | apply reflow_length]|].
    split.
    - rewrite filter_all by now apply reflow_solid. apply reflow_keeps_text.
    - intros _. now apply reflow_solid. }
  exists [join space (firstn (t / 3) words);
          join space (skipn (t / 3) (firstn (t * 2 / 3) words));
          join space (skipn (t * 2 / 3) words)].
  assert (D : (t / 3 <= t * 2 / 3 /\ t * 2 / 3 <= t)%nat).
  { split; [apply Nat.Div0.div_le_mono; lia|].
    apply Nat.Div0.div_le_upper_bound. lia. }
  split; [reflexivity|]. split; [cbn; lia|]. split.
  - pose proof (join_groups [firstn (t / 3) words;
                             skipn (t / 3) (firstn (t * 2 / 3) words);
                             skipn (t * 2 / 3) words]) as G.
    cbn [map concat] in G. rewrite app_nil_r in G.
    rewrite thirds_recompose in G by apply D. now apply G.
  - intro H3. fold t in H3.
    assert (D1 : (1 <= t / 3)%nat) by (apply Nat.div_le_lower_bound; lia).
    assert (D2 : (t / 3 < t * 2 / 3)%nat).
    { pose proof (Nat.div_mod_eq t 3) as A. pose proof (Nat.div_mod_eq (t * 2) 3) as B.
      pose proof (Nat.mod_upper_bound t 3) as A'.
      pose proof (Nat.mod_upper_bound (t * 2) 3) as B'. lia. }
    assert (D3 : (t * 2 / 3 < t)%nat).
    { pose proof (Nat.div_mod_eq (t * 2) 3) as B.
      pose proof (Nat.mod_upper_bound (t * 2) 3) as B'. lia. }
    assert (L1 : List.length (firstn (t / 3) words) = (t / 3)%nat)
      by (apply firstn_length_le; fold t; lia).
    assert (L2 : List.length (skipn (t / 3) (firstn (t * 2 / 3) words))
                 = (t * 2 / 3 - t / 3)%nat)
      by (rewrite length_skipn, firstn_length_le by (fold t; lia); reflexivity).
    assert (L3 : List.length (skipn (t * 2 / 3) words) = (t - t * 2 / 3)%nat)
      by (rewrite length_skipn; reflexivity).
    constructor; [|constructor; [|constructor; [|constructor]]]; apply join_nonempty.
    + intro X. rewrite X in L1. cbn [List.length] in L1. lia.
    + now apply Forall_take.
    + intro X. rewrite X in L2. cbn [List.length] in L2. lia.
    + now apply Forall_drop, Forall_take.
    + intro X. rewrite X in L3. cbn [List.length] in L3. lia.
    + now apply Forall_drop.
Qed.

Lemma create_multi_line_subtitle_keeps_words_witness :
  exists ls,
    create_multi_line_subtitle uneven_words = join line_break ls
    /\ join space (List.filter nonempty ls) = join space uneven_words.
Proof.
  assert (NE : uneven_words <> []) by discriminate.
  assert (F : Forall (fun w => nonempty w = true) uneven_words).
  { unfold uneven_words. repeat (constructor; [reflexivity|]). constructor. }
  destruct (create_multi_line_subtitle_keeps_words uneven_words NE F)
    as (ls & H1 & _ & H2 & _).
  exists ls. split; [exact H1 | exact H2].
Defined.


(* ------------------------------------------------------------------ *)
(** ** Clips of the medium tier *)




(* ------------------------------------------------------------------ *)
(** ** The file name of an upload *)

Lemma lower_char_dot (c : ascii) : Ascii.eqb (lower_char c) "." = Ascii.eqb c ".".
Proof. destruct c as [[] [] [] [] [] [] [] []]; reflexivity. Qed.

Lemma lacks_lower (s : string) : lacks "." (lower s) = lacks "." s.
Proof.
  induction s as [|c s IH]; [reflexivity|].
  cbn [lower lacks]. rewrite IH.
  rewrite (Ascii.eqb_sym "." (lower_char c)), lower_char_dot.
  now rewrite (Ascii.eqb_sym c ".").
Qed.

Lemma after_last_dot_none (s : string) :
  after_last_dot s = None <-> lacks "." s = true.
Proof.
  induction s as [|c s IH]; [split; reflexivity|].
  cbn [after_last_dot lacks]. rewrite (Ascii.eqb_sym "." c).
  destruct (after_last_dot s) as [t|].
  - split; [discriminate|]. intro H. apply andb_true_iff in H. destruct H as [_ H].
    apply IH in H. discriminate.
  - destruct (Ascii.eqb c "."); cbn [negb andb]; split; try discriminate.
    + intros _. now apply IH.
    + reflexivity.
Qed.

Lemma after_last_dot_some (s t : string) :
  after_last_dot s = Some t -> contains "." s = true.
Proof.
  revert t. induction s as [|c s IH]; intros t H; [discriminate|].
  cbn [after_last_dot] in H. rewrite contains_eq.
  destruct (after_last_dot s) as [u|].
  - rewrite (IH u eq_refl). apply orb_true_r.
  - destruct (Ascii.eqb c ".") eqn:E; [|discriminate].
    apply Ascii.eqb_eq in E. subst c.
    rewrite prefix_cons, Ascii.eqb_refl, prefix_empty. reflexivity.
Qed.

Lemma string_eqb_cons (a b : ascii) (s t : string) :
  String.eqb (String a s) (String b t) = Ascii.eqb a b && String.eqb s t.
Proof. cbn [String.eqb]. destruct (Ascii.eqb a b); reflexivity. Qed.

(** A lower-cased name ends with a dot and an extension exactly when the
    text after its last dot, in lower case, is that extension. *)
Lemma ends_with_extension (ext : string) :
  lacks "." ext = true ->
  forall s,
    ends_with ("." +:+ ext) (lower s)
    = match after_last_dot s with
      | Some e => String.eqb (lower e) ext
      | None => false
      end.
Proof.
  intros L. induction s as [|c s IH].
  - reflexivity.
  - cbn [lower ends_with after_last_dot]. rewrite IH.
    change ("." +:+ ext) with (String "." ext). rewrite string_eqb_cons, lower_char_dot.
    destruct (after_last_dot s) as [t|] eqn:A.
    + assert (N : String.eqb (lower s) ext = false).
      { destruct (String.eqb (lower s) ext) eqn:E; [|reflexivity].
        apply String.eqb_eq in E. rewrite <- E, lacks_lower in L.
        apply after_last_dot_none in L. congruence. }
      rewrite N, andb_false_r. reflexivity.
    + destruct (Ascii.eqb c "."); [apply orb_false_r | reflexivity].
Qed.

(** X19.  The file names [handle_file_upload] lets through are those whose
    text after the last dot is, in lower case, one of its five
    extensions; they are the names [allowed_file] accepts and, besides,
    those ending in [.webm]. *)
Theorem upload_extension_check (filename : string) :
  (upload_extension_ok filename = true <->
   exists ext, after_last_dot filename = Some ext /\ In (lower ext) allowed_extensions)
  /\ upload_extension_ok filename
     = allowed_file filename || ends_with ".webm" (lower filename)
  /\ (check_upload filename = upload_accepted <-> upload_extension_ok filename = true).
Proof.
  assert (E : upload_extension_ok filename
              = match after_last_dot filename with
                | Some e => existsb (String.eqb (lower e)) allowed_extensions
                | None => false
                end).
  { unfold upload_extension_ok, allowed_extensions. cbn [existsb].
    rewrite !ends_with_extension by reflexivity.
    destruct (after_last_dot filename); reflexivity. }
  split; [|split].
  - rewrite E. destruct (after_last_dot filename) as [e|].
    + rewrite existsb_exists. split.
      * intros (x & Hx & Hq). apply String.eqb_eq in Hq. subst x. now exists e.
      * intros (x & Hx & Hin). injection Hx as <-. exists (lower e).
        split; [exact Hin | apply String.eqb_refl].
    + split; [discriminate|]. intros (x & Hx & _). discriminate.
  - rewrite E. unfold allowed_file.
    change (ends_with ".webm" (lower filename))
      with (ends_with ("." +:+ "webm") (lower filename)).
    rewrite (ends_with_extension "webm" eq_refl filename).
    destruct (after_last_dot filename) as [e|] eqn:A.
    + rewrite (after_last_dot_some _ _ A). unfold allowed_extensions, ALLOWED_EXTENSIONS.
      cbn [existsb andb]. rewrite !orb_false_r, !orb_assoc. reflexivity.
    + now rewrite andb_false_r.
  - unfold check_upload.
    destruct (String.eqb filename EmptyString) eqn:Z.
    + apply String.eqb_eq in Z. subst filename. split; discriminate.
    + destruct (upload_extension_ok filename); cbn [negb]; split;
        (reflexivity || discriminate).
Qed.


(* ------------------------------------------------------------------ *)
(** ** How many clips fit *)

Lemma generate_points_floor R py_exp fuel pc total cut n (g : rng R) pts g' :
  0 < cut -> unit_draws R -> cut * 2 < total -> total <= 300 \/ 1800 < total ->
  generate_varied_start_points R py_exp fuel pc total cut n g = Some (pts, g') ->
  forall i p, nth_error pts i = Some p -> of_nat i * cut <= p.
Proof.
  intros Hc U Long T H i p N.
  pose proof (generate_points_spaced R py_exp fuel pc total cut n g pts g'
                Hc U Long T H) as S.
  assert (F : Forall nonneg pts).
  { rewrite generate_tiers in H by assumption. cbv zeta in H.
    destruct (Qle_bool total 300) eqn:E300.
    - injection H as H.
      pose proof (simple_variation_props R (total - cut) cut n (rng_seed R (pc + 42)))
        as (_ & _ & F).
      rewrite H in F. exact F.
    - apply Qle_bool_false in E300.
      destruct (Qle_bool total 1800) eqn:E1800.
      + apply Qle_bool_iff in E1800. lra.
      + apply advanced_variation_props in H; auto; [tauto | lra]. }
  assert (X : 0 + of_nat i * cut <= p).
  { apply (spaced_nth cut pts i p 0 S); [|exact N].
    destruct pts as [|x r]; [exact I|].
    apply Forall_cons in F. destruct F as [F _]. exact F. }
  lra.
Qed.

Lemma flat_map_short {A} (f : nat -> list A) (K : nat) :
  (forall i, (List.length (f i) <= 1)%nat) ->
  (forall i, (K <= i)%nat -> f i = []) ->
  forall n a, (List.length (flat_map f (seq a n)) <= K - a)%nat.
Proof.
  intros H1 H0. induction n as [|n IH]; intro a; [cbn; lia|].
  cbn [seq flat_map]. rewrite length_app. specialize (IH (S a)).
  destruct (le_lt_dec K a) as [L|L].
  - rewrite (H0 a L). cbn [List.length]. lia.
  - specialize (H1 a). lia.
Qed.

(** X20.  In the tiers that space the start points, the clip with id [k]
    starts at [(k - 1) * duration] or later and has to end a second
    later inside the video; so a run returns at most
    [floor((total - 1) / duration) + 1] clips, however many the
    clip-count table asks for. *)
Theorem create_cuts_room R py_exp C fuel pc d (store : gmap Z Q) (g : rng R)
    cuts store' :
  0 < d -> unit_draws R ->
  d * 2 < video_duration (probe C) ->
  video_duration (probe C) <= 300 \/ 1800 < video_duration (probe C) ->
  create_cuts R py_exp C fuel pc d store g = Some (cuts, store') ->
  (forall c, In c cuts ->
     inject_Z (clip_id c - 1) * d <= clip_start c
     /\ inject_Z (clip_id c - 1) * d + 1 <= video_duration (probe C))
  /\ (List.length cuts
      <= Z.to_nat (Qfloor ((video_duration (probe C) - 1) / d) + 1))%nat.
Proof.
  intros Hd U Long T H.
  set (total := video_duration (probe C)) in *.
  destruct (create_cuts_clips R py_exp C fuel pc d store g cuts store' H)
    as (pts & g' & G & P). fold total in G, P.
  pose proof (generate_points_floor R py_exp fuel pc total d _ g pts g' Hd U Long T G)
    as Fl.
  assert (Room : forall i s, nth_error pts i = Some s ->
                   1 <= py_min (s + d) total - s -> of_nat i * d + 1 <= total).
  { intros i s N L. pose proof (Fl i s N) as X.
    destruct (py_min_spec (s + d) total) as (_ & M & _). lra. }
  split.
  - intros c Hc. destruct (P c Hc) as (i & _ & N & I & En & L).
    rewrite I. replace (Z.of_nat i + 1 - 1)%Z with (Z.of_nat i) by lia.
    fold (of_nat i). split; [apply (Fl i _ N)|].
    rewrite En in L. apply (Room i _ N L).
  - destruct (create_cuts_plan R py_exp C fuel pc d store g pts g' G)
      as (cuts0 & store0 & H0 & S).
    rewrite H in H0. injection H0 as <- <-. fold total in S.
    rewrite <- (length_map clip_span), S.
    pose proof (flat_map_short (planned_span C total d pts)
                  (Z.to_nat (Qfloor ((total - 1) / d) + 1))
                  (planned_span_length C total d pts)) as B.
    rewrite <- (Nat.sub_0_r (Z.to_nat _)). apply B.
    intros i Hi. unfold planned_span.
    destruct (nth_error pts i) as [s|] eqn:N; [|reflexivity].
    destruct (Qlt_bool (py_min (s + d) total - s) 1) eqn:L; [reflexivity|].
    exfalso. apply Qlt_bool_false in L.
    pose proof (Room i s N L) as X.
    assert (Y : of_nat i <= (total - 1) / d).
    { apply Qle_shift_div_l; [exact Hd|]. lra. }
    assert (Z : (Qfloor (of_nat i) <= Qfloor ((total - 1) / d))%Z)
      by now apply Qfloor_resp_le.
    unfold of_nat in Z. rewrite Qfloor_Z in Z. lia.
Qed.

Lemma create_cuts_room_witness :
  exists cuts store',
    create_cuts lcg exp_stub (quiet 100) 0 0 30 ∅ 0%Z = Some (cuts, store')
    /\ choose_num_cuts (video_duration (probe (quiet 100))) 30 = 5%nat
    /\ (List.length cuts
        <= Z.to_nat (Qfloor ((video_duration (probe (quiet 100)) - 1) / 30) + 1))%nat
    /\ Z.to_nat (Qfloor ((video_duration (probe (quiet 100)) - 1) / 30) + 1) = 4%nat.
Proof.
  assert (H1 : 0 < 30) by reflexivity.
  assert (H2 : 30 * 2 < video_duration (probe (quiet 100))) by reflexivity.
  assert (H3 : video_duration (probe (quiet 100)) <= 300) by discriminate.
  destruct (create_cuts lcg exp_stub (quiet 100) 0 0 30 ∅ 0%Z) as [[cuts store']|] eqn:G.
  - exists cuts, store'. split; [reflexivity|]. split; [reflexivity|]. split.
    + exact (proj2 (create_cuts_room lcg exp_stub (quiet 100) 0 0 30 ∅ 0%Z cuts store'
                      H1 lcg_unit_draws H2 (or_introl H3) G)).
    + reflexivity.
  - vm_compute in G. discriminate G.
Defined.
